(** * QuickTune room correction: the EQ10 equalizer and the calibration controller

    A shallow embedding of [eq10.cpp], [quicktune.cpp] and [quicktune_config.h],
    with the two audio loops of [quicktune_example.cpp] that drive them.

    Numbers.  The C type [float] is modelled by the real numbers [R]: [sinf],
    [cosf], [sqrtf], [powf] and [log10f] (and their CMSIS-DSP replacements
    [arm_sin_f32], [arm_cos_f32]) are [sin], [cos], [sqrt], [Rpower] and
    [ln x / ln 10]; rounding is not modelled, and what holds only in exact
    arithmetic, such as the unit amplitude of the recursive oscillator, is
    not stated.  [int] and [uint32_t] are [Z], the unsigned counter with its
    wrap-around at [2^32] written out.

    Memory.  The file-scope [static] variables of the two translation units are
    the fields of the records [EQ10] and [QuickTune]; every function takes the
    record and returns the updated one.  A C array is a [list R]; a pointer
    argument that may be [NULL] is an [option]. *)

From Stdlib Require Import Reals Lra Lia ZArith List Bool.
Import ListNotations.

Local Open Scope Z_scope.
Local Open Scope R_scope.

(* ========================================================================== *)
(** * Arrays *)
(* ========================================================================== *)

(** [a[i] = v].  A store outside the array is undefined in C; here it leaves
    the array as it is. *)
Fixpoint store (i : nat) (v : R) (a : list R) : list R :=
  match a, i with
  | [], _ => []
  | _ :: t, O => v :: t
  | x :: t, S j => x :: store j v t
  end.

(** [a[i]].  A load outside the array is undefined in C; here it reads [0]. *)
Definition load (i : nat) (a : list R) : R := nth i a 0.

(** [p = &a[off]; p[0] = v0; p[1] = v1; ...] *)
Fixpoint store_at (off : nat) (vs : list R) (a : list R) : list R :=
  match vs with
  | [] => a
  | v :: vs' => store_at (S off) vs' (store off v a)
  end.

(** [memset(a, 0, n * sizeof(float))] on a fresh view of [n] floats. *)
Definition zeros (n : nat) : list R := repeat 0 n.

(** [memcpy(dst, src, n * sizeof(float))]: the first [n] floats of [src]. *)
Definition memcpy (n : nat) (src : list R) : list R :=
  map (fun i => load i src) (seq 0 n).

(* ========================================================================== *)
(** * quicktune_config.h *)
(* ========================================================================== *)

Definition QUICKTUNE_SAMPLE_RATE : Z := 48000.
Definition QUICKTUNE_BLOCK_SIZE : Z := 32.
Definition QUICKTUNE_NUM_BANDS : Z := 10.

Definition QUICKTUNE_TONE_SETTLING_SAMPLES : Z := 9600.
Definition QUICKTUNE_TONE_ANALYSIS_SAMPLES : Z := 4800.
Definition QUICKTUNE_TONE_TOTAL_SAMPLES : Z := 14400.

Definition QUICKTUNE_BAND_FREQUENCIES : list R :=
  [25; 40; 63; 100; 160; 250; 400; 630; 1000; 1600].

Definition QUICKTUNE_MEMS_CALIBRATION : list R :=
  [3.0; 1.5; 0; 0; 0; 0; 0; 0; 0; 0].

Definition QUICKTUNE_MAX_GAIN_DB : R := 12.
Definition QUICKTUNE_MIN_GAIN_DB : R := -12.
Definition QUICKTUNE_EQ_Q : R := 2.

Definition QUICKTUNE_MAX_ITERATIONS : Z := 3.
Definition QUICKTUNE_DAMPING_FACTOR : R := 0.7.
Definition QUICKTUNE_ENABLE_ITERATION : bool := true.

Definition QUICKTUNE_TONE_AMPLITUDE : R := 0.5.
Definition QUICKTUNE_FADE_SAMPLES : Z := 480.

(** eq10.h *)
Definition EQ10_NUM_BANDS : Z := 10.
Definition EQ10_COEFFS_PER_BAND : Z := 5.
Definition EQ10_TOTAL_COEFFS : Z := EQ10_NUM_BANDS * EQ10_COEFFS_PER_BAND.
Definition EQ10_STATE_PER_BAND : Z := 2.
Definition EQ10_TOTAL_STATE : Z := EQ10_NUM_BANDS * EQ10_STATE_PER_BAND.

(** [uint32_t] arithmetic. *)
Definition u32 (z : Z) : Z := z mod 2 ^ 32.

(* ========================================================================== *)
(** * eq10.cpp *)
(* ========================================================================== *)

(** The private state of [eq10.cpp].  The CMSIS cascade instance only holds
    the stage count and pointers to the two arrays below, so it has no field
    of its own. *)
Record EQ10 : Type := mkEQ10 {
  s_eq10_coeffs : list R;
  s_eq10_state : list R;
  s_eq10_initialized : bool
}.

(** The state of the translation unit before any call: zero-initialised
    statics. *)
Definition EQ10_boot : EQ10 :=
  mkEQ10 (zeros (Z.to_nat EQ10_TOTAL_COEFFS)) (zeros (Z.to_nat EQ10_TOTAL_STATE)) false.

(** [EQ10_DesignBiquad]: the five values written to [coeffs[0..4]]. *)
Definition EQ10_DesignBiquad (fc gain_dB Q fs : R) : list R :=
  let A := Rpower 10 (gain_dB / 40) in
  let w0 := 2 * PI * fc / fs in
  let sin_w0 := sin w0 in
  let cos_w0 := cos w0 in
  let alpha := sin_w0 / (2 * Q) in
  let b0 := 1 + alpha * A in
  let b1 := -2 * cos_w0 in
  let b2 := 1 - alpha * A in
  let a0 := 1 + alpha / A in
  let a1 := -2 * cos_w0 in
  let a2 := 1 - alpha / A in
  [b0 / a0; b1 / a0; b2 / a0; a1 / a0; a2 / a0].

Definition EQ10_IsValidBand (band : Z) : bool :=
  (0 <=? band)%Z && (band <? EQ10_NUM_BANDS)%Z.

(** The gain clip shared by the setters and by the controller:
    [if (g > MAX) g = MAX; if (g < MIN) g = MIN;] *)
Definition clip_gain (gain_dB : R) : R :=
  let gain_dB := if Rgt_dec gain_dB QUICKTUNE_MAX_GAIN_DB
                 then QUICKTUNE_MAX_GAIN_DB else gain_dB in
  let gain_dB := if Rlt_dec gain_dB QUICKTUNE_MIN_GAIN_DB
                 then QUICKTUNE_MIN_GAIN_DB else gain_dB in
  gain_dB.

(** [if (Q < 0.1f) Q = 0.1f; if (Q > 20.0f) Q = 20.0f;] *)
Definition clip_Q (Q : R) : R :=
  let Q := if Rlt_dec Q 0.1 then 0.1 else Q in
  let Q := if Rgt_dec Q 20 then 20 else Q in
  Q.

(** One pass of the design loops: band [band] of [coeffs] is redesigned. *)
Definition design_band (gain_dB Q : R) (band : nat) (coeffs : list R) : list R :=
  let fc := load band QUICKTUNE_BAND_FREQUENCIES in
  store_at (band * Z.to_nat EQ10_COEFFS_PER_BAND)
           (EQ10_DesignBiquad fc gain_dB Q (IZR QUICKTUNE_SAMPLE_RATE)) coeffs.

Definition bands : list nat := seq 0 (Z.to_nat EQ10_NUM_BANDS).

(** [EQ10_Init]: every band designed at 0 dB and Q = 2, the state array
    cleared by [memset], the flag set.  The call
    [arm_biquad_cascade_df1_init_f32] between the two belongs to CMSIS-DSP;
    what it leaves in the state array is not fixed here, and no statement
    below says anything about [s_eq10_state] after [EQ10_Init]. *)
Definition EQ10_Init (e : EQ10) : EQ10 :=
  let coeffs :=
    fold_left (fun cs band => design_band 0 QUICKTUNE_EQ_Q band cs)
              bands (s_eq10_coeffs e) in
  mkEQ10 coeffs (zeros (Z.to_nat EQ10_TOTAL_STATE)) true.

Definition EQ10_SetBandGain (band : Z) (gain_dB Q : R) (e : EQ10) : bool * EQ10 :=
  if negb (s_eq10_initialized e) || negb (EQ10_IsValidBand band) then (false, e)
  else
    let gain_dB := clip_gain gain_dB in
    let Q := clip_Q Q in
    (true, mkEQ10 (design_band gain_dB Q (Z.to_nat band) (s_eq10_coeffs e))
                  (s_eq10_state e) (s_eq10_initialized e)).

Definition EQ10_SetAllGains (gains_dB : option (list R)) (Q : R) (e : EQ10)
  : bool * EQ10 :=
  match gains_dB with
  | None => (false, e)
  | Some gains =>
    if negb (s_eq10_initialized e) then (false, e)
    else
      let Q := clip_Q Q in
      let coeffs :=
        fold_left (fun cs band => design_band (clip_gain (load band gains)) Q band cs)
                  bands (s_eq10_coeffs e) in
      (true, mkEQ10 coeffs (s_eq10_state e) (s_eq10_initialized e))
  end.

(** [EQ10_GetCoefficients]: what the caller's buffer holds afterwards; [None]
    is the [NULL] buffer, which is left alone. *)
Definition EQ10_GetCoefficients (coeffs : option (list R)) (e : EQ10)
  : option (list R) :=
  match coeffs with
  | None => None
  | Some _ => Some (memcpy (Z.to_nat EQ10_TOTAL_COEFFS) (s_eq10_coeffs e))
  end.

Definition EQ10_Reset (e : EQ10) : EQ10 :=
  mkEQ10 (s_eq10_coeffs e) (zeros (Z.to_nat EQ10_TOTAL_STATE)) (s_eq10_initialized e).

Definition EQ10_GetBandFrequency (band : Z) : R :=
  if negb (EQ10_IsValidBand band) then 0
  else load (Z.to_nat band) QUICKTUNE_BAND_FREQUENCIES.

(* ========================================================================== *)
(** * quicktune.cpp: private state *)
(* ========================================================================== *)

Inductive QuickTuneState : Type :=
  | QUICKTUNE_STATE_IDLE
  | QUICKTUNE_STATE_MEASURING
  | QUICKTUNE_STATE_COMPUTING
  | QUICKTUNE_STATE_APPLYING
  | QUICKTUNE_STATE_DONE
  | QUICKTUNE_STATE_ERROR.

Definition QuickTuneState_eqb (a b : QuickTuneState) : bool :=
  match a, b with
  | QUICKTUNE_STATE_IDLE, QUICKTUNE_STATE_IDLE
  | QUICKTUNE_STATE_MEASURING, QUICKTUNE_STATE_MEASURING
  | QUICKTUNE_STATE_COMPUTING, QUICKTUNE_STATE_COMPUTING
  | QUICKTUNE_STATE_APPLYING, QUICKTUNE_STATE_APPLYING
  | QUICKTUNE_STATE_DONE, QUICKTUNE_STATE_DONE
  | QUICKTUNE_STATE_ERROR, QUICKTUNE_STATE_ERROR => true
  | _, _ => false
  end.

(** Recursive oscillator. *)
Record ToneGenerator : Type := mkTone {
  s_osc_y1 : R;
  s_osc_y2 : R;
  s_osc_coeff : R;
  s_tone_amplitude : R
}.

(** Goertzel filter. *)
Record Goertzel : Type := mkGoertzel {
  s_goertzel_s1 : R;
  s_goertzel_s2 : R;
  s_goertzel_coeff : R
}.

(** All the statics of [quicktune.cpp], and the equalizer it drives. *)
Record QuickTune : Type := mkQuickTune {
  s_state : QuickTuneState;
  s_current_band : Z;
  s_sample_counter : Z;
  s_iteration : Z;
  s_last_error : Z;
  tone : ToneGenerator;
  goertzel : Goertzel;
  s_goertzel_coeffs : list R;
  s_measured_levels : list R;
  s_correction_gains : list R;
  s_cumulative_gains : list R;
  eq10 : EQ10
}.

Definition with_state (v : QuickTuneState) (q : QuickTune) : QuickTune :=
  mkQuickTune v (s_current_band q) (s_sample_counter q) (s_iteration q)
    (s_last_error q) (tone q) (goertzel q) (s_goertzel_coeffs q)
    (s_measured_levels q) (s_correction_gains q) (s_cumulative_gains q) (eq10 q).

Definition with_current_band (v : Z) (q : QuickTune) : QuickTune :=
  mkQuickTune (s_state q) v (s_sample_counter q) (s_iteration q)
    (s_last_error q) (tone q) (goertzel q) (s_goertzel_coeffs q)
    (s_measured_levels q) (s_correction_gains q) (s_cumulative_gains q) (eq10 q).

Definition with_sample_counter (v : Z) (q : QuickTune) : QuickTune :=
  mkQuickTune (s_state q) (s_current_band q) v (s_iteration q)
    (s_last_error q) (tone q) (goertzel q) (s_goertzel_coeffs q)
    (s_measured_levels q) (s_correction_gains q) (s_cumulative_gains q) (eq10 q).

Definition with_iteration (v : Z) (q : QuickTune) : QuickTune :=
  mkQuickTune (s_state q) (s_current_band q) (s_sample_counter q) v
    (s_last_error q) (tone q) (goertzel q) (s_goertzel_coeffs q)
    (s_measured_levels q) (s_correction_gains q) (s_cumulative_gains q) (eq10 q).

Definition with_last_error (v : Z) (q : QuickTune) : QuickTune :=
  mkQuickTune (s_state q) (s_current_band q) (s_sample_counter q) (s_iteration q)
    v (tone q) (goertzel q) (s_goertzel_coeffs q)
    (s_measured_levels q) (s_correction_gains q) (s_cumulative_gains q) (eq10 q).

Definition with_tone (v : ToneGenerator) (q : QuickTune) : QuickTune :=
  mkQuickTune (s_state q) (s_current_band q) (s_sample_counter q) (s_iteration q)
    (s_last_error q) v (goertzel q) (s_goertzel_coeffs q)
    (s_measured_levels q) (s_correction_gains q) (s_cumulative_gains q) (eq10 q).

Definition with_goertzel (v : Goertzel) (q : QuickTune) : QuickTune :=
  mkQuickTune (s_state q) (s_current_band q) (s_sample_counter q) (s_iteration q)
    (s_last_error q) (tone q) v (s_goertzel_coeffs q)
    (s_measured_levels q) (s_correction_gains q) (s_cumulative_gains q) (eq10 q).

Definition with_goertzel_coeffs (v : list R) (q : QuickTune) : QuickTune :=
  mkQuickTune (s_state q) (s_current_band q) (s_sample_counter q) (s_iteration q)
    (s_last_error q) (tone q) (goertzel q) v
    (s_measured_levels q) (s_correction_gains q) (s_cumulative_gains q) (eq10 q).

Definition with_measured_levels (v : list R) (q : QuickTune) : QuickTune :=
  mkQuickTune (s_state q) (s_current_band q) (s_sample_counter q) (s_iteration q)
    (s_last_error q) (tone q) (goertzel q) (s_goertzel_coeffs q)
    v (s_correction_gains q) (s_cumulative_gains q) (eq10 q).

Definition with_correction_gains (v : list R) (q : QuickTune) : QuickTune :=
  mkQuickTune (s_state q) (s_current_band q) (s_sample_counter q) (s_iteration q)
    (s_last_error q) (tone q) (goertzel q) (s_goertzel_coeffs q)
    (s_measured_levels q) v (s_cumulative_gains q) (eq10 q).

Definition with_cumulative_gains (v : list R) (q : QuickTune) : QuickTune :=
  mkQuickTune (s_state q) (s_current_band q) (s_sample_counter q) (s_iteration q)
    (s_last_error q) (tone q) (goertzel q) (s_goertzel_coeffs q)
    (s_measured_levels q) (s_correction_gains q) v (eq10 q).

Definition with_eq10 (v : EQ10) (q : QuickTune) : QuickTune :=
  mkQuickTune (s_state q) (s_current_band q) (s_sample_counter q) (s_iteration q)
    (s_last_error q) (tone q) (goertzel q) (s_goertzel_coeffs q)
    (s_measured_levels q) (s_correction_gains q) (s_cumulative_gains q) v.

(** The program before any call: zero-initialised statics, state [IDLE]. *)
Definition QuickTune_boot : QuickTune :=
  let n := Z.to_nat QUICKTUNE_NUM_BANDS in
  mkQuickTune QUICKTUNE_STATE_IDLE 0 0 0 0
    (mkTone 0 0 0 0) (mkGoertzel 0 0 0)
    (zeros n) (zeros n) (zeros n) (zeros n) EQ10_boot.

(* ========================================================================== *)
(** * Tone generator *)
(* ========================================================================== *)

Definition ToneGenerator_Init (frequency : R) : ToneGenerator :=
  let w0 := 2 * PI * frequency / IZR QUICKTUNE_SAMPLE_RATE in
  mkTone (- sin w0) (- sin (2 * w0)) (2 * cos w0) QUICKTUNE_TONE_AMPLITUDE.

(** One sample and the advanced oscillator. *)
Definition ToneGenerator_GetSample (sample_index : Z) (t : ToneGenerator)
  : R * ToneGenerator :=
  let y0 := s_osc_coeff t * s_osc_y1 t - s_osc_y2 t in
  let t' := mkTone y0 (s_osc_y1 t) (s_osc_coeff t) (s_tone_amplitude t) in
  let amplitude := s_tone_amplitude t in
  let amplitude :=
    if (sample_index <? QUICKTUNE_FADE_SAMPLES)%Z then
      amplitude * (IZR sample_index / IZR QUICKTUNE_FADE_SAMPLES)
    else if (QUICKTUNE_TONE_TOTAL_SAMPLES - QUICKTUNE_FADE_SAMPLES <=? sample_index)%Z then
      let fade_index := u32 (QUICKTUNE_TONE_TOTAL_SAMPLES - sample_index) in
      amplitude * (IZR fade_index / IZR QUICKTUNE_FADE_SAMPLES)
    else amplitude in
  (y0 * amplitude, t').

(* ========================================================================== *)
(** * Goertzel filter *)
(* ========================================================================== *)

Definition Goertzel_Init (frequency : R) (num_samples : Z) : Goertzel :=
  let k := IZR num_samples * frequency / IZR QUICKTUNE_SAMPLE_RATE + 0.5 in
  let w := (2 * PI * k) / IZR num_samples in
  mkGoertzel 0 0 (2 * cos w).

Definition Goertzel_ProcessSample (sample : R) (g : Goertzel) : Goertzel :=
  let s0 := s_goertzel_coeff g * s_goertzel_s1 g - s_goertzel_s2 g + sample in
  mkGoertzel s0 (s_goertzel_s1 g) (s_goertzel_coeff g).

Definition log10 (x : R) : R := ln x / ln 10.

Definition Goertzel_GetPower (num_samples : Z) (g : Goertzel) : R :=
  let power := s_goertzel_s1 g * s_goertzel_s1 g +
               s_goertzel_s2 g * s_goertzel_s2 g -
               s_goertzel_coeff g * s_goertzel_s1 g * s_goertzel_s2 g in
  let magnitude := sqrt (2 * power) / IZR num_samples in
  if Rgt_dec magnitude 1e-9 then 20 * log10 magnitude else -120.

(* ========================================================================== *)
(** * State machine *)
(* ========================================================================== *)

Definition StartBandMeasurement (q : QuickTune) : QuickTune :=
  if (QUICKTUNE_NUM_BANDS <=? s_current_band q)%Z then
    with_state QUICKTUNE_STATE_COMPUTING q
  else
    let frequency := load (Z.to_nat (s_current_band q)) QUICKTUNE_BAND_FREQUENCIES in
    with_sample_counter 0
      (with_goertzel (Goertzel_Init frequency QUICKTUNE_TONE_ANALYSIS_SAMPLES)
         (with_tone (ToneGenerator_Init frequency) q)).

(** The body of the loop of [ComputeCorrectionGains] for one band. *)
Definition compute_band (q : QuickTune) (band : nat) : QuickTune :=
  let gain := clip_gain (- load band (s_measured_levels q)) in
  let q := with_correction_gains (store band gain (s_correction_gains q)) q in
  if (s_iteration q =? 0)%Z then
    with_cumulative_gains (store band gain (s_cumulative_gains q)) q
  else
    let c := load band (s_cumulative_gains q) + gain * QUICKTUNE_DAMPING_FACTOR in
    with_cumulative_gains (store band (clip_gain c) (s_cumulative_gains q)) q.

Definition ComputeCorrectionGains (q : QuickTune) : QuickTune :=
  with_state QUICKTUNE_STATE_APPLYING (fold_left compute_band bands q).

Definition ApplyCorrectionGains (q : QuickTune) : QuickTune :=
  let q := with_eq10
             (snd (EQ10_SetAllGains (Some (s_cumulative_gains q)) QUICKTUNE_EQ_Q (eq10 q)))
             q in
  if QUICKTUNE_ENABLE_ITERATION
     && (s_iteration q <? QUICKTUNE_MAX_ITERATIONS - 1)%Z then
    StartBandMeasurement
      (with_state QUICKTUNE_STATE_MEASURING
         (with_current_band 0 (with_iteration (s_iteration q + 1) q)))
  else with_state QUICKTUNE_STATE_DONE q.

(* ========================================================================== *)
(** * Public API *)
(* ========================================================================== *)

Definition QuickTune_Init (q : QuickTune) : QuickTune :=
  let n := Z.to_nat QUICKTUNE_NUM_BANDS in
  let N_f := IZR QUICKTUNE_TONE_ANALYSIS_SAMPLES in
  let coeff_of (band : nat) :=
    let frequency := load band QUICKTUNE_BAND_FREQUENCIES in
    let k := N_f * frequency / IZR QUICKTUNE_SAMPLE_RATE + 0.5 in
    let w := (2 * PI * k) / N_f in
    2 * cos w in
  mkQuickTune QUICKTUNE_STATE_IDLE 0 0 0 0 (tone q) (goertzel q)
    (fold_left (fun cs band => store band (coeff_of band) cs) bands (s_goertzel_coeffs q))
    (zeros n) (zeros n) (zeros n) (EQ10_Init (eq10 q)).

Definition QuickTune_Start (q : QuickTune) : bool * QuickTune :=
  if negb (QuickTuneState_eqb (s_state q) QUICKTUNE_STATE_IDLE) then
    (false, with_last_error 1 q)
  else
    (true,
     StartBandMeasurement
       (with_state QUICKTUNE_STATE_MEASURING
          (with_current_band 0 (with_iteration 0 q)))).

(** The loop body of the measuring branch up to and including
    [s_sample_counter++]: the tone sample written to [speakerOutput[i]] and the
    state. *)
Definition measure_sample (mic_i : R) (q : QuickTune) : R * QuickTune :=
  let (y, t) := ToneGenerator_GetSample (s_sample_counter q) (tone q) in
  let q := with_tone t q in
  let q :=
    if (QUICKTUNE_TONE_SETTLING_SAMPLES <=? s_sample_counter q)%Z
       && (s_sample_counter q <?
           QUICKTUNE_TONE_SETTLING_SAMPLES + QUICKTUNE_TONE_ANALYSIS_SAMPLES)%Z
    then with_goertzel (Goertzel_ProcessSample mic_i (goertzel q)) q
    else q in
  (y, with_sample_counter (u32 (s_sample_counter q + 1)) q).

(** The tone is complete: store the level of the band, move to the next. *)
Definition finish_tone (q : QuickTune) : QuickTune :=
  let band := Z.to_nat (s_current_band q) in
  let level_db := Goertzel_GetPower QUICKTUNE_TONE_ANALYSIS_SAMPLES (goertzel q) in
  let level_db := level_db + load band QUICKTUNE_MEMS_CALIBRATION in
  let q := with_measured_levels (store band level_db (s_measured_levels q)) q in
  StartBandMeasurement (with_current_band (s_current_band q + 1) q).

(** [for (i = ...; i < numSamples; i++)] of the measuring branch, entered at
    index [i] with [left = numSamples - i] passes to go.  The result is the
    state and [speakerOutput[i ..]]: after a completed tone the function
    returns with the rest of the block zero-filled. *)
Fixpoint measure_loop (left : nat) (i : nat) (micInput : list R) (q : QuickTune)
  : QuickTune * list R :=
  match left with
  | O => (q, [])
  | S left' =>
    let (y, q) := measure_sample (load i micInput) q in
    if (QUICKTUNE_TONE_TOTAL_SAMPLES <=? s_sample_counter q)%Z then
      (finish_tone q, y :: zeros left')
    else
      let (q', out) := measure_loop left' (S i) micInput q in
      (q', y :: out)
  end.

(** [QuickTune_ProcessBlock]: the state and the [numSamples] floats of
    [speakerOutput]. *)
Definition QuickTune_ProcessBlock (micInput : list R) (numSamples : Z) (q : QuickTune)
  : QuickTune * list R :=
  match s_state q with
  | QUICKTUNE_STATE_IDLE | QUICKTUNE_STATE_DONE | QUICKTUNE_STATE_ERROR =>
    (q, zeros (Z.to_nat numSamples))
  | QUICKTUNE_STATE_MEASURING => measure_loop (Z.to_nat numSamples) 0 micInput q
  | QUICKTUNE_STATE_COMPUTING => (ComputeCorrectionGains q, zeros (Z.to_nat numSamples))
  | QUICKTUNE_STATE_APPLYING => (ApplyCorrectionGains q, zeros (Z.to_nat numSamples))
  end.

Definition QuickTune_GetState (q : QuickTune) : QuickTuneState := s_state q.

Definition QuickTune_GetCurrentBand (q : QuickTune) : Z :=
  if QuickTuneState_eqb (s_state q) QUICKTUNE_STATE_MEASURING
  then s_current_band q else -1.

Definition QuickTune_GetProgress (q : QuickTune) : R :=
  match s_state q with
  | QUICKTUNE_STATE_IDLE => 0
  | QUICKTUNE_STATE_DONE => 1
  | QUICKTUNE_STATE_MEASURING =>
    let num_bands_f := IZR QUICKTUNE_NUM_BANDS in
    let band_progress := IZR (s_current_band q) / num_bands_f in
    let sample_progress :=
      IZR (s_sample_counter q) / IZR QUICKTUNE_TONE_TOTAL_SAMPLES in
    band_progress + sample_progress / num_bands_f
  | _ => 0.95
  end.

(** The getters return a pointer to the array or [NULL]. *)
Definition QuickTune_GetCorrectionGains (q : QuickTune) : option (list R) :=
  if QuickTuneState_eqb (s_state q) QUICKTUNE_STATE_DONE
  then Some (s_cumulative_gains q) else None.

Definition QuickTune_GetMeasuredLevels (q : QuickTune) : option (list R) :=
  if QuickTuneState_eqb (s_state q) QUICKTUNE_STATE_DONE
  then Some (s_measured_levels q) else None.

Definition QuickTune_Stop (q : QuickTune) : QuickTune :=
  with_iteration 0
    (with_sample_counter 0
       (with_current_band 0 (with_state QUICKTUNE_STATE_IDLE q))).

Definition QuickTune_ApplyGains (gains : option (list R)) (q : QuickTune) : QuickTune :=
  match gains with
  | None => with_last_error 3 q
  | Some g =>
    let q := with_cumulative_gains (memcpy (Z.to_nat QUICKTUNE_NUM_BANDS) g) q in
    let q := with_eq10
               (snd (EQ10_SetAllGains (Some g) QUICKTUNE_EQ_Q (eq10 q))) q in
    with_last_error 0 q
  end.

Definition QuickTune_GetLastError (q : QuickTune) : Z := s_last_error q.

Definition QuickTune_GetCpuUsage (q : QuickTune) : R :=
  match s_state q with
  | QUICKTUNE_STATE_MEASURING => 0.13
  | QUICKTUNE_STATE_DONE => 3.8
  | _ => 0
  end.

(** The audio callback during calibration: [n] blocks of
    [QUICKTUNE_BLOCK_SIZE] samples, block [k] reading the microphone buffer
    [mic k]. *)
Fixpoint feed (mic : nat -> list R) (n : nat) (q : QuickTune) : QuickTune :=
  match n with
  | O => q
  | S k => fst (QuickTune_ProcessBlock (mic k) QUICKTUNE_BLOCK_SIZE (feed mic k q))
  end.

(** The arrays have the sizes of their declarations. *)
Definition sized (q : QuickTune) : Prop :=
  length (s_measured_levels q) = Z.to_nat QUICKTUNE_NUM_BANDS /\
  length (s_correction_gains q) = Z.to_nat QUICKTUNE_NUM_BANDS /\
  length (s_cumulative_gains q) = Z.to_nat QUICKTUNE_NUM_BANDS /\
  length (s_eq10_coeffs (eq10 q)) = Z.to_nat EQ10_TOTAL_COEFFS.

(* ========================================================================== *)
(** * The specification's formulas, for comparison with the code *)
(* ========================================================================== *)

(** [round(x)] for the non-negative arguments that occur: half-way cases go up. *)
Definition round (x : R) : Z := Int_part (x + 0.5).

(** The detector coefficient as the specification words it:
    [k = round(N * frequency / sampleRate)], [coeff = 2 * cos(2 * pi * k / N)]. *)
Definition spec_goertzel_coeff (frequency : R) (num_samples : Z) : R :=
  let k := round (IZR num_samples * frequency / IZR QUICKTUNE_SAMPLE_RATE) in
  2 * cos (2 * PI * IZR k / IZR num_samples).

(** [clamp(x, lo, hi)] as the specification writes it. *)
Definition clamp (x lo hi : R) : R := Rmax lo (Rmin x hi).

(** The refinement step as the specification's test words it: the unclamped
    new deviation times the damping factor is added to the previous
    cumulative gain and the sum is clamped. *)
Definition spec_refined_gain (previous d_measured : R) : R :=
  clip_gain (previous + (- d_measured) * QUICKTUNE_DAMPING_FACTOR).

(** The premise of the refinement step as the specification words it: a
    fixed room with deviation [d] in a band; the sweep after iteration 0
    measures [d_measured], the room's deviation together with the share [t]
    of the first correction [clamp(-d)] that reaches the microphone, from
    none of it ([t = 0], the same [d] again) to all of it ([t = 1], the
    residual [d + clamp(-d)]). *)
Definition fixed_deviation (d d_measured : R) : Prop :=
  exists t, 0 <= t <= 1 /\ d_measured = d + t * clip_gain (- d).

(** The identity coefficient vector of the specification. *)
Definition spec_identity : list R := [1; 0; 0; 0; 0].

(** A controller about to run its computing step: iteration number, measured
    levels and cumulative gains as given, everything else as after boot. *)
Definition computing_state (iteration : Z) (measured cumulative : list R) : QuickTune :=
  with_state QUICKTUNE_STATE_COMPUTING
    (with_iteration iteration
       (with_measured_levels measured
          (with_cumulative_gains cumulative QuickTune_boot))).

(** The microphone delivers silence in every block. *)
Definition silent (mic : nat -> list R) : Prop :=
  forall k, mic k = zeros (Z.to_nat QUICKTUNE_BLOCK_SIZE).

(** The detector holds no energy. *)
Definition quiet (g : Goertzel) : Prop :=
  s_goertzel_s1 g = 0 /\ s_goertzel_s2 g = 0.

(** The preset of the end-to-end scenario. *)
Definition preset : list R :=
  [-2.5; -1.8; 0.5; 1.2; -0.3; -1.5; 0.8; 0.2; -0.5; 0.0].

(* ========================================================================== *)
(** * Auxiliary notions for the proofs *)
(* ========================================================================== *)

(** The correction of one band: the negated level, clipped. *)
Definition correction_of (q : QuickTune) (band : nat) : R :=
  clip_gain (- load band (s_measured_levels q)).

(** The cumulative gain of one band after the computing step. *)
Definition cumulative_of (q : QuickTune) (band : nat) : R :=
  if (s_iteration q =? 0)%Z then correction_of q band
  else clip_gain (load band (s_cumulative_gains q)
                  + correction_of q band * QUICKTUNE_DAMPING_FACTOR).

(** The five coefficients of a band, [&coeffs[band * 5]]. *)
Definition band_coeffs (band : nat) (coeffs : list R) : list R :=
  map (fun k => load (band * 5 + k) coeffs) (seq 0 5).

(** The state after some samples of a tone: only the oscillator, the detector
    and the sample counter have moved. *)
Definition dsp (q : QuickTune) (counter : Z) (t : ToneGenerator) (g : Goertzel)
  : QuickTune :=
  with_sample_counter counter (with_goertzel g (with_tone t q)).

(** The sweep invariant: [n] blocks after the start of a sweep from [q0], the
    controller is at sample [32 j] of band [b] with [n = 450 b + j]; the
    iteration number, the gains and the equalizer are those of [q0]; and on a
    silent microphone the detector is empty and every finished band holds the
    floor level plus its calibration offset. *)
Definition sweeping (q0 : QuickTune) (is_silent : Prop) (n : nat) (q : QuickTune)
  : Prop :=
  exists b j : Z,
    (Z.of_nat n = 450 * b + j)%Z /\ (0 <= j < 450)%Z /\ (0 <= b <= 10)%Z /\
    s_current_band q = b /\
    s_iteration q = s_iteration q0 /\
    s_last_error q = s_last_error q0 /\
    s_correction_gains q = s_correction_gains q0 /\
    s_cumulative_gains q = s_cumulative_gains q0 /\
    eq10 q = eq10 q0 /\
    length (s_measured_levels q) = length (s_measured_levels q0) /\
    ((b < 10)%Z ->
       s_state q = QUICKTUNE_STATE_MEASURING /\ s_sample_counter q = (32 * j)%Z) /\
    (b = 10%Z -> j = 0%Z /\ s_state q = QUICKTUNE_STATE_COMPUTING) /\
    (is_silent ->
       ((b < 10)%Z -> quiet (goertzel q)) /\
       forall b' : nat, (Z.of_nat b' < b)%Z ->
         (b' < length (s_measured_levels q))%nat ->
         load b' (s_measured_levels q) = -120 + load b' QUICKTUNE_MEMS_CALIBRATION).

Ltac conjs := repeat match goal with |- _ /\ _ => split end.

(** Replace the integer part in the goal by its value [r]. *)
Ltac bin r :=
  match goal with
  | |- context [Int_part ?x] =>
      replace (Int_part x) with r by (apply Int_part_spec; lra)
  end.

(* ========================================================================== *)
(** * eq10.cpp: the functions that call into CMSIS-DSP *)
(* ========================================================================== *)

Section CMSIS.

(** [arm_biquad_cascade_df1_init_f32(&instance, numStages, pCoeffs, pState)]:
    the coefficient array is read-only for it; [cascade_init] is what it
    leaves in the state array. *)
Variable cascade_init : Z -> list R -> list R -> list R.

(** [arm_biquad_cascade_df1_f32(&instance, pSrc, pDst, blockSize)]: from the
    coefficients, the state array and the input, the new state array and
    the output block. *)
Variable cascade_df1 : list R -> list R -> list R -> Z -> list R * list R.

Definition EQ10_SetCoefficients (coeffs : option (list R)) (e : EQ10)
  : bool * EQ10 :=
  match coeffs with
  | None => (false, e)
  | Some c =>
    if negb (s_eq10_initialized e) then (false, e)
    else
      let cs := memcpy (Z.to_nat EQ10_TOTAL_COEFFS) c in
      (true, mkEQ10 cs (cascade_init EQ10_NUM_BANDS cs (s_eq10_state e))
                    (s_eq10_initialized e))
  end.

(** [EQ10_ProcessBlock]: the engine and the [numSamples] floats of
    [output].  Uninitialised, the input is copied (or, in place, left). *)
Definition EQ10_ProcessBlock (input : list R) (numSamples : Z) (e : EQ10)
  : EQ10 * list R :=
  if negb (s_eq10_initialized e) then (e, memcpy (Z.to_nat numSamples) input)
  else
    let (st, out) := cascade_df1 (s_eq10_coeffs e) (s_eq10_state e) input numSamples in
    (mkEQ10 (s_eq10_coeffs e) st (s_eq10_initialized e), out).

(** quicktune_example.cpp, [Example8_RealTimeProcessing], for blocks of at
    most 32 samples (the size of its static buffers): the controller and
    the [numSamples] floats of [output]. *)
Definition Example8_RealTimeProcessing (input : list R) (numSamples : Z) (q : QuickTune)
  : QuickTune * list R :=
  let n := Z.to_nat numSamples in
  let micBuffer := memcpy n input in
  if QuickTuneState_eqb (QuickTune_GetState q) QUICKTUNE_STATE_MEASURING then
    let (q', speakerBuffer) := QuickTune_ProcessBlock micBuffer numSamples q in
    (q', memcpy n speakerBuffer)
  else
    let output := map (fun x => x * 1.0) (memcpy n input) in
    let (e', output) := EQ10_ProcessBlock output numSamples (eq10 q) in
    (with_eq10 e' q, map (fun x => x * 0.8) (memcpy n output)).

(** The audio loop of Example 8 over [n] blocks of 32 samples. *)
Fixpoint feed8 (input : nat -> list R) (n : nat) (q : QuickTune) : QuickTune :=
  match n with
  | O => q
  | S k =>
    fst (Example8_RealTimeProcessing (input k) QUICKTUNE_BLOCK_SIZE (feed8 input k q))
  end.

End CMSIS.

(* ========================================================================== *)
(** * quicktune_example.cpp: the audio callback of Example 1 *)
(* ========================================================================== *)

(** [Example1_AudioCallback], without its printing: the controller and the
    speaker block. *)
Definition Example1_AudioCallback (micInput : list R) (q : QuickTune)
  : QuickTune * list R :=
  let numSamples := 32%Z in
  let (q, speakerOutput) := QuickTune_ProcessBlock micInput numSamples q in
  let state := QuickTune_GetState q in
  if QuickTuneState_eqb state QUICKTUNE_STATE_DONE then
    (QuickTune_Stop q, speakerOutput)
  else (q, speakerOutput).

(** The callback over [n] blocks. *)
Fixpoint feed1 (mic : nat -> list R) (n : nat) (q : QuickTune) : QuickTune :=
  match n with
  | O => q
  | S k => fst (Example1_AudioCallback (mic k) (feed1 mic k q))
  end.

(* ========================================================================== *)
(** * Further notions for the proofs *)
(* ========================================================================== *)

(** The quantity [Goertzel_GetPower] takes the square root of, and the
    magnitude it compares with the threshold. *)
Definition goertzel_power (g : Goertzel) : R :=
  s_goertzel_s1 g * s_goertzel_s1 g + s_goertzel_s2 g * s_goertzel_s2 g
  - s_goertzel_coeff g * s_goertzel_s1 g * s_goertzel_s2 g.

Definition goertzel_magnitude (num_samples : Z) (g : Goertzel) : R :=
  sqrt (2 * goertzel_power g) / IZR num_samples.

(** The detector after a window of samples. *)
Definition Goertzel_run (samples : list R) (g : Goertzel) : Goertzel :=
  fold_left (fun g x => Goertzel_ProcessSample x g) samples g.

(** The designer's output for every band at the given gains and Q = 2. *)
Definition designed (gains : list R) : list R :=
  flat_map (fun band =>
              EQ10_DesignBiquad (load band QUICKTUNE_BAND_FREQUENCIES) (load band gains)
                                QUICKTUNE_EQ_Q (IZR QUICKTUNE_SAMPLE_RATE)) bands.

(** The arrays have their sizes, the equalizer is initialised. *)
Definition ready (q : QuickTune) : Prop :=
  length (s_correction_gains q) = 10%nat /\
  length (s_cumulative_gains q) = 10%nat /\
  length (s_eq10_coeffs (eq10 q)) = 50%nat /\
  s_eq10_initialized (eq10 q) = true.

(** The equalizer holds the design for the cumulative gains, which are in
    range. *)
Definition committed (q : QuickTune) : Prop :=
  (forall band, (band < 10)%nat -> -12 <= load band (s_cumulative_gains q) <= 12) /\
  s_eq10_coeffs (eq10 q) = designed (s_cumulative_gains q).

(** The controller is in one of the three states of an active run. *)
Definition active (q : QuickTune) : Prop :=
  s_state q = QUICKTUNE_STATE_MEASURING \/
  s_state q = QUICKTUNE_STATE_COMPUTING \/
  s_state q = QUICKTUNE_STATE_APPLYING.

(** The controller at the first block of a sweep on iteration [it]. *)
Definition sweep_start (it : Z) (q : QuickTune) : Prop :=
  s_state q = QUICKTUNE_STATE_MEASURING /\
  s_current_band q = 0%Z /\
  s_sample_counter q = 0%Z /\
  s_iteration q = it /\
  quiet (goertzel q).

(* ========================================================================== *)
(** * Arrays: lemmas *)
(* ========================================================================== *)

Lemma store_length (i : nat) (v : R) (a : list R) :
  length (store i v a) = length a.
Proof.
  revert i; induction a as [|x a IH]; intros [|i]; simpl; auto.
Qed.

Lemma load_store_same (i : nat) (v : R) (a : list R) :
  (i < length a)%nat -> load i (store i v a) = v.
Proof.
  unfold load. revert i; induction a as [|x a IH]; intros [|i] H; simpl in *;
    try lia; auto.
  apply IH; lia.
Qed.

Lemma load_store_other (i j : nat) (v : R) (a : list R) :
  i <> j -> load j (store i v a) = load j a.
Proof.
  unfold load. revert i j; induction a as [|x a IH]; intros [|i] [|j] H; simpl;
    try congruence; auto.
Qed.

Lemma store_at_length (vs : list R) (off : nat) (a : list R) :
  length (store_at off vs a) = length a.
Proof.
  revert off a; induction vs as [|v vs IH]; intros off a; simpl; auto.
  rewrite IH. apply store_length.
Qed.

Lemma load_zeros (i n : nat) : load i (zeros n) = 0.
Proof.
  unfold load, zeros. revert i; induction n as [|n IH]; intros [|i]; simpl; auto.
Qed.

Lemma memcpy_all (a : list R) : memcpy (length a) a = a.
Proof.
  unfold memcpy, load. induction a as [|x a IH]; simpl; auto.
  f_equal. rewrite <- seq_shift, map_map. exact IH.
Qed.

Lemma fold_left_ext_in {A B : Type} (f g : A -> B -> A) (l : list B) :
  (forall a b, In b l -> f a b = g a b) ->
  forall a, fold_left f l a = fold_left g l a.
Proof.
  induction l as [|b l IH]; intros H a; simpl; auto.
  rewrite H by (left; reflexivity). apply IH.
  intros a' b' Hb. apply H. right; exact Hb.
Qed.

(* ========================================================================== *)
(** * Clipping *)
(* ========================================================================== *)

Lemma clip_gain_inside (g : R) : -12 <= g <= 12 -> clip_gain g = g.
Proof.
  intros H. unfold clip_gain, QUICKTUNE_MAX_GAIN_DB, QUICKTUNE_MIN_GAIN_DB.
  destruct (Rgt_dec g 12); [lra|]. destruct (Rlt_dec g (-12)); lra.
Qed.

Lemma clip_gain_above (g : R) : 12 <= g -> clip_gain g = 12.
Proof.
  intros H. unfold clip_gain, QUICKTUNE_MAX_GAIN_DB, QUICKTUNE_MIN_GAIN_DB.
  destruct (Rgt_dec g 12); [|destruct (Rlt_dec g (-12)); lra].
  destruct (Rlt_dec 12 (-12)); lra.
Qed.

Lemma clip_gain_below (g : R) : g <= -12 -> clip_gain g = -12.
Proof.
  intros H. unfold clip_gain, QUICKTUNE_MAX_GAIN_DB, QUICKTUNE_MIN_GAIN_DB.
  destruct (Rgt_dec g 12); [lra|]. destruct (Rlt_dec g (-12)); lra.
Qed.

Lemma clip_gain_range (g : R) : -12 <= clip_gain g <= 12.
Proof.
  destruct (Rle_dec g (-12)) as [H|H].
  - rewrite clip_gain_below by exact H. lra.
  - destruct (Rle_dec 12 g) as [H'|H'].
    + rewrite clip_gain_above by exact H'. lra.
    + rewrite clip_gain_inside by lra. lra.
Qed.

Lemma clip_Q_inside (Q : R) : 0.1 <= Q <= 20 -> clip_Q Q = Q.
Proof.
  intros H. unfold clip_Q.
  destruct (Rlt_dec Q 0.1); [lra|]. destruct (Rgt_dec Q 20); lra.
Qed.

Lemma clip_Q_above (Q : R) : 20 <= Q -> clip_Q Q = 20.
Proof.
  intros H. unfold clip_Q.
  destruct (Rlt_dec Q 0.1); [lra|]. destruct (Rgt_dec Q 20); lra.
Qed.

Lemma clip_Q_range (Q : R) : 0.1 <= clip_Q Q <= 20.
Proof.
  unfold clip_Q. destruct (Rlt_dec Q 0.1).
  - destruct (Rgt_dec 0.1 20); lra.
  - destruct (Rgt_dec Q 20); lra.
Qed.

(** The two clips of the setters are the specification's [clamp]. *)
Lemma clip_gain_clamp (g : R) : clip_gain g = clamp g (-12) 12.
Proof.
  unfold clamp, Rmax, Rmin.
  destruct (Rle_dec g 12) as [H|H].
  - destruct (Rle_dec (-12) g) as [H'|H'].
    + apply clip_gain_inside. lra.
    + apply clip_gain_below. lra.
  - destruct (Rle_dec (-12) 12) as [_|H']; [|lra].
    apply clip_gain_above. lra.
Qed.

Lemma clip_Q_below (Q : R) : Q <= 0.1 -> clip_Q Q = 0.1.
Proof.
  intros H. unfold clip_Q.
  destruct (Rlt_dec Q 0.1).
  - destruct (Rgt_dec 0.1 20); lra.
  - destruct (Rgt_dec Q 20); lra.
Qed.

Lemma clip_Q_clamp (Q : R) : clip_Q Q = clamp Q 0.1 20.
Proof.
  unfold clamp, Rmax, Rmin.
  destruct (Rle_dec Q 20) as [H|H].
  - destruct (Rle_dec 0.1 Q) as [H'|H'].
    + apply clip_Q_inside. lra.
    + apply clip_Q_below. lra.
  - destruct (Rle_dec 0.1 20) as [_|H']; [|lra].
    apply clip_Q_above. lra.
Qed.

(* ========================================================================== *)
(** * The equalizer: the coefficient array after a design loop *)
(* ========================================================================== *)

Lemma store_app_r (pre rest : list R) (i : nat) (v : R) :
  store (length pre + i) v (pre ++ rest) = pre ++ store i v rest.
Proof.
  induction pre as [|x pre IH]; simpl; [reflexivity|].
  rewrite IH. reflexivity.
Qed.

Lemma store_at_app_r (vs pre rest : list R) (off : nat) :
  store_at (length pre + off) vs (pre ++ rest) = pre ++ store_at off vs rest.
Proof.
  revert off rest; induction vs as [|v vs IH]; intros off rest; simpl; auto.
  rewrite store_app_r. rewrite <- Nat.add_succ_r. apply IH.
Qed.

Lemma store_at_front (vs rest : list R) :
  (length vs <= length rest)%nat ->
  store_at 0 vs rest = vs ++ skipn (length vs) rest.
Proof.
  revert rest; induction vs as [|v vs IH]; intros rest H; simpl; auto.
  destruct rest as [|r rest]; simpl in *; [lia|].
  change (store_at 1 vs (v :: rest))
    with (store_at (length [v] + 0) vs ([v] ++ rest)).
  rewrite store_at_app_r. simpl. rewrite IH by lia. reflexivity.
Qed.

Lemma load_store_at_other (vs : list R) :
  forall (off : nat) (a : list R) (j : nat),
  (j < off \/ off + length vs <= j)%nat ->
  load j (store_at off vs a) = load j a.
Proof.
  induction vs as [|v vs IH]; intros off a j Hj; cbn [store_at]; [reflexivity|].
  cbn [length] in Hj. rewrite IH by lia. apply load_store_other. lia.
Qed.

Lemma load_store_at_in (vs a : list R) (off k : nat) :
  (off + length vs <= length a)%nat -> (k < length vs)%nat ->
  load (off + k) (store_at off vs a) = load k vs.
Proof.
  intros Hlen Hk.
  rewrite <- (firstn_skipn off a) at 1.
  assert (Hpre : length (firstn off a) = off) by (rewrite length_firstn; lia).
  rewrite <- (Nat.add_0_r off) at 2. rewrite <- Hpre at 2.
  rewrite store_at_app_r, store_at_front by (rewrite length_skipn; lia).
  unfold load. rewrite app_nth2 by lia. rewrite Hpre.
  replace (off + k - off)%nat with k by lia. apply app_nth1. exact Hk.
Qed.

Lemma flat_map_length_const (F : nat -> list R) (m : nat) (l : list nat) :
  (forall b, length (F b) = m) -> length (flat_map F l) = (m * length l)%nat.
Proof.
  intros HF. induction l as [|b l IH]; simpl; [lia|].
  rewrite length_app, HF, IH. lia.
Qed.

(** A loop that rewrites block [band] of the array for [band = 0 .. n-1]
    leaves the concatenation of the blocks, followed by the untouched rest. *)
Lemma design_loop (F : nat -> list R) (m n : nat) (a : list R) :
  (forall b, length (F b) = m) ->
  (m * n <= length a)%nat ->
  fold_left (fun cs band => store_at (band * m) (F band) cs) (seq 0 n) a
  = flat_map F (seq 0 n) ++ skipn (m * n) a.
Proof.
  intros HF. induction n as [|n IH]; intros Hlen.
  - simpl. rewrite Nat.mul_0_r. reflexivity.
  - rewrite seq_S, fold_left_app, flat_map_app. simpl.
    rewrite IH by lia. rewrite app_nil_r.
    assert (Hpre : length (flat_map F (seq 0 n)) = (n * m)%nat).
    { rewrite (flat_map_length_const F m) by exact HF. rewrite length_seq. lia. }
    rewrite <- (Nat.add_0_r (n * m)), <- Hpre.
    rewrite store_at_app_r, store_at_front.
    + rewrite HF, skipn_skipn, <- app_assoc. do 3 f_equal. lia.
    + rewrite HF, length_skipn. nia.
Qed.

Lemma design_band_length (g Q : R) (band : nat) (cs : list R) :
  length (design_band g Q band cs) = length cs.
Proof. apply store_at_length. Qed.

(** The coefficient array after the loop of [EQ10_SetAllGains] (and of
    [EQ10_Init]): band after band, the designer's output. *)
Lemma design_all (g : nat -> R) (Q : R) (cs : list R) :
  length cs = Z.to_nat EQ10_TOTAL_COEFFS ->
  fold_left (fun cs band => design_band (g band) Q band cs) bands cs
  = flat_map (fun band =>
                EQ10_DesignBiquad (load band QUICKTUNE_BAND_FREQUENCIES) (g band) Q
                                  (IZR QUICKTUNE_SAMPLE_RATE)) bands.
Proof.
  intros Hlen. unfold bands, design_band.
  change (Z.to_nat EQ10_COEFFS_PER_BAND) with 5%nat.
  change (Z.to_nat EQ10_NUM_BANDS) with 10%nat.
  change (Z.to_nat EQ10_TOTAL_COEFFS) with 50%nat in Hlen.
  rewrite (design_loop
             (fun band => EQ10_DesignBiquad (load band QUICKTUNE_BAND_FREQUENCIES)
                                            (g band) Q (IZR QUICKTUNE_SAMPLE_RATE))
             5 10 cs).
  - rewrite skipn_all2 by lia. apply app_nil_r.
  - reflexivity.
  - lia.
Qed.

Lemma design_fold_length (g : nat -> R) (Q : R) (l : list nat) (cs : list R) :
  length (fold_left (fun cs band => design_band (g band) Q band cs) l cs) = length cs.
Proof.
  revert cs; induction l as [|b l IH]; intros cs; simpl; auto.
  rewrite IH. apply design_band_length.
Qed.

Lemma EQ10_Init_state (e : EQ10) :
  s_eq10_initialized (EQ10_Init e) = true /\
  length (s_eq10_coeffs (EQ10_Init e)) = length (s_eq10_coeffs e).
Proof.
  split; [reflexivity|]. unfold EQ10_Init. cbn [s_eq10_coeffs].
  apply (design_fold_length (fun _ => 0)).
Qed.

Lemma QuickTune_Init_sized (q : QuickTune) :
  length (s_eq10_coeffs (eq10 q)) = Z.to_nat EQ10_TOTAL_COEFFS ->
  sized (QuickTune_Init q) /\ s_eq10_initialized (eq10 (QuickTune_Init q)) = true.
Proof.
  intros H. unfold sized. cbn [QuickTune_Init s_measured_levels s_correction_gains
                               s_cumulative_gains eq10].
  destruct (EQ10_Init_state (eq10 q)) as [Hi Hl].
  unfold zeros. rewrite !repeat_length, Hl. auto.
Qed.

(** The band frequencies lie strictly between 0 and a quarter of the sample
    rate, so the angular frequency is in the first quadrant. *)
Lemma band_angle (band : nat) :
  (band < 10)%nat ->
  let w0 := 2 * PI * load band QUICKTUNE_BAND_FREQUENCIES / IZR QUICKTUNE_SAMPLE_RATE in
  0 < w0 < PI / 2.
Proof.
  intros H w0. subst w0. pose proof PI_RGT_0 as Hpi.
  unfold QUICKTUNE_SAMPLE_RATE.
  do 10 (destruct band as [|band]; [unfold load; simpl; lra|]). lia.
Qed.

(** At a band frequency and a positive [Q] the bandwidth parameter is
    positive, so the normalising denominator [a0] at 0 dB is not zero. *)
Lemma band_alpha_pos (band : nat) (Q : R) :
  (band < 10)%nat -> 0 < Q ->
  0 < sin (2 * PI * load band QUICKTUNE_BAND_FREQUENCIES / IZR QUICKTUNE_SAMPLE_RATE)
      / (2 * Q).
Proof.
  intros Hb HQ. pose proof (band_angle band Hb) as Hw. cbv zeta in Hw.
  apply Rdiv_lt_0_compat; [|lra].
  apply sin_gt_0; lra.
Qed.

(* ========================================================================== *)
(** * Claims about the filter designer and the equalizer *)
(* ========================================================================== *)

(** C4 (as amended).  With a gain of 0 dB the designer returns
    [[1; c1; c2; c1; c2]] with [c1 = -2 cos w0 / (1 + alpha)] and
    [c2 = (1 - alpha) / (1 + alpha)]: the leading coefficient is 1 and the
    numerator equals the denominator, for every centre frequency, quality
    factor and sample rate whose denominator [1 + alpha] is not zero. *)
Theorem EQ10_DesignBiquad_zero_gain (fc Q fs : R) :
  let w0 := 2 * PI * fc / fs in
  let alpha := sin w0 / (2 * Q) in
  1 + alpha <> 0 ->
  EQ10_DesignBiquad fc 0 Q fs =
    [1; -2 * cos w0 / (1 + alpha); (1 - alpha) / (1 + alpha);
        -2 * cos w0 / (1 + alpha); (1 - alpha) / (1 + alpha)].
Proof.
  intros w0 alpha Ha. unfold EQ10_DesignBiquad. fold w0. fold alpha.
  replace (0 / 40) with 0 by lra. rewrite Rpower_O by lra.
  replace (alpha * 1) with alpha by lra.
  replace (alpha / 1) with alpha by lra.
  f_equal. field. exact Ha.
Qed.

Lemma EQ10_DesignBiquad_zero_gain_witness :
  EQ10_DesignBiquad 1000 0 2 48000 =
    [1; -2 * cos (2 * PI * 1000 / 48000) / (1 + sin (2 * PI * 1000 / 48000) / (2 * 2));
        (1 - sin (2 * PI * 1000 / 48000) / (2 * 2))
          / (1 + sin (2 * PI * 1000 / 48000) / (2 * 2));
        -2 * cos (2 * PI * 1000 / 48000) / (1 + sin (2 * PI * 1000 / 48000) / (2 * 2));
        (1 - sin (2 * PI * 1000 / 48000) / (2 * 2))
          / (1 + sin (2 * PI * 1000 / 48000) / (2 * 2))].
Proof.
  apply (EQ10_DesignBiquad_zero_gain 1000 2 48000).
  pose proof (band_alpha_pos 8 2 ltac:(lia) ltac:(lra)) as H.
  unfold load, QUICKTUNE_SAMPLE_RATE in H; simpl in H. lra.
Defined.

(** C4 (as stated) fails: at 1 kHz, Q = 2 and 48 kHz the 0 dB design is not
    [[1; 0; 0; 0; 0]]; its second coefficient is negative. *)
Lemma EQ10_DesignBiquad_zero_gain_not_identity :
  EQ10_DesignBiquad 1000 0 2 48000 <> spec_identity.
Proof.
  unfold EQ10_DesignBiquad, spec_identity. intros H.
  injection H as _ H1 _ _ _.
  pose proof (band_angle 8 ltac:(lia)) as Hw.
  pose proof (band_alpha_pos 8 2 ltac:(lia) ltac:(lra)) as Hal.
  unfold load, QUICKTUNE_SAMPLE_RATE in Hw, Hal; simpl in Hw, Hal.
  replace (0 / 40) with 0 in H1 by lra. rewrite Rpower_O in H1 by lra.
  set (w0 := 2 * PI * 1000 / 48000) in *.
  assert (Hc : 0 < cos w0) by (apply cos_gt_0; lra).
  set (alpha := sin w0 / (2 * 2)) in *.
  assert (Hd : 0 < 1 + alpha / 1) by lra.
  assert (Hn : -2 * cos w0 / (1 + alpha / 1) < 0).
  { apply Ropp_lt_cancel. rewrite Ropp_0.
    replace (- (-2 * cos w0 / (1 + alpha / 1)))
      with (2 * cos w0 / (1 + alpha / 1)) by (field; lra).
    apply Rdiv_lt_0_compat; lra. }
  lra.
Qed.

(** The result of [EQ10_SetAllGains] depends on the request only through the
    clipped values. *)
Lemma EQ10_SetAllGains_clipped (g1 g2 : list R) (Q1 Q2 : R) (e : EQ10) :
  (forall band, clip_gain (load band g1) = clip_gain (load band g2)) ->
  clip_Q Q1 = clip_Q Q2 ->
  EQ10_SetAllGains (Some g1) Q1 e = EQ10_SetAllGains (Some g2) Q2 e.
Proof.
  intros Hg HQ. unfold EQ10_SetAllGains.
  destruct (negb (s_eq10_initialized e)); [reflexivity|].
  rewrite HQ. do 2 f_equal.
  apply fold_left_ext_in. intros cs band _. rewrite Hg. reflexivity.
Qed.

Lemma clip_gain_store (i band : nat) (v w : R) (gains : list R) :
  clip_gain v = clip_gain w ->
  clip_gain (load band (store i v gains)) = clip_gain (load band (store i w gains)).
Proof.
  intros H. destruct (Nat.eq_dec i band) as [->|Hne].
  - destruct (Nat.lt_ge_cases band (length gains)) as [Hlt|Hge].
    + rewrite !load_store_same by exact Hlt. exact H.
    + assert (Hs : forall x, store band x gains = gains).
      { clear -Hge. revert band Hge.
        induction gains as [|y gains IH]; intros [|band] Hge x; simpl in *;
          try lia; auto.
        rewrite IH by lia. reflexivity. }
      rewrite !Hs. reflexivity.
  - rewrite !load_store_other by exact Hne. reflexivity.
Qed.

Lemma valid_band_index (band : Z) :
  EQ10_IsValidBand band = true -> (Z.to_nat band < 10)%nat.
Proof.
  unfold EQ10_IsValidBand, EQ10_NUM_BANDS. intros H.
  apply andb_true_iff in H. destruct H as [H0 H1].
  apply Z.leb_le in H0. apply Z.ltb_lt in H1. lia.
Qed.

(** After a band has been redesigned its five coefficients are the
    designer's output. *)
Lemma band_coeffs_design (g Q : R) (band : nat) (cs : list R) :
  length cs = 50%nat -> (band < 10)%nat ->
  band_coeffs band (design_band g Q band cs)
    = EQ10_DesignBiquad (load band QUICKTUNE_BAND_FREQUENCIES) g Q
                        (IZR QUICKTUNE_SAMPLE_RATE).
Proof.
  intros Hlen Hb. unfold band_coeffs, design_band.
  change (Z.to_nat EQ10_COEFFS_PER_BAND) with 5%nat.
  set (vs := EQ10_DesignBiquad _ g Q _).
  assert (Hvs : length vs = 5%nat) by reflexivity.
  cbn [seq map].
  rewrite !load_store_at_in by (rewrite ?Hvs; lia).
  reflexivity.
Qed.

(** What [EQ10_SetBandGain] leaves in the band and [EQ10_SetAllGains] in the
    whole array, with the clips written as [clamp]. *)
Lemma EQ10_SetBandGain_written (e : EQ10) (band : Z) (g Q : R) :
  s_eq10_initialized e = true ->
  EQ10_IsValidBand band = true ->
  length (s_eq10_coeffs e) = 50%nat ->
  band_coeffs (Z.to_nat band) (s_eq10_coeffs (snd (EQ10_SetBandGain band g Q e)))
    = EQ10_DesignBiquad (load (Z.to_nat band) QUICKTUNE_BAND_FREQUENCIES)
                        (clamp g (-12) 12) (clamp Q 0.1 20)
                        (IZR QUICKTUNE_SAMPLE_RATE).
Proof.
  intros Hinit Hband Hlen. unfold EQ10_SetBandGain. rewrite Hinit, Hband.
  cbn [negb orb snd s_eq10_coeffs].
  rewrite band_coeffs_design by (try exact Hlen; apply valid_band_index; exact Hband).
  rewrite clip_gain_clamp, clip_Q_clamp. reflexivity.
Qed.

Lemma EQ10_SetAllGains_written (e : EQ10) (gains : list R) (Q : R) :
  s_eq10_initialized e = true ->
  length (s_eq10_coeffs e) = 50%nat ->
  s_eq10_coeffs (snd (EQ10_SetAllGains (Some gains) Q e))
    = flat_map (fun band =>
                  EQ10_DesignBiquad (load band QUICKTUNE_BAND_FREQUENCIES)
                                    (clamp (load band gains) (-12) 12) (clamp Q 0.1 20)
                                    (IZR QUICKTUNE_SAMPLE_RATE)) bands.
Proof.
  intros Hinit Hlen. unfold EQ10_SetAllGains. rewrite Hinit.
  cbn [negb snd s_eq10_coeffs].
  rewrite (design_all (fun band => clip_gain (load band gains))) by exact Hlen.
  rewrite clip_Q_clamp. apply flat_map_ext. intros band.
  rewrite clip_gain_clamp. reflexivity.
Qed.

Lemma clamp_values :
  clamp 50 (-12) 12 = 12 /\ clamp (-50) (-12) 12 = -12 /\
  clamp 50 0.1 20 = 20 /\ clamp 0.01 0.1 20 = 0.1.
Proof.
  rewrite <- !clip_gain_clamp, <- !clip_Q_clamp.
  rewrite clip_gain_above, clip_gain_below, clip_Q_above, clip_Q_below by lra.
  repeat split.
Qed.

Lemma load_repeat (v : R) (n band : nat) :
  (band < n)%nat -> load band (repeat v n) = v.
Proof.
  unfold load. revert band; induction n as [|n IH]; intros [|band] H; simpl;
    try lia; auto.
  apply IH. lia.
Qed.

Lemma flat_map_ext_in {A B : Type} (f g : A -> list B) (l : list A) :
  (forall a, In a l -> f a = g a) -> flat_map f l = flat_map g l.
Proof.
  induction l as [|a l IH]; intros H; cbn [flat_map]; [reflexivity|].
  rewrite H by (left; reflexivity). rewrite IH; [reflexivity|].
  intros b Hb. apply H. right. exact Hb.
Qed.

Lemma in_bands (band : nat) : In band bands -> (band < 10)%nat.
Proof. unfold bands. intros H. apply in_seq in H. change (Z.to_nat EQ10_NUM_BANDS) with 10%nat in H. lia. Qed.

(** C7.  On an initialised engine and for a valid band, a gain of 50 dB
    leaves exactly the engine (and so the coefficients) that a gain of 12 dB
    leaves, and a Q of 50 the engine that a Q of 20 leaves: in
    [EQ10_SetBandGain] for the band's gain and Q, in [EQ10_SetAllGains] for
    any entry of the gain array and for Q.  No gain or Q is rejected: both
    setters return [true].  What they write is the designer's output at the
    clamped request: [EQ10_SetBandGain] leaves in the band's five
    coefficients the design for [clamp(g, -12, 12)] and [clamp(Q, 0.1, 20)],
    which for 50 dB and Q = 50 is the design at 12 dB and Q = 20 and for
    -50 dB and Q = 0.01 the design at -12 dB and Q = 0.1;
    [EQ10_SetAllGains] leaves the whole array, band after band, with the
    same designs for the entries of the gain array.  The coefficient array
    is the static array of 50 floats. *)
Theorem EQ10_setters_clamp (e : EQ10) (band : Z) (g Q : R) (gains : list R) (i : nat) :
  s_eq10_initialized e = true ->
  EQ10_IsValidBand band = true ->
  length (s_eq10_coeffs e) = 50%nat ->
  let fs := IZR QUICKTUNE_SAMPLE_RATE in
  let fc := fun b : nat => load b QUICKTUNE_BAND_FREQUENCIES in
  let written_band :=
    fun g Q => band_coeffs (Z.to_nat band)
                 (s_eq10_coeffs (snd (EQ10_SetBandGain band g Q e))) in
  let written_all :=
    fun gains Q => s_eq10_coeffs (snd (EQ10_SetAllGains (Some gains) Q e)) in
  EQ10_SetBandGain band 50 Q e = EQ10_SetBandGain band 12 Q e /\
  EQ10_SetBandGain band g 50 e = EQ10_SetBandGain band g 20 e /\
  EQ10_SetAllGains (Some (store i 50 gains)) Q e
    = EQ10_SetAllGains (Some (store i 12 gains)) Q e /\
  EQ10_SetAllGains (Some gains) 50 e = EQ10_SetAllGains (Some gains) 20 e /\
  fst (EQ10_SetBandGain band g Q e) = true /\
  fst (EQ10_SetAllGains (Some gains) Q e) = true /\
  s_eq10_coeffs (snd (EQ10_SetBandGain band g Q e))
    = design_band (clip_gain g) (clip_Q Q) (Z.to_nat band) (s_eq10_coeffs e) /\
  -12 <= clip_gain g <= 12 /\
  0.1 <= clip_Q Q <= 20 /\
  clip_gain g = clamp g (-12) 12 /\
  clip_Q Q = clamp Q 0.1 20 /\
  written_band g Q
    = EQ10_DesignBiquad (fc (Z.to_nat band)) (clamp g (-12) 12) (clamp Q 0.1 20) fs /\
  written_band 50 50 = EQ10_DesignBiquad (fc (Z.to_nat band)) 12 20 fs /\
  written_band (-50) 0.01 = EQ10_DesignBiquad (fc (Z.to_nat band)) (-12) 0.1 fs /\
  written_all gains Q
    = flat_map (fun b => EQ10_DesignBiquad (fc b) (clamp (load b gains) (-12) 12)
                                           (clamp Q 0.1 20) fs) bands /\
  written_all (repeat 50 10) 50
    = flat_map (fun b => EQ10_DesignBiquad (fc b) 12 20 fs) bands /\
  written_all (repeat (-50) 10) 0.01
    = flat_map (fun b => EQ10_DesignBiquad (fc b) (-12) 0.1 fs) bands.
Proof.
  intros Hinit Hband Hlen fs fc written_band written_all.
  assert (Hg : clip_gain 50 = clip_gain 12)
    by (rewrite clip_gain_above, clip_gain_inside; lra).
  assert (HQ : clip_Q 50 = clip_Q 20)
    by (rewrite clip_Q_above, clip_Q_inside; lra).
  destruct clamp_values as (Hc1 & Hc2 & Hc3 & Hc4).
  conjs.
  - unfold EQ10_SetBandGain. rewrite Hinit, Hband, Hg. reflexivity.
  - unfold EQ10_SetBandGain. rewrite Hinit, Hband, HQ. reflexivity.
  - apply EQ10_SetAllGains_clipped; [|reflexivity].
    intros b. apply clip_gain_store. exact Hg.
  - apply EQ10_SetAllGains_clipped; [reflexivity|exact HQ].
  - unfold EQ10_SetBandGain. rewrite Hinit, Hband. reflexivity.
  - unfold EQ10_SetAllGains. rewrite Hinit. reflexivity.
  - unfold EQ10_SetBandGain. rewrite Hinit, Hband. reflexivity.
  - apply clip_gain_range.
  - apply clip_gain_range.
  - apply clip_Q_range.
  - apply clip_Q_range.
  - apply clip_gain_clamp.
  - apply clip_Q_clamp.
  - apply EQ10_SetBandGain_written; assumption.
  - unfold written_band. rewrite EQ10_SetBandGain_written by assumption.
    rewrite Hc1, Hc3. reflexivity.
  - unfold written_band. rewrite EQ10_SetBandGain_written by assumption.
    rewrite Hc2, Hc4. reflexivity.
  - apply EQ10_SetAllGains_written; assumption.
  - unfold written_all. rewrite EQ10_SetAllGains_written by assumption.
    apply flat_map_ext_in. intros b Hb. apply in_bands in Hb.
    rewrite load_repeat by exact Hb. rewrite Hc1, Hc3. reflexivity.
  - unfold written_all. rewrite EQ10_SetAllGains_written by assumption.
    apply flat_map_ext_in. intros b Hb. apply in_bands in Hb.
    rewrite load_repeat by exact Hb. rewrite Hc2, Hc4. reflexivity.
Qed.

Lemma EQ10_setters_clamp_witness :
  let e := EQ10_Init EQ10_boot in
  let fs := IZR QUICKTUNE_SAMPLE_RATE in
  let fc := fun b : nat => load b QUICKTUNE_BAND_FREQUENCIES in
  let written_band :=
    fun g Q => band_coeffs (Z.to_nat 3)
                 (s_eq10_coeffs (snd (EQ10_SetBandGain 3 g Q e))) in
  let written_all :=
    fun gains Q => s_eq10_coeffs (snd (EQ10_SetAllGains (Some gains) Q e)) in
  EQ10_SetBandGain 3 50 2 e = EQ10_SetBandGain 3 12 2 e /\
  EQ10_SetBandGain 3 6 50 e = EQ10_SetBandGain 3 6 20 e /\
  EQ10_SetAllGains (Some (store 4 50 preset)) 2 e
    = EQ10_SetAllGains (Some (store 4 12 preset)) 2 e /\
  EQ10_SetAllGains (Some preset) 50 e = EQ10_SetAllGains (Some preset) 20 e /\
  fst (EQ10_SetBandGain 3 6 2 e) = true /\
  fst (EQ10_SetAllGains (Some preset) 2 e) = true /\
  s_eq10_coeffs (snd (EQ10_SetBandGain 3 6 2 e))
    = design_band (clip_gain 6) (clip_Q 2) (Z.to_nat 3) (s_eq10_coeffs e) /\
  -12 <= clip_gain 6 <= 12 /\
  0.1 <= clip_Q 2 <= 20 /\
  clip_gain 6 = clamp 6 (-12) 12 /\
  clip_Q 2 = clamp 2 0.1 20 /\
  written_band 6 2
    = EQ10_DesignBiquad (fc (Z.to_nat 3)) (clamp 6 (-12) 12) (clamp 2 0.1 20) fs /\
  written_band 50 50 = EQ10_DesignBiquad (fc (Z.to_nat 3)) 12 20 fs /\
  written_band (-50) 0.01 = EQ10_DesignBiquad (fc (Z.to_nat 3)) (-12) 0.1 fs /\
  written_all preset 2
    = flat_map (fun b => EQ10_DesignBiquad (fc b) (clamp (load b preset) (-12) 12)
                                           (clamp 2 0.1 20) fs) bands /\
  written_all (repeat 50 10) 50
    = flat_map (fun b => EQ10_DesignBiquad (fc b) 12 20 fs) bands /\
  written_all (repeat (-50) 10) 0.01
    = flat_map (fun b => EQ10_DesignBiquad (fc b) (-12) 0.1 fs) bands.
Proof.
  apply (EQ10_setters_clamp (EQ10_Init EQ10_boot) 3 6 2 preset 4).
  - reflexivity.
  - reflexivity.
  - destruct (EQ10_Init_state EQ10_boot) as [_ Hl]. rewrite Hl. reflexivity.
Defined.

(** C8.  On an initialised system, after [QuickTune_ApplyGains] with the
    preset [-2.5, -1.8, 0.5, 1.2, -0.3, -1.5, 0.8, 0.2, -0.5, 0.0],
    [EQ10_GetCoefficients] fills the caller's buffer with 50 values: band
    after band, the designer's output for the band frequency, the preset gain
    of the band, Q = 2.0 and 48 kHz. *)
Theorem QuickTune_ApplyGains_coefficients (q : QuickTune) (buffer : list R) :
  s_eq10_initialized (eq10 q) = true ->
  length (s_eq10_coeffs (eq10 q)) = Z.to_nat EQ10_TOTAL_COEFFS ->
  let expected :=
    flat_map (fun '(fc, gain_dB) => EQ10_DesignBiquad fc gain_dB 2 48000)
             (combine QUICKTUNE_BAND_FREQUENCIES preset) in
  EQ10_GetCoefficients (Some buffer) (eq10 (QuickTune_ApplyGains (Some preset) q))
    = Some expected
  /\ length expected = 50%nat.
Proof.
  intros Hinit Hlen expected.
  assert (Hexp : length expected = 50%nat) by reflexivity.
  split; [|exact Hexp].
  unfold QuickTune_ApplyGains, EQ10_GetCoefficients. cbn [eq10 with_last_error with_eq10].
  unfold EQ10_SetAllGains. cbn [eq10 with_cumulative_gains].
  rewrite Hinit. cbn [negb snd s_eq10_coeffs].
  rewrite design_all by exact Hlen.
  rewrite clip_Q_inside by (unfold QUICKTUNE_EQ_Q; lra).
  assert (Hcs : flat_map
                  (fun band =>
                     EQ10_DesignBiquad (load band QUICKTUNE_BAND_FREQUENCIES)
                       (clip_gain (load band preset)) QUICKTUNE_EQ_Q
                       (IZR QUICKTUNE_SAMPLE_RATE)) bands = expected).
  { unfold bands. change (Z.to_nat EQ10_NUM_BANDS) with 10%nat.
    cbn [seq flat_map]. unfold load at 2 4 6 8 10 12 14 16 18 20. unfold preset.
    cbn [nth].
    rewrite !clip_gain_inside by lra.
    reflexivity. }
  rewrite Hcs. change (Z.to_nat EQ10_TOTAL_COEFFS) with 50%nat.
  rewrite <- Hexp, memcpy_all. reflexivity.
Qed.

Lemma QuickTune_ApplyGains_coefficients_witness :
  let q := QuickTune_Init QuickTune_boot in
  let expected :=
    flat_map (fun '(fc, gain_dB) => EQ10_DesignBiquad fc gain_dB 2 48000)
             (combine QUICKTUNE_BAND_FREQUENCIES preset) in
  EQ10_GetCoefficients (Some (zeros 50)) (eq10 (QuickTune_ApplyGains (Some preset) q))
    = Some expected
  /\ length expected = 50%nat.
Proof.
  apply (QuickTune_ApplyGains_coefficients (QuickTune_Init QuickTune_boot) (zeros 50)).
  - reflexivity.
  - apply (QuickTune_Init_sized QuickTune_boot). reflexivity.
Defined.

(* ========================================================================== *)
(** * The controller: computing step *)
(* ========================================================================== *)

(** The loop of [ComputeCorrectionGains] after [n] bands: the two gain arrays
    hold the new values below [n] and the old ones from [n] on; nothing else
    has changed. *)
Lemma compute_loop (q : QuickTune) (n : nat) :
  (n <= length (s_correction_gains q))%nat ->
  (n <= length (s_cumulative_gains q))%nat ->
  exists corr cum,
    fold_left compute_band (seq 0 n) q
      = with_cumulative_gains cum (with_correction_gains corr q) /\
    length corr = length (s_correction_gains q) /\
    length cum = length (s_cumulative_gains q) /\
    forall j,
      load j corr = (if (j <? n)%nat then correction_of q j
                     else load j (s_correction_gains q)) /\
      load j cum = (if (j <? n)%nat then cumulative_of q j
                    else load j (s_cumulative_gains q)).
Proof.
  induction n as [|n IH]; intros Hc Hu.
  - exists (s_correction_gains q), (s_cumulative_gains q).
    destruct q; repeat split; reflexivity.
  - destruct IH as (corr & cum & Hfold & Hlc & Hlu & Hload); [lia|lia|].
    rewrite seq_S, fold_left_app, Hfold. cbn [fold_left Nat.add].
    exists (store n (correction_of q n) corr), (store n (cumulative_of q n) cum).
    split; [|split; [|split]].
    + unfold compute_band, cumulative_of, correction_of.
      cbn [with_cumulative_gains with_correction_gains s_measured_levels
           s_correction_gains s_cumulative_gains s_iteration s_state s_current_band
           s_sample_counter s_last_error tone goertzel s_goertzel_coeffs eq10].
      destruct (Hload n) as [_ Hn]. rewrite Nat.ltb_irrefl in Hn. rewrite Hn.
      destruct (s_iteration q =? 0)%Z; reflexivity.
    + rewrite store_length. exact Hlc.
    + rewrite store_length. exact Hlu.
    + intros j. destruct (Hload j) as [Hjc Hju].
      destruct (Nat.eq_dec n j) as [<-|Hne].
      * rewrite !load_store_same by lia.
        replace (n <? S n)%nat with true by (symmetry; apply Nat.ltb_lt; lia).
        split; reflexivity.
      * rewrite !load_store_other by exact Hne. rewrite Hjc, Hju.
        destruct (Nat.ltb_spec j n), (Nat.ltb_spec j (S n)); try lia; split; reflexivity.
Qed.

(** What [ComputeCorrectionGains] leaves in the gain arrays and in the
    control variables. *)
Lemma ComputeCorrectionGains_result (q : QuickTune) :
  length (s_correction_gains q) = 10%nat ->
  length (s_cumulative_gains q) = 10%nat ->
  exists corr cum,
    ComputeCorrectionGains q
      = with_state QUICKTUNE_STATE_APPLYING
          (with_cumulative_gains cum (with_correction_gains corr q)) /\
    length corr = 10%nat /\ length cum = 10%nat /\
    forall band, (band < 10)%nat ->
      load band corr = correction_of q band /\
      load band cum = cumulative_of q band.
Proof.
  intros Hc Hu.
  destruct (compute_loop q 10) as (corr & cum & Hfold & Hlc & Hlu & Hload); [lia|lia|].
  exists corr, cum. unfold ComputeCorrectionGains, bands.
  change (Z.to_nat EQ10_NUM_BANDS) with 10%nat. rewrite Hfold.
  repeat split; try congruence.
  - destruct (Hload band) as [Hb _]. rewrite Hb.
    replace (band <? 10)%nat with true by (symmetry; apply Nat.ltb_lt; lia). reflexivity.
  - destruct (Hload band) as [_ Hb]. rewrite Hb.
    replace (band <? 10)%nat with true by (symmetry; apply Nat.ltb_lt; lia). reflexivity.
Qed.

(** The computing step of [QuickTune_ProcessBlock], band by band. *)
Lemma computing_step (q : QuickTune) (micInput : list R) (numSamples : Z) :
  s_state q = QUICKTUNE_STATE_COMPUTING ->
  length (s_correction_gains q) = 10%nat ->
  length (s_cumulative_gains q) = 10%nat ->
  let q' := fst (QuickTune_ProcessBlock micInput numSamples q) in
  s_state q' = QUICKTUNE_STATE_APPLYING /\
  length (s_correction_gains q') = 10%nat /\
  length (s_cumulative_gains q') = 10%nat /\
  forall band, (band < 10)%nat ->
    load band (s_correction_gains q') = correction_of q band /\
    load band (s_cumulative_gains q') = cumulative_of q band.
Proof.
  intros Hst Hc Hu q'. subst q'.
  unfold QuickTune_ProcessBlock. rewrite Hst. cbn [fst].
  destruct (ComputeCorrectionGains_result q Hc Hu) as (corr & cum & -> & Hlc & Hlu & Hload).
  cbn [with_state with_cumulative_gains with_correction_gains
       s_correction_gains s_cumulative_gains s_state].
  auto.
Qed.


Lemma computing_state_fields (i : Z) (m c : list R) :
  s_state (computing_state i m c) = QUICKTUNE_STATE_COMPUTING /\
  s_iteration (computing_state i m c) = i /\
  s_measured_levels (computing_state i m c) = m /\
  s_cumulative_gains (computing_state i m c) = c /\
  length (s_correction_gains (computing_state i m c)) = 10%nat.
Proof. repeat split. Qed.




(** The premise matters.  When the two sweeps do not see one room, a flat
    measurement on iteration 0 followed by -20 dB on iteration 1, the code
    reaches [0 + clamp(20) * 0.7 = 8.4 dB], where the formula without the
    inner clamp gives [clamp(0 + 20 * 0.7) = 12 dB]. *)
Lemma ComputeCorrectionGains_inner_clamp :
  let q0 := computing_state 0 (zeros 10) (zeros 10) in
  let q1 := fst (QuickTune_ProcessBlock (zeros 32) 32 q0) in
  let q := computing_state 1 (repeat (-20) 10) (s_cumulative_gains q1) in
  let q' := fst (QuickTune_ProcessBlock (zeros 32) 32 q) in
  load 0 (s_cumulative_gains q1) = clip_gain (- 0) /\
  load 0 (s_cumulative_gains q') = 8.4 /\
  spec_refined_gain (clip_gain (- 0)) (-20) = 12 /\
  ~ fixed_deviation 0 (-20).
Proof.
  intros q0 q1 q q'.
  assert (H0 : clip_gain (- 0) = 0) by (rewrite clip_gain_inside; lra).
  assert (F1 : length (s_cumulative_gains q1) = 10%nat /\
               load 0 (s_cumulative_gains q1) = clip_gain (- 0)).
  { subst q1 q0.
    destruct (computing_state_fields 0 (zeros 10) (zeros 10))
      as (Hs & Hi & Hm & Hu & Hc).
    destruct (computing_step (computing_state 0 (zeros 10) (zeros 10)) (zeros 32) 32)
      as (_ & _ & Hlen & Hload); [exact Hs | exact Hc | rewrite Hu; reflexivity |].
    split; [exact Hlen|].
    destruct (Hload 0%nat ltac:(lia)) as [_ H1]. rewrite H1.
    unfold cumulative_of, correction_of. rewrite Hi, Hm. reflexivity. }
  clearbody q1. clear q0. destruct F1 as [Hlen H1].
  assert (F2 : load 0 (s_cumulative_gains q') = 8.4).
  { subst q' q.
    destruct (computing_state_fields 1 (repeat (-20) 10) (s_cumulative_gains q1))
      as (Hs & Hi & Hm & Hu & Hc).
    destruct (computing_step
                (computing_state 1 (repeat (-20) 10) (s_cumulative_gains q1))
                (zeros 32) 32)
      as (_ & _ & _ & Hload); [exact Hs | exact Hc | rewrite Hu; exact Hlen |].
    destruct (Hload 0%nat ltac:(lia)) as [_ H2]. rewrite H2.
    unfold cumulative_of, correction_of. rewrite Hi, Hm, Hu, H1, H0.
    cbn [Z.eqb]. change (load 0 (repeat (-20) 10)) with (-20).
    rewrite (clip_gain_above (- -20)) by lra.
    unfold QUICKTUNE_DAMPING_FACTOR. rewrite clip_gain_inside; lra. }
  clearbody q'. clear q.
  assert (H4 : spec_refined_gain (clip_gain (- 0)) (-20) = 12).
  { unfold spec_refined_gain, QUICKTUNE_DAMPING_FACTOR. rewrite H0.
    apply clip_gain_above. lra. }
  repeat split.
  - exact H1.
  - exact F2.
  - exact H4.
  - intros (t & Ht & Hd). rewrite H0 in Hd. lra.
Qed.

(* ========================================================================== *)
(** * The controller: start, stop and presets *)
(* ========================================================================== *)

(** C6.  [QuickTune_Start] returns [true] exactly in the state [IDLE].  From
    [IDLE] it leaves the state [MEASURING] with iteration, band index and
    sample counter 0 and the tone generator and detector set up for band 0
    (25 Hz); from any other state it returns [false], records the error code
    1 (invalid state) and changes nothing else. *)
Theorem QuickTune_Start_spec (q : QuickTune) :
  (fst (QuickTune_Start q) = true <-> s_state q = QUICKTUNE_STATE_IDLE) /\
  let q' := snd (QuickTune_Start q) in
  match s_state q with
  | QUICKTUNE_STATE_IDLE =>
      fst (QuickTune_Start q) = true /\
      s_state q' = QUICKTUNE_STATE_MEASURING /\
      s_iteration q' = 0%Z /\
      s_current_band q' = 0%Z /\
      s_sample_counter q' = 0%Z /\
      QuickTune_GetCurrentBand q' = 0%Z /\
      tone q' = ToneGenerator_Init 25 /\
      goertzel q' = Goertzel_Init 25 QUICKTUNE_TONE_ANALYSIS_SAMPLES
  | _ =>
      fst (QuickTune_Start q) = false /\
      QuickTune_GetLastError q' = 1%Z /\
      q' = with_last_error 1 q /\
      s_state q' = s_state q
  end.
Proof.
  unfold QuickTune_Start.
  destruct q as [st band ctr it err tg gz gcs ms cs us e].
  cbn [s_state]. destruct st; cbn [QuickTuneState_eqb negb fst snd];
    (split; [split; [intros H; try discriminate H; reflexivity
                    | intros H; try discriminate H; reflexivity]|]);
    repeat split.
Qed.

(** C9.  [QuickTune_Stop], from any state, leaves the state [IDLE] and band
    index, sample counter and iteration 0; the measured levels, the
    corrections and the cumulative gains are as before; both array getters
    return [NULL] afterwards. *)
Theorem QuickTune_Stop_spec (q : QuickTune) :
  let q' := QuickTune_Stop q in
  s_state q' = QUICKTUNE_STATE_IDLE /\
  s_current_band q' = 0%Z /\
  s_sample_counter q' = 0%Z /\
  s_iteration q' = 0%Z /\
  s_measured_levels q' = s_measured_levels q /\
  s_correction_gains q' = s_correction_gains q /\
  s_cumulative_gains q' = s_cumulative_gains q /\
  QuickTune_GetCorrectionGains q' = None /\
  QuickTune_GetMeasuredLevels q' = None.
Proof.
  destruct q. repeat split.
Qed.

(** C10.  [QuickTune_ApplyGains] with an array of 10 gains leaves the state
    of the state machine as it is, together with band index, sample counter,
    iteration and the measured levels; the cumulative gains are the given
    array, the equalizer is the one [EQ10_SetAllGains] leaves for these gains
    and Q = 2, the error code is 0.  [QuickTune_GetCorrectionGains] therefore
    still returns [NULL] unless the state was [DONE]: in particular from
    [IDLE], although the cumulative gains hold the preset. *)
Theorem QuickTune_ApplyGains_frame (q : QuickTune) (gains : list R) :
  length gains = 10%nat ->
  let q' := QuickTune_ApplyGains (Some gains) q in
  s_state q' = s_state q /\
  s_current_band q' = s_current_band q /\
  s_sample_counter q' = s_sample_counter q /\
  s_iteration q' = s_iteration q /\
  s_measured_levels q' = s_measured_levels q /\
  s_cumulative_gains q' = gains /\
  eq10 q' = snd (EQ10_SetAllGains (Some gains) QUICKTUNE_EQ_Q (eq10 q)) /\
  s_last_error q' = 0%Z /\
  QuickTune_GetCorrectionGains q' =
    match s_state q with
    | QUICKTUNE_STATE_DONE => Some gains
    | _ => None
    end.
Proof.
  intros Hlen q'. subst q'.
  assert (Hcopy : memcpy (Z.to_nat QUICKTUNE_NUM_BANDS) gains = gains).
  { change (Z.to_nat QUICKTUNE_NUM_BANDS) with 10%nat. rewrite <- Hlen.
    apply memcpy_all. }
  unfold QuickTune_ApplyGains, QuickTune_GetCorrectionGains.
  cbn [with_last_error with_eq10 with_cumulative_gains s_state s_current_band
       s_sample_counter s_iteration s_measured_levels s_cumulative_gains eq10
       s_last_error].
  rewrite Hcopy. destruct (s_state q); repeat split.
Qed.

Lemma QuickTune_ApplyGains_frame_witness :
  let q := QuickTune_Init QuickTune_boot in
  let q' := QuickTune_ApplyGains (Some preset) q in
  s_state q' = s_state q /\
  s_current_band q' = s_current_band q /\
  s_sample_counter q' = s_sample_counter q /\
  s_iteration q' = s_iteration q /\
  s_measured_levels q' = s_measured_levels q /\
  s_cumulative_gains q' = preset /\
  eq10 q' = snd (EQ10_SetAllGains (Some preset) QUICKTUNE_EQ_Q (eq10 q)) /\
  s_last_error q' = 0%Z /\
  QuickTune_GetCorrectionGains q' =
    match s_state q with
    | QUICKTUNE_STATE_DONE => Some preset
    | _ => None
    end.
Proof.
  apply (QuickTune_ApplyGains_frame (QuickTune_Init QuickTune_boot) preset).
  reflexivity.
Defined.

(* ========================================================================== *)
(** * The detector's bin index *)
(* ========================================================================== *)

Lemma round_4 : round (IZR 4800 * 40 / IZR QUICKTUNE_SAMPLE_RATE) = 4%Z.
Proof.
  unfold round, QUICKTUNE_SAMPLE_RATE. symmetry. apply Int_part_spec. lra.
Qed.

(** C2 fails on the code.  For the 40 Hz band and the 4800-sample window the
    specified bin is [round(4) = 4], but [Goertzel_Init] uses
    [k = 4 + 0.5] unrounded: its coefficient is [2 cos(2 pi 4.5 / 4800)],
    strictly below the specified [2 cos(2 pi 4 / 4800)].  This is the
    detector [StartBandMeasurement] sets up for band 1. *)
Theorem Goertzel_Init_bin_not_rounded :
  goertzel (StartBandMeasurement (with_current_band 1 QuickTune_boot))
    = Goertzel_Init 40 4800 /\
  s_goertzel_coeff (Goertzel_Init 40 4800) = 2 * cos (2 * PI * 4.5 / 4800) /\
  spec_goertzel_coeff 40 4800 = 2 * cos (2 * PI * 4 / 4800) /\
  s_goertzel_coeff (Goertzel_Init 40 4800) < spec_goertzel_coeff 40 4800.
Proof.
  split; [reflexivity|].
  pose proof PI_RGT_0 as Hpi.
  assert (Hcode : s_goertzel_coeff (Goertzel_Init 40 4800)
                  = 2 * cos (2 * PI * 4.5 / 4800)).
  { unfold Goertzel_Init, QUICKTUNE_SAMPLE_RATE. cbn [s_goertzel_coeff].
    do 2 f_equal. lra. }
  assert (Hspec : spec_goertzel_coeff 40 4800 = 2 * cos (2 * PI * 4 / 4800)).
  { unfold spec_goertzel_coeff. rewrite round_4. reflexivity. }
  repeat split; [exact Hcode | exact Hspec |].
  rewrite Hcode, Hspec.
  apply Rmult_lt_compat_l; [lra|].
  apply cos_decreasing_1; lra.
Qed.

(** The same holds for every band but the first: the code's bin is the
    specified one plus a fraction, and the coefficient is strictly smaller.
    At 25 Hz the two agree ([2.5 + 0.5 = 3 = round(2.5)]). *)
Lemma Goertzel_Init_bin_bands (band : nat) :
  (band < 10)%nat ->
  let f := load band QUICKTUNE_BAND_FREQUENCIES in
  let code := s_goertzel_coeff (Goertzel_Init f QUICKTUNE_TONE_ANALYSIS_SAMPLES) in
  let spec := spec_goertzel_coeff f QUICKTUNE_TONE_ANALYSIS_SAMPLES in
  if (band =? 0)%nat then code = spec else code < spec.
Proof.
  intros Hb f code spec. subst code spec f. pose proof PI_RGT_0 as Hpi.
  unfold Goertzel_Init, spec_goertzel_coeff, round,
    QUICKTUNE_TONE_ANALYSIS_SAMPLES, QUICKTUNE_SAMPLE_RATE, QUICKTUNE_BAND_FREQUENCIES,
    load.
  cbn [s_goertzel_coeff].
  destruct band as [|band]; [cbn [nth Nat.eqb]; bin 3%Z; do 2 f_equal; lra|].
  destruct band as [|band];
    [cbn [nth Nat.eqb]; bin 4%Z;
     apply Rmult_lt_compat_l; [lra|]; apply cos_decreasing_1; lra|].
  destruct band as [|band];
    [cbn [nth Nat.eqb]; bin 6%Z;
     apply Rmult_lt_compat_l; [lra|]; apply cos_decreasing_1; lra|].
  destruct band as [|band];
    [cbn [nth Nat.eqb]; bin 10%Z;
     apply Rmult_lt_compat_l; [lra|]; apply cos_decreasing_1; lra|].
  destruct band as [|band];
    [cbn [nth Nat.eqb]; bin 16%Z;
     apply Rmult_lt_compat_l; [lra|]; apply cos_decreasing_1; lra|].
  destruct band as [|band];
    [cbn [nth Nat.eqb]; bin 25%Z;
     apply Rmult_lt_compat_l; [lra|]; apply cos_decreasing_1; lra|].
  destruct band as [|band];
    [cbn [nth Nat.eqb]; bin 40%Z;
     apply Rmult_lt_compat_l; [lra|]; apply cos_decreasing_1; lra|].
  destruct band as [|band];
    [cbn [nth Nat.eqb]; bin 63%Z;
     apply Rmult_lt_compat_l; [lra|]; apply cos_decreasing_1; lra|].
  destruct band as [|band];
    [cbn [nth Nat.eqb]; bin 100%Z;
     apply Rmult_lt_compat_l; [lra|]; apply cos_decreasing_1; lra|].
  destruct band as [|band];
    [cbn [nth Nat.eqb]; bin 160%Z;
     apply Rmult_lt_compat_l; [lra|]; apply cos_decreasing_1; lra|].
  lia.
Qed.

(* ========================================================================== *)
(** * The controller: measuring *)
(* ========================================================================== *)

Lemma dsp_dsp (q : QuickTune) (c c' : Z) (t t' : ToneGenerator) (g g' : Goertzel) :
  dsp (dsp q c t g) c' t' g' = dsp q c' t' g'.
Proof. reflexivity. Qed.

Lemma dsp_self (q : QuickTune) : dsp q (s_sample_counter q) (tone q) (goertzel q) = q.
Proof. destruct q; reflexivity. Qed.

Lemma u32_small (z : Z) : (0 <= z < 2 ^ 32)%Z -> u32 z = z.
Proof. intros H. unfold u32. apply Z.mod_small. exact H. Qed.

Lemma Goertzel_ProcessSample_quiet (g : Goertzel) :
  quiet g -> quiet (Goertzel_ProcessSample 0 g).
Proof.
  intros [H1 H2]. unfold quiet, Goertzel_ProcessSample. cbn [s_goertzel_s1 s_goertzel_s2].
  rewrite H1, H2. split; lra.
Qed.

Lemma Goertzel_Init_quiet (f : R) (n : Z) : quiet (Goertzel_Init f n).
Proof. split; reflexivity. Qed.

(** An empty detector reports the floor level. *)
Lemma Goertzel_GetPower_quiet (g : Goertzel) :
  quiet g -> Goertzel_GetPower QUICKTUNE_TONE_ANALYSIS_SAMPLES g = -120.
Proof.
  intros [H1 H2]. unfold Goertzel_GetPower. rewrite H1, H2.
  replace (2 * (0 * 0 + 0 * 0 - s_goertzel_coeff g * 0 * 0)) with 0 by lra.
  rewrite sqrt_0. unfold QUICKTUNE_TONE_ANALYSIS_SAMPLES.
  destruct (Rgt_dec (0 / 4800) 1e-9) as [H|H]; [lra|reflexivity].
Qed.

(** One pass of the sample loop. *)
Lemma measure_sample_result (x : R) (q : QuickTune) :
  exists y t g,
    measure_sample x q = (y, dsp q (u32 (s_sample_counter q + 1)) t g) /\
    (x = 0 -> quiet (goertzel q) -> quiet g).
Proof.
  unfold measure_sample.
  destruct (ToneGenerator_GetSample (s_sample_counter q) (tone q)) as [y t].
  cbn [with_tone s_sample_counter goertzel].
  destruct ((QUICKTUNE_TONE_SETTLING_SAMPLES <=? s_sample_counter q)%Z
            && (s_sample_counter q <?
                QUICKTUNE_TONE_SETTLING_SAMPLES + QUICKTUNE_TONE_ANALYSIS_SAMPLES)%Z).
  - exists y, t, (Goertzel_ProcessSample x (goertzel q)). split; [reflexivity|].
    intros -> Hq. apply Goertzel_ProcessSample_quiet. exact Hq.
  - exists y, t, (goertzel q). split; [reflexivity|]. auto.
Qed.

(** The sample loop on a block that does not run past the end of the tone:
    the counter advances by the block length, and when it reaches the tone
    length the tone is finished. *)
Lemma measure_loop_result (left : nat) :
  forall (i : nat) (micInput : list R) (q : QuickTune),
  (0 <= s_sample_counter q)%Z ->
  (s_sample_counter q + Z.of_nat left <= QUICKTUNE_TONE_TOTAL_SAMPLES)%Z ->
  exists t g,
    fst (measure_loop left i micInput q)
      = (if (left =? 0)%nat
            || (s_sample_counter q + Z.of_nat left <? QUICKTUNE_TONE_TOTAL_SAMPLES)%Z
         then dsp q (s_sample_counter q + Z.of_nat left) t g
         else finish_tone (dsp q (s_sample_counter q + Z.of_nat left) t g)) /\
    ((forall j, load j micInput = 0) -> quiet (goertzel q) -> quiet g).
Proof.
  unfold QUICKTUNE_TONE_TOTAL_SAMPLES.
  induction left as [|left IH]; intros i micInput q H0 Hle.
  - exists (tone q), (goertzel q). cbn [measure_loop fst Nat.eqb orb Z.of_nat].
    rewrite Z.add_0_r, dsp_self. auto.
  - cbn [measure_loop].
    destruct (measure_sample_result (load i micInput) q) as (y & t1 & g1 & -> & Hq1).
    rewrite u32_small by lia.
    set (q1 := dsp q (s_sample_counter q + 1) t1 g1).
    assert (Hc1 : s_sample_counter q1 = (s_sample_counter q + 1)%Z) by reflexivity.
    rewrite Hc1. unfold QUICKTUNE_TONE_TOTAL_SAMPLES.
    rewrite Nat2Z.inj_succ in *.
    destruct (Z.leb_spec 14400 (s_sample_counter q + 1)) as [Hdone|Hmore].
    + exists t1, g1. cbn [fst Nat.eqb orb].
      assert (left = 0%nat) by lia. subst left. cbn [Z.of_nat Z.succ Z.add].
      replace (s_sample_counter q + Z.succ 0)%Z with (s_sample_counter q + 1)%Z by lia.
      replace (s_sample_counter q + 1 <? 14400)%Z with false
        by (symmetry; apply Z.ltb_ge; lia).
      split; [reflexivity|]. auto.
    + destruct (IH (S i) micInput q1) as (t & g & Hloop & Hq); [lia|lia|].
      exists t, g.
      destruct (measure_loop left (S i) micInput q1) as [q' out].
      cbn [fst] in *. rewrite Hloop, Hc1. subst q1. rewrite dsp_dsp.
      replace (s_sample_counter q + 1 + Z.of_nat left)%Z
        with (s_sample_counter q + Z.succ (Z.of_nat left))%Z by lia.
      cbn [Nat.eqb orb]. split.
      * destruct left as [|left].
        -- cbn [Nat.eqb orb Z.of_nat].
           replace (s_sample_counter q + Z.succ 0 <? 14400)%Z with true
             by (symmetry; apply Z.ltb_lt; lia).
           reflexivity.
        -- reflexivity.
      * intros Hmic Hq0. apply Hq; [exact Hmic|]. apply Hq1; [apply Hmic|exact Hq0].
Qed.

(** One 32-sample block in the measuring state, the counter a multiple of the
    block size below the tone length. *)
Lemma measuring_block (mic : list R) (q : QuickTune) :
  s_state q = QUICKTUNE_STATE_MEASURING ->
  (0 <= s_sample_counter q)%Z ->
  (s_sample_counter q + 32 <= QUICKTUNE_TONE_TOTAL_SAMPLES)%Z ->
  exists t g,
    fst (QuickTune_ProcessBlock mic QUICKTUNE_BLOCK_SIZE q)
      = (if (s_sample_counter q + 32 <? QUICKTUNE_TONE_TOTAL_SAMPLES)%Z
         then dsp q (s_sample_counter q + 32) t g
         else finish_tone (dsp q (s_sample_counter q + 32) t g)) /\
    ((forall j, load j mic = 0) -> quiet (goertzel q) -> quiet g).
Proof.
  intros Hst H0 Hle. unfold QuickTune_ProcessBlock. rewrite Hst.
  change (Z.to_nat QUICKTUNE_BLOCK_SIZE) with 32%nat.
  destruct (measure_loop_result 32 0 mic q H0 Hle) as (t & g & Hloop & Hq).
  exists t, g. split; [|exact Hq]. rewrite Hloop. reflexivity.
Qed.

(** The state machine after the last sample of a band. *)
Lemma finish_tone_result (q : QuickTune) (c : Z) (t : ToneGenerator) (g : Goertzel) :
  let level := Goertzel_GetPower QUICKTUNE_TONE_ANALYSIS_SAMPLES g
               + load (Z.to_nat (s_current_band q)) QUICKTUNE_MEMS_CALIBRATION in
  let levels := store (Z.to_nat (s_current_band q)) level (s_measured_levels q) in
  let q1 := with_current_band (s_current_band q + 1) (with_measured_levels levels q) in
  finish_tone (dsp q c t g)
  = if (QUICKTUNE_NUM_BANDS <=? s_current_band q + 1)%Z
    then with_state QUICKTUNE_STATE_COMPUTING (dsp q1 c t g)
    else
      let f := load (Z.to_nat (s_current_band q + 1)) QUICKTUNE_BAND_FREQUENCIES in
      dsp q1 0 (ToneGenerator_Init f) (Goertzel_Init f QUICKTUNE_TONE_ANALYSIS_SAMPLES).
Proof.
  intros level levels q1. subst q1 levels level.
  unfold finish_tone, StartBandMeasurement.
  cbn [dsp with_sample_counter with_goertzel with_tone with_current_band
       with_measured_levels s_current_band goertzel s_measured_levels].
  destruct (QUICKTUNE_NUM_BANDS <=? s_current_band q + 1)%Z; reflexivity.
Qed.

Lemma silent_block (mic : nat -> list R) (k : nat) :
  silent mic -> forall j, load j (mic k) = 0.
Proof. intros H j. rewrite H. apply load_zeros. Qed.

Lemma sweep (mic : nat -> list R) (q0 : QuickTune) :
  s_state q0 = QUICKTUNE_STATE_MEASURING ->
  s_current_band q0 = 0%Z ->
  s_sample_counter q0 = 0%Z ->
  (silent mic -> quiet (goertzel q0)) ->
  forall n, (Z.of_nat n <= 4500)%Z -> sweeping q0 (silent mic) n (feed mic n q0).
Proof.
  intros Hst Hband Hctr Hquiet. induction n as [|n IH]; intros Hn.
  - exists 0%Z, 0%Z. cbn [feed]. conjs; try lia; auto.
    intros Hs. split; [intros _; apply Hquiet, Hs|]. intros b' Hb'. lia.
  - destruct IH as (b & j & Hnb & Hj & Hb & Hcb & Hit & Herr & Hco & Hcu & Heq & Hlen
                    & Hmeas & _ & Hsil); [lia|].
    assert (Hb10 : (b < 10)%Z) by lia.
    destruct (Hmeas Hb10) as [Hs Hc].
    cbn [feed]. set (q := feed mic n q0) in *.
    destruct (measuring_block (mic n) q Hs) as (t & g & Hblock & Hq);
      [lia | unfold QUICKTUNE_TONE_TOTAL_SAMPLES; lia |].
    rewrite Hblock. unfold QUICKTUNE_TONE_TOTAL_SAMPLES.
    destruct (Z.ltb_spec (s_sample_counter q + 32) 14400) as [Hin|Hend].
    + (* inside the tone *)
      exists b, (j + 1)%Z.
      cbn [dsp with_sample_counter with_goertzel with_tone s_current_band s_iteration
           s_last_error s_correction_gains s_cumulative_gains eq10 s_measured_levels
           s_state s_sample_counter goertzel].
      conjs; try lia; try assumption.
      * intros _. cbn [s_state s_sample_counter]. split; [exact Hs|lia].
      * intros Hs'. destruct (Hsil Hs') as [Hqq Hold]. split.
        -- intros _. apply Hq; [apply silent_block; assumption|]. apply Hqq; assumption.
        -- intros b' Hb' Hl. apply Hold; assumption.
    + (* the last block of the band *)
      assert (Hj449 : j = 449%Z) by lia.
      rewrite finish_tone_result. rewrite Hcb. unfold QUICKTUNE_NUM_BANDS.
      assert (Hlevels : silent mic ->
                forall b' : nat, (Z.of_nat b' < b + 1)%Z ->
                  (b' < length (s_measured_levels q))%nat ->
                  load b' (store (Z.to_nat b)
                             (Goertzel_GetPower QUICKTUNE_TONE_ANALYSIS_SAMPLES g
                              + load (Z.to_nat b) QUICKTUNE_MEMS_CALIBRATION)
                             (s_measured_levels q))
                  = -120 + load b' QUICKTUNE_MEMS_CALIBRATION).
      { intros Hs' b' Hb' Hl. destruct (Hsil Hs') as [Hqq Hold].
        destruct (Nat.eq_dec (Z.to_nat b) b') as [<-|Hne].
        - rewrite load_store_same by exact Hl.
          rewrite Goertzel_GetPower_quiet; [reflexivity|].
          apply Hq; [apply silent_block; assumption|]. apply Hqq. exact Hb10.
        - rewrite load_store_other by exact Hne. apply Hold; [lia|exact Hl]. }
      destruct (Z.leb_spec 10 (b + 1)) as [Hlast|Hnext].
      * exists 10%Z, 0%Z.
        cbn [dsp with_state with_sample_counter with_goertzel with_tone
             with_current_band with_measured_levels s_current_band s_iteration
             s_last_error s_correction_gains s_cumulative_gains eq10 s_measured_levels
             s_state s_sample_counter goertzel].
        rewrite store_length.
        conjs; try lia; try assumption.
        -- intros _. split; reflexivity.
        -- intros Hs'. split; [lia|].
           intros b' Hb' Hl. apply Hlevels; [assumption|lia|exact Hl].
      * exists (b + 1)%Z, 0%Z. cbv zeta.
        cbn [dsp with_state with_sample_counter with_goertzel with_tone
             with_current_band with_measured_levels s_current_band s_iteration
             s_last_error s_correction_gains s_cumulative_gains eq10 s_measured_levels
             s_state s_sample_counter goertzel].
        rewrite store_length.
        conjs; try lia; try assumption.
        -- intros _. split; [exact Hs|reflexivity].
        -- intros Hs'. split; [intros _; apply Goertzel_Init_quiet|].
           intros b' Hb' Hl. apply Hlevels; assumption.
Qed.

(** The computing loop touches the two gain arrays only. *)
Lemma compute_frame (l : list nat) :
  forall q,
  let q' := fold_left compute_band l q in
  s_state q' = s_state q /\
  s_iteration q' = s_iteration q /\
  s_current_band q' = s_current_band q /\
  s_sample_counter q' = s_sample_counter q /\
  s_last_error q' = s_last_error q /\
  s_measured_levels q' = s_measured_levels q /\
  eq10 q' = eq10 q.
Proof.
  induction l as [|b l IH]; intros q; cbn [fold_left].
  - conjs; reflexivity.
  - destruct (IH (compute_band q b)) as (H1 & H2 & H3 & H4 & H5 & H6 & H7).
    cbv zeta. rewrite H1, H2, H3, H4, H5, H6, H7.
    unfold compute_band. cbn [with_correction_gains s_iteration].
    destruct (s_iteration q =? 0)%Z; conjs; reflexivity.
Qed.

Lemma ComputeCorrectionGains_frame (q : QuickTune) :
  let q' := ComputeCorrectionGains q in
  s_state q' = QUICKTUNE_STATE_APPLYING /\
  s_iteration q' = s_iteration q /\
  s_measured_levels q' = s_measured_levels q /\
  eq10 q' = eq10 q.
Proof.
  destruct (compute_frame bands q) as (_ & Hit & _ & _ & _ & Hm & He).
  unfold ComputeCorrectionGains. revert Hit Hm He.
  generalize (fold_left compute_band bands q). intros q1 Hit Hm He.
  cbv zeta. rewrite <- Hit, <- Hm, <- He. conjs; reflexivity.
Qed.

Lemma ApplyCorrectionGains_result (q : QuickTune) :
  let q' := ApplyCorrectionGains q in
  s_measured_levels q' = s_measured_levels q /\
  s_correction_gains q' = s_correction_gains q /\
  s_cumulative_gains q' = s_cumulative_gains q /\
  if (s_iteration q <? 2)%Z
  then s_state q' = QUICKTUNE_STATE_MEASURING /\
       s_current_band q' = 0%Z /\
       s_sample_counter q' = 0%Z /\
       s_iteration q' = (s_iteration q + 1)%Z /\
       quiet (goertzel q')
  else s_state q' = QUICKTUNE_STATE_DONE /\ s_iteration q' = s_iteration q.
Proof.
  unfold ApplyCorrectionGains.
  generalize (snd (EQ10_SetAllGains (Some (s_cumulative_gains q)) QUICKTUNE_EQ_Q (eq10 q))).
  intros e. cbn [QUICKTUNE_ENABLE_ITERATION andb with_eq10 s_iteration].
  change (QUICKTUNE_MAX_ITERATIONS - 1)%Z with 2%Z.
  destruct (s_iteration q <? 2)%Z.
  - conjs; try reflexivity. apply Goertzel_Init_quiet.
  - conjs; reflexivity.
Qed.

Lemma computing_block (mic : list R) (n : Z) (q : QuickTune) :
  s_state q = QUICKTUNE_STATE_COMPUTING ->
  fst (QuickTune_ProcessBlock mic n q) = ComputeCorrectionGains q.
Proof. intros H. unfold QuickTune_ProcessBlock. rewrite H. reflexivity. Qed.

Lemma applying_block (mic : list R) (n : Z) (q : QuickTune) :
  s_state q = QUICKTUNE_STATE_APPLYING ->
  fst (QuickTune_ProcessBlock mic n q) = ApplyCorrectionGains q.
Proof. intros H. unfold QuickTune_ProcessBlock. rewrite H. reflexivity. Qed.

(** The two blocks after a sweep: computing, then applying, which either
    opens the next sweep or ends the calibration. *)
Lemma after_sweep (m1 m2 : list R) (q : QuickTune) :
  s_state q = QUICKTUNE_STATE_COMPUTING ->
  let qa := fst (QuickTune_ProcessBlock m1 QUICKTUNE_BLOCK_SIZE q) in
  let qb := fst (QuickTune_ProcessBlock m2 QUICKTUNE_BLOCK_SIZE qa) in
  s_state qa = QUICKTUNE_STATE_APPLYING /\
  s_iteration qa = s_iteration q /\
  s_measured_levels qa = s_measured_levels q /\
  s_measured_levels qb = s_measured_levels q /\
  if (s_iteration q <? 2)%Z
  then s_state qb = QUICKTUNE_STATE_MEASURING /\
       s_current_band qb = 0%Z /\
       s_sample_counter qb = 0%Z /\
       s_iteration qb = (s_iteration q + 1)%Z /\
       quiet (goertzel qb)
  else s_state qb = QUICKTUNE_STATE_DONE /\ s_iteration qb = s_iteration q.
Proof.
  intros Hst. cbv zeta.
  rewrite (computing_block m1 _ q Hst).
  destruct (ComputeCorrectionGains_frame q) as (Hsa & Hia & Hma & _).
  rewrite (applying_block m2 _ _ Hsa).
  destruct (ApplyCorrectionGains_result (ComputeCorrectionGains q))
    as (Hmb & _ & _ & Hnext).
  rewrite Hia in Hnext. rewrite Hmb, Hma. auto.
Qed.

Lemma feed_add (mic : nat -> list R) (a b : nat) (q : QuickTune) :
  feed mic (a + b) q = feed (fun k => mic (a + k)%nat) b (feed mic a q).
Proof.
  induction b as [|b IH].
  - rewrite Nat.add_0_r. reflexivity.
  - rewrite Nat.add_succ_r. cbn [feed]. rewrite IH. reflexivity.
Qed.

Lemma feed_S (mic : nat -> list R) (n : nat) (q : QuickTune) :
  feed mic (S n) q = fst (QuickTune_ProcessBlock (mic n) QUICKTUNE_BLOCK_SIZE (feed mic n q)).
Proof. reflexivity. Qed.

(** One pass of the calibration: 4500 measuring blocks, one computing block,
    one applying block. *)
Lemma pass (mic : nat -> list R) (q0 : QuickTune) :
  s_state q0 = QUICKTUNE_STATE_MEASURING ->
  s_current_band q0 = 0%Z ->
  s_sample_counter q0 = 0%Z ->
  quiet (goertzel q0) ->
  (forall n, (Z.of_nat n < 4500)%Z ->
     s_state (feed mic n q0) = QUICKTUNE_STATE_MEASURING) /\
  (forall n, Z.of_nat n = 4500%Z ->
     s_state (feed mic n q0) = QUICKTUNE_STATE_COMPUTING /\
     s_state (feed mic (S n) q0) = QUICKTUNE_STATE_APPLYING /\
     let q2 := feed mic (S (S n)) q0 in
     if (s_iteration q0 <? 2)%Z
     then s_state q2 = QUICKTUNE_STATE_MEASURING /\
          s_current_band q2 = 0%Z /\
          s_sample_counter q2 = 0%Z /\
          s_iteration q2 = (s_iteration q0 + 1)%Z /\
          quiet (goertzel q2)
     else s_state q2 = QUICKTUNE_STATE_DONE).
Proof.
  intros Hst Hband Hctr Hquiet.
  pose proof (sweep mic q0 Hst Hband Hctr (fun _ => Hquiet)) as Hsweep.
  split.
  - intros n Hn.
    destruct (Hsweep n ltac:(lia))
      as (b & j & Hnb & Hj & Hb & _ & _ & _ & _ & _ & _ & _ & Hmeas & _).
    apply Hmeas. lia.
  - intros n Hn.
    destruct (Hsweep n ltac:(lia))
      as (b & j & Hnb & Hj & Hb & _ & Hit & _ & _ & _ & _ & _ & _ & Hcomp & _).
    assert (Hc : s_state (feed mic n q0) = QUICKTUNE_STATE_COMPUTING)
      by (apply Hcomp; lia).
    pose proof (after_sweep (mic n) (mic (S n)) _ Hc) as Hafter.
    cbv zeta in Hafter. rewrite Hit in Hafter. rewrite !feed_S.
    destruct Hafter as (Ha & _ & _ & _ & Hnext).
    conjs; [exact Hc | exact Ha |].
    cbv zeta. destruct (s_iteration q0 <? 2)%Z; [exact Hnext|apply Hnext].
Qed.

(** From the computing step of iteration 0 to that of iteration 1: one
    computing block, one applying block and the 4500 blocks of the second
    sweep.  The cumulative gains that the first computing step left are what
    the second one finds, whatever the microphone delivers. *)
Lemma second_computing_step (mic : nat -> list R) (q0 : QuickTune) (n : nat) :
  s_state q0 = QUICKTUNE_STATE_COMPUTING ->
  s_iteration q0 = 0%Z ->
  length (s_correction_gains q0) = 10%nat ->
  length (s_cumulative_gains q0) = 10%nat ->
  Z.of_nat n = 4500%Z ->
  let after0 := fst (QuickTune_ProcessBlock (mic 0%nat) QUICKTUNE_BLOCK_SIZE q0) in
  let q1 := feed mic (2 + n) q0 in
  s_state q1 = QUICKTUNE_STATE_COMPUTING /\
  s_iteration q1 = 1%Z /\
  length (s_correction_gains q1) = 10%nat /\
  s_cumulative_gains q1 = s_cumulative_gains after0.
Proof.
  intros Hst Hit Hc Hu Hn after0 q1.
  destruct (computing_step q0 (mic 0%nat) QUICKTUNE_BLOCK_SIZE Hst Hc Hu)
    as (Hsa & Hca & _ & _).
  fold after0 in Hsa, Hca.
  assert (Hia : s_iteration after0 = 0%Z).
  { subst after0. rewrite (computing_block _ _ q0 Hst).
    destruct (ComputeCorrectionGains_frame q0) as (_ & Hi & _). rewrite Hi. exact Hit. }
  subst q1. rewrite feed_add.
  assert (H2 : feed mic 2 q0 = ApplyCorrectionGains after0).
  { rewrite !feed_S. cbn [feed]. fold after0. apply applying_block. exact Hsa. }
  rewrite H2.
  destruct (ApplyCorrectionGains_result after0) as (_ & Hcb & Hub & Hnext).
  rewrite Hia in Hnext. cbn [Z.ltb Z.compare] in Hnext.
  destruct Hnext as (Hsb & Hbb & Hkb & Hib & Hqb).
  clearbody after0. revert Hcb Hub Hsb Hbb Hkb Hib Hqb.
  generalize (ApplyCorrectionGains after0). intros qb Hcb Hub Hsb Hbb Hkb Hib Hqb.
  destruct (sweep (fun k => mic (2 + k)%nat) qb Hsb Hbb Hkb (fun _ => Hqb) n ltac:(lia))
    as (b & j & Hnb & Hj & Hb & _ & Hi1 & _ & Hc1 & Hu1 & _ & _ & _ & Hcomp & _).
  assert (Hb10 : b = 10%Z) by lia.
  destruct (Hcomp Hb10) as [_ Hs1].
  conjs.
  - exact Hs1.
  - rewrite Hi1, Hib. reflexivity.
  - rewrite Hc1, Hcb. exact Hca.
  - rewrite Hu1. exact Hub.
Qed.

(** The controller right after a successful [QuickTune_Start]. *)
Lemma QuickTune_Start_idle (q : QuickTune) :
  s_state q = QUICKTUNE_STATE_IDLE ->
  let q1 := snd (QuickTune_Start q) in
  fst (QuickTune_Start q) = true /\
  s_state q1 = QUICKTUNE_STATE_MEASURING /\
  s_current_band q1 = 0%Z /\
  s_sample_counter q1 = 0%Z /\
  s_iteration q1 = 0%Z /\
  quiet (goertzel q1) /\
  s_measured_levels q1 = s_measured_levels q /\
  s_correction_gains q1 = s_correction_gains q /\
  s_cumulative_gains q1 = s_cumulative_gains q /\
  eq10 q1 = eq10 q.
Proof.
  intros Hst. unfold QuickTune_Start. rewrite Hst.
  cbn [QuickTuneState_eqb negb fst snd]. conjs; try reflexivity.
  apply Goertzel_Init_quiet.
Qed.

(** Three passes end the calibration. *)
Lemma full_run (mic : nat -> list R) (q1 : QuickTune) (m0 : nat) :
  s_state q1 = QUICKTUNE_STATE_MEASURING ->
  s_current_band q1 = 0%Z ->
  s_sample_counter q1 = 0%Z ->
  s_iteration q1 = 0%Z ->
  quiet (goertzel q1) ->
  Z.of_nat m0 = 4500%Z ->
  let m := S (S m0) in
  s_state (feed mic (m + (m + m)) q1) = QUICKTUNE_STATE_DONE.
Proof.
  intros Hst Hb Hc Hit Hq Hm0 m. subst m.
  destruct (pass mic q1 Hst Hb Hc Hq) as [_ H1].
  destruct (H1 m0 Hm0) as (_ & _ & H2). cbv zeta in H2. rewrite Hit in H2.
  cbn [Z.ltb Z.compare Pos.compare Pos.compare_cont] in H2.
  destruct H2 as (Hst2 & Hb2 & Hc2 & Hit2 & Hq2).
  rewrite feed_add.
  set (mic2 := fun k => mic (S (S m0) + k)%nat).
  set (q2 := feed mic (S (S m0)) q1) in *.
  destruct (pass mic2 q2 Hst2 Hb2 Hc2 Hq2) as [_ H3].
  assert (Hit2' : s_iteration q2 = 1%Z) by lia.
  destruct (H3 m0 Hm0) as (_ & _ & H4). cbv zeta in H4. rewrite Hit2' in H4.
  cbn [Z.ltb Z.compare Pos.compare Pos.compare_cont] in H4.
  destruct H4 as (Hst3 & Hb3 & Hc3 & Hit3 & Hq3).
  rewrite feed_add.
  set (mic3 := fun k => mic2 (S (S m0) + k)%nat).
  set (q3 := feed mic2 (S (S m0)) q2) in *.
  destruct (pass mic3 q3 Hst3 Hb3 Hc3 Hq3) as [_ H5].
  assert (Hit3' : s_iteration q3 = 2%Z) by lia.
  destruct (H5 m0 Hm0) as (_ & _ & H6). cbv zeta in H6. rewrite Hit3' in H6.
  cbn [Z.ltb Z.compare Pos.compare Pos.compare_cont] in H6.
  exact H6.
Qed.

(** C1.  After a successful [QuickTune_Start] from [IDLE], fed 32-sample
    blocks, the controller is [MEASURING] as long as fewer than
    10 x 14400 = 144000 samples have been processed; on the block that
    completes them it is [COMPUTING], one block later [APPLYING], and one
    block later [MEASURING] again, on iteration 1.  In general the applying
    block leads to [MEASURING] when iteration is enabled and the iteration
    number is below the last one, and to [DONE] otherwise; the third pass is
    the last, so that 3 x 4502 blocks after the start the state is [DONE]. *)
Theorem calibration_block_accounting (q : QuickTune) (mic : nat -> list R) :
  s_state q = QUICKTUNE_STATE_IDLE ->
  let q1 := snd (QuickTune_Start q) in
  fst (QuickTune_Start q) = true /\
  (forall n,
     (Z.of_nat n * QUICKTUNE_BLOCK_SIZE < 10 * QUICKTUNE_TONE_TOTAL_SAMPLES)%Z ->
     s_state (feed mic n q1) = QUICKTUNE_STATE_MEASURING) /\
  (forall n,
     (Z.of_nat n * QUICKTUNE_BLOCK_SIZE = 10 * QUICKTUNE_TONE_TOTAL_SAMPLES)%Z ->
     s_state (feed mic n q1) = QUICKTUNE_STATE_COMPUTING /\
     s_state (feed mic (S n) q1) = QUICKTUNE_STATE_APPLYING /\
     s_state (feed mic (S (S n)) q1) = QUICKTUNE_STATE_MEASURING /\
     s_iteration (feed mic (S (S n)) q1) = 1%Z) /\
  (forall (q' : QuickTune) (block : list R),
     s_state q' = QUICKTUNE_STATE_APPLYING ->
     s_state (fst (QuickTune_ProcessBlock block QUICKTUNE_BLOCK_SIZE q'))
     = if QUICKTUNE_ENABLE_ITERATION
          && (s_iteration q' <? QUICKTUNE_MAX_ITERATIONS - 1)%Z
       then QUICKTUNE_STATE_MEASURING else QUICKTUNE_STATE_DONE) /\
  (forall n, Z.of_nat n = (3 * 4502)%Z ->
     s_state (feed mic n q1) = QUICKTUNE_STATE_DONE).
Proof.
  intros Hidle q1.
  destruct (QuickTune_Start_idle q Hidle)
    as (Hok & Hst & Hb & Hc & Hit & Hq & _). fold q1 in Hst, Hb, Hc, Hit, Hq.
  clearbody q1.
  destruct (pass mic q1 Hst Hb Hc Hq) as [Hmeas Hend].
  unfold QUICKTUNE_BLOCK_SIZE, QUICKTUNE_TONE_TOTAL_SAMPLES.
  conjs.
  - exact Hok.
  - intros n Hn. apply Hmeas. lia.
  - intros n Hn. destruct (Hend n ltac:(lia)) as (H1 & H2 & H3).
    cbv zeta in H3. rewrite Hit in H3.
    cbn [Z.ltb Z.compare Pos.compare Pos.compare_cont] in H3.
    destruct H3 as (H3 & _ & _ & H4 & _). auto.
  - intros q' block Hq'. rewrite (applying_block block _ q' Hq').
    destruct (ApplyCorrectionGains_result q') as (_ & _ & _ & H).
    cbn [QUICKTUNE_ENABLE_ITERATION andb].
    change (QUICKTUNE_MAX_ITERATIONS - 1)%Z with 2%Z.
    destruct (s_iteration q' <? 2)%Z; apply H.
  - intros n Hn.
    set (m0 := Z.to_nat 4500). assert (Hm0 : Z.of_nat m0 = 4500%Z) by lia.
    clearbody m0.
    replace n with (S (S m0) + (S (S m0) + S (S m0)))%nat by lia.
    apply full_run; assumption.
Qed.

Lemma calibration_block_accounting_witness :
  let q := QuickTune_Init QuickTune_boot in
  let mic := fun _ : nat => zeros 32 in
  let q1 := snd (QuickTune_Start q) in
  fst (QuickTune_Start q) = true /\
  (forall n,
     (Z.of_nat n * QUICKTUNE_BLOCK_SIZE < 10 * QUICKTUNE_TONE_TOTAL_SAMPLES)%Z ->
     s_state (feed mic n q1) = QUICKTUNE_STATE_MEASURING) /\
  (forall n,
     (Z.of_nat n * QUICKTUNE_BLOCK_SIZE = 10 * QUICKTUNE_TONE_TOTAL_SAMPLES)%Z ->
     s_state (feed mic n q1) = QUICKTUNE_STATE_COMPUTING /\
     s_state (feed mic (S n) q1) = QUICKTUNE_STATE_APPLYING /\
     s_state (feed mic (S (S n)) q1) = QUICKTUNE_STATE_MEASURING /\
     s_iteration (feed mic (S (S n)) q1) = 1%Z) /\
  (forall (q' : QuickTune) (block : list R),
     s_state q' = QUICKTUNE_STATE_APPLYING ->
     s_state (fst (QuickTune_ProcessBlock block QUICKTUNE_BLOCK_SIZE q'))
     = if QUICKTUNE_ENABLE_ITERATION
          && (s_iteration q' <? QUICKTUNE_MAX_ITERATIONS - 1)%Z
       then QUICKTUNE_STATE_MEASURING else QUICKTUNE_STATE_DONE) /\
  (forall n, Z.of_nat n = (3 * 4502)%Z ->
     s_state (feed mic n q1) = QUICKTUNE_STATE_DONE).
Proof.
  apply (calibration_block_accounting (QuickTune_Init QuickTune_boot)
           (fun _ : nat => zeros 32)).
  reflexivity.
Defined.

(* ========================================================================== *)
(** * Calibration on a silent microphone *)
(* ========================================================================== *)

Lemma mems_calibration_range (band : nat) :
  0 <= load band QUICKTUNE_MEMS_CALIBRATION <= 3.
Proof.
  unfold load, QUICKTUNE_MEMS_CALIBRATION.
  do 10 (destruct band as [|band]; [cbn [nth]; lra|]).
  cbn [nth]. destruct band; lra.
Qed.

(** The floor level plus any calibration offset asks for the largest boost. *)
Lemma floor_correction (band : nat) :
  clip_gain (- (-120 + load band QUICKTUNE_MEMS_CALIBRATION)) = 12.
Proof.
  pose proof (mems_calibration_range band). apply clip_gain_above. lra.
Qed.

(** The first pass on a silent microphone, up to and including the computing
    block. *)
Lemma silent_pass (mic : nat -> list R) (q0 : QuickTune) (n : nat) :
  s_state q0 = QUICKTUNE_STATE_MEASURING ->
  s_current_band q0 = 0%Z ->
  s_sample_counter q0 = 0%Z ->
  s_iteration q0 = 0%Z ->
  quiet (goertzel q0) ->
  length (s_measured_levels q0) = 10%nat ->
  length (s_correction_gains q0) = 10%nat ->
  length (s_cumulative_gains q0) = 10%nat ->
  silent mic ->
  Z.of_nat n = 4500%Z ->
  let q' := feed mic (S n) q0 in
  length (s_measured_levels q') = 10%nat /\
  length (s_correction_gains q') = 10%nat /\
  length (s_cumulative_gains q') = 10%nat /\
  forall band, (band < 10)%nat ->
    load band (s_measured_levels q') = -120 + load band QUICKTUNE_MEMS_CALIBRATION /\
    load band (s_correction_gains q') = 12 /\
    load band (s_cumulative_gains q') = 12.
Proof.
  intros Hst Hb Hc Hit Hq Hlm Hlc Hlu Hsilent Hn q'. subst q'.
  destruct (sweep mic q0 Hst Hb Hc (fun _ => Hq) n ltac:(lia))
    as (b & j & Hnb & Hj & Hb10 & _ & Hitn & _ & Hco & Hcu & _ & Hlen & _ & Hcomp & Hsil).
  assert (b = 10%Z) by lia. subst b.
  destruct (Hcomp eq_refl) as [_ Hstate].
  destruct (Hsil Hsilent) as [_ Hlevels].
  rewrite feed_S. set (qn := feed mic n q0) in *. clearbody qn.
  assert (Hlcn : length (s_correction_gains qn) = 10%nat) by (rewrite Hco; exact Hlc).
  assert (Hlun : length (s_cumulative_gains qn) = 10%nat) by (rewrite Hcu; exact Hlu).
  destruct (computing_step qn (mic n) QUICKTUNE_BLOCK_SIZE Hstate Hlcn Hlun)
    as (_ & Hl1 & Hl2 & Hgains).
  rewrite (computing_block (mic n) _ qn Hstate) in *.
  destruct (ComputeCorrectionGains_frame qn) as (_ & _ & Hm & _).
  rewrite Hm. conjs; try assumption; try congruence.
  intros band Hband.
  assert (Hlevel : load band (s_measured_levels qn)
                   = -120 + load band QUICKTUNE_MEMS_CALIBRATION)
    by (apply Hlevels; lia).
  destruct (Hgains band Hband) as [Hg1 Hg2].
  rewrite Hg1, Hg2. unfold cumulative_of, correction_of.
  rewrite Hitn, Hit, Hlevel, floor_correction. cbn [Z.eqb]. auto.
Qed.

Lemma array10_ext (a b : list R) :
  length a = 10%nat -> length b = 10%nat ->
  (forall i, (i < 10)%nat -> load i a = load i b) -> a = b.
Proof.
  intros Ha Hb H. apply (nth_ext a b 0 0); [congruence|].
  intros i Hi. apply H. lia.
Qed.

(** C5 (as amended).  After a start from [IDLE] on a system whose arrays have
    their declared sizes, when every microphone block of the measuring phase
    is silent, the computing block leaves each band's measured level at the
    floor -120 dB plus the band's microphone calibration offset (-117 dB at
    25 Hz, -118.5 dB at 40 Hz, -120 dB for the other eight bands) and every
    band's correction gain, and cumulative gain, at +12 dB. *)
Theorem silent_calibration (q : QuickTune) (mic : nat -> list R) (n : nat) :
  s_state q = QUICKTUNE_STATE_IDLE ->
  sized q ->
  silent mic ->
  (Z.of_nat n * QUICKTUNE_BLOCK_SIZE = 10 * QUICKTUNE_TONE_TOTAL_SAMPLES)%Z ->
  let q' := feed mic (S n) (snd (QuickTune_Start q)) in
  s_state q' = QUICKTUNE_STATE_APPLYING /\
  s_measured_levels q' =
    [-117; -118.5; -120; -120; -120; -120; -120; -120; -120; -120] /\
  s_correction_gains q' = [12; 12; 12; 12; 12; 12; 12; 12; 12; 12] /\
  s_cumulative_gains q' = [12; 12; 12; 12; 12; 12; 12; 12; 12; 12].
Proof.
  intros Hidle (Hlm & Hlc & Hlu & _) Hsilent Hn q'.
  unfold QUICKTUNE_BLOCK_SIZE, QUICKTUNE_TONE_TOTAL_SAMPLES in Hn.
  change (Z.to_nat QUICKTUNE_NUM_BANDS) with 10%nat in *.
  destruct (QuickTune_Start_idle q Hidle)
    as (_ & Hst & Hb & Hc & Hit & Hq & Hm1 & Hc1 & Hu1 & _).
  rewrite <- Hm1 in Hlm. rewrite <- Hc1 in Hlc. rewrite <- Hu1 in Hlu.
  set (q1 := snd (QuickTune_Start q)) in *. clearbody q1.
  destruct (pass mic q1 Hst Hb Hc Hq) as [_ Hend].
  destruct (Hend n ltac:(lia)) as (_ & Happ & _).
  destruct (silent_pass mic q1 n Hst Hb Hc Hit Hq Hlm Hlc Hlu Hsilent ltac:(lia))
    as (Hl1 & Hl2 & Hl3 & Hload).
  fold q' in Happ, Hl1, Hl2, Hl3, Hload. clearbody q'.
  conjs.
  - exact Happ.
  - apply array10_ext; [exact Hl1|reflexivity|].
    intros i Hi. destruct (Hload i Hi) as (-> & _ & _).
    unfold QUICKTUNE_MEMS_CALIBRATION.
    do 10 (destruct i as [|i]; [unfold load; cbn [nth]; lra|]). lia.
  - apply array10_ext; [exact Hl2|reflexivity|].
    intros i Hi. destruct (Hload i Hi) as (_ & -> & _).
    do 10 (destruct i as [|i]; [reflexivity|]). lia.
  - apply array10_ext; [exact Hl3|reflexivity|].
    intros i Hi. destruct (Hload i Hi) as (_ & _ & ->).
    do 10 (destruct i as [|i]; [reflexivity|]). lia.
Qed.

Lemma silent_mic : silent (fun _ : nat => zeros 32).
Proof. intros k. reflexivity. Qed.

Lemma silent_calibration_witness :
  let q := QuickTune_Init QuickTune_boot in
  let mic := fun _ : nat => zeros 32 in
  let q' := feed mic (S (Z.to_nat 4500)) (snd (QuickTune_Start q)) in
  s_state q' = QUICKTUNE_STATE_APPLYING /\
  s_measured_levels q' =
    [-117; -118.5; -120; -120; -120; -120; -120; -120; -120; -120] /\
  s_correction_gains q' = [12; 12; 12; 12; 12; 12; 12; 12; 12; 12] /\
  s_cumulative_gains q' = [12; 12; 12; 12; 12; 12; 12; 12; 12; 12].
Proof.
  apply (silent_calibration (QuickTune_Init QuickTune_boot)
           (fun _ : nat => zeros 32) (Z.to_nat 4500)).
  - reflexivity.
  - apply (QuickTune_Init_sized QuickTune_boot). reflexivity.
  - exact silent_mic.
  - unfold QUICKTUNE_BLOCK_SIZE, QUICKTUNE_TONE_TOTAL_SAMPLES. lia.
Defined.

(** C5 (as stated) fails: after a silent calibration pass from the
    initialised system the measured level of band 0 is
    [-120 + 3 = -117 dB], not the floor. *)
Lemma silent_calibration_level_not_floor :
  let q := QuickTune_Init QuickTune_boot in
  let mic := fun _ : nat => zeros 32 in
  let q' := feed mic (S (Z.to_nat 4500)) (snd (QuickTune_Start q)) in
  load 0 (s_measured_levels q') = -117 /\
  load 0 (s_measured_levels q') <> -120.
Proof.
  intros q mic q'.
  assert (H : load 0 (s_measured_levels q') = -117).
  { subst q' mic q.
    destruct (QuickTune_Init_sized QuickTune_boot eq_refl) as [(Hlm & Hlc & Hlu & _) _].
    change (Z.to_nat QUICKTUNE_NUM_BANDS) with 10%nat in *.
    assert (Hidle : s_state (QuickTune_Init QuickTune_boot) = QUICKTUNE_STATE_IDLE)
      by reflexivity.
    revert Hlm Hlc Hlu Hidle. generalize (QuickTune_Init QuickTune_boot).
    intros q Hlm Hlc Hlu Hidle.
    destruct (QuickTune_Start_idle q Hidle)
      as (_ & Hst & Hb & Hc & Hit & Hq & Hm1 & Hc1 & Hu1 & _).
    rewrite <- Hm1 in Hlm. rewrite <- Hc1 in Hlc. rewrite <- Hu1 in Hlu.
    revert Hst Hb Hc Hit Hq Hlm Hlc Hlu. generalize (snd (QuickTune_Start q)).
    intros q1 Hst Hb Hc Hit Hq Hlm Hlc Hlu.
    destruct (silent_pass (fun _ : nat => zeros 32) q1 (Z.to_nat 4500)
                Hst Hb Hc Hit Hq Hlm Hlc Hlu silent_mic ltac:(lia))
      as (_ & _ & _ & Hload).
    destruct (Hload 0%nat ltac:(lia)) as (-> & _ & _).
    unfold load, QUICKTUNE_MEMS_CALIBRATION. cbn [nth]. lra. }
  split; [exact H|]. rewrite H. lra.
Qed.

(* ========================================================================== *)
(** * Further properties: the speaker block *)
(* ========================================================================== *)

Lemma zeros_length (n : nat) : length (zeros n) = n.
Proof. apply repeat_length. Qed.

Lemma measure_loop_length (left : nat) :
  forall i micInput q, length (snd (measure_loop left i micInput q)) = left.
Proof.
  induction left as [|left IH]; intros i micInput q; cbn [measure_loop].
  - reflexivity.
  - destruct (measure_sample (load i micInput) q) as [y q1].
    destruct (QUICKTUNE_TONE_TOTAL_SAMPLES <=? s_sample_counter q1)%Z.
    + cbn [snd length]. rewrite zeros_length. reflexivity.
    + specialize (IH (S i) micInput q1).
      destruct (measure_loop left (S i) micInput q1) as [q' out].
      cbn [snd length] in *. rewrite IH. reflexivity.
Qed.

(** X1.  [QuickTune_ProcessBlock] writes every one of the [numSamples]
    floats of the speaker buffer in every state; outside [MEASURING] they are
    all zero; in [IDLE], [DONE] and [ERROR] the controller is left as it is. *)
Theorem QuickTune_ProcessBlock_output (micInput : list R) (numSamples : Z) (q : QuickTune) :
  let r := QuickTune_ProcessBlock micInput numSamples q in
  length (snd r) = Z.to_nat numSamples /\
  match s_state q with
  | QUICKTUNE_STATE_MEASURING => True
  | QUICKTUNE_STATE_COMPUTING | QUICKTUNE_STATE_APPLYING =>
      snd r = zeros (Z.to_nat numSamples)
  | _ => snd r = zeros (Z.to_nat numSamples) /\ fst r = q
  end.
Proof.
  unfold QuickTune_ProcessBlock.
  destruct (s_state q); cbn [fst snd]; rewrite ?zeros_length, ?measure_loop_length; auto.
Qed.

(* ========================================================================== *)
(** * Further properties: the measuring loop on a block of any size *)
(* ========================================================================== *)

(** One pass of the sample loop with the oscillator exposed. *)
Lemma measure_sample_tone (x : R) (q : QuickTune) :
  exists g,
    measure_sample x q
    = (fst (ToneGenerator_GetSample (s_sample_counter q) (tone q)),
       dsp q (u32 (s_sample_counter q + 1))
           (snd (ToneGenerator_GetSample (s_sample_counter q) (tone q))) g) /\
    ((s_sample_counter q < QUICKTUNE_TONE_SETTLING_SAMPLES)%Z -> g = goertzel q).
Proof.
  unfold measure_sample.
  destruct (ToneGenerator_GetSample (s_sample_counter q) (tone q)) as [y t].
  cbn [with_tone s_sample_counter goertzel fst snd].
  destruct (Z.leb_spec QUICKTUNE_TONE_SETTLING_SAMPLES (s_sample_counter q)) as [H|H];
    cbn [andb].
  - destruct (s_sample_counter q <?
              QUICKTUNE_TONE_SETTLING_SAMPLES + QUICKTUNE_TONE_ANALYSIS_SAMPLES)%Z.
    + exists (Goertzel_ProcessSample x (goertzel q)). split; [reflexivity|]. lia.
    + exists (goertzel q). split; [reflexivity|]. auto.
  - exists (goertzel q). split; [reflexivity|]. auto.
Qed.

(** The sample loop entered at counter [c] below the tone length, for any
    number [left] of samples: either the counter advances by [left], or the
    tone ends inside the block, the band is finished and the samples after
    the end of the tone are zeros. *)
Lemma measure_loop_any (left : nat) :
  forall (i : nat) (micInput : list R) (q : QuickTune),
  (0 <= s_sample_counter q < QUICKTUNE_TONE_TOTAL_SAMPLES)%Z ->
  let c := s_sample_counter q in
  let r := measure_loop left i micInput q in
  exists t g,
    if (c + Z.of_nat left <? QUICKTUNE_TONE_TOTAL_SAMPLES)%Z
    then fst r = dsp q (c + Z.of_nat left) t g
    else fst r = finish_tone (dsp q QUICKTUNE_TONE_TOTAL_SAMPLES t g) /\
         skipn (Z.to_nat (QUICKTUNE_TONE_TOTAL_SAMPLES - c)) (snd r)
         = zeros (left - Z.to_nat (QUICKTUNE_TONE_TOTAL_SAMPLES - c)).
Proof.
  unfold QUICKTUNE_TONE_TOTAL_SAMPLES.
  induction left as [|left IH]; intros i micInput q Hc; cbv zeta.
  - exists (tone q), (goertzel q). cbn [measure_loop fst snd Z.of_nat].
    rewrite Z.add_0_r.
    replace (s_sample_counter q <? 14400)%Z with true by (symmetry; apply Z.ltb_lt; lia).
    rewrite dsp_self. reflexivity.
  - cbn [measure_loop].
    destruct (measure_sample_tone (load i micInput) q) as (g1 & -> & _).
    rewrite u32_small by lia.
    set (y := fst (ToneGenerator_GetSample (s_sample_counter q) (tone q))).
    set (t1 := snd (ToneGenerator_GetSample (s_sample_counter q) (tone q))).
    clearbody y t1.
    set (q1 := dsp q (s_sample_counter q + 1) t1 g1).
    assert (Hc1 : s_sample_counter q1 = (s_sample_counter q + 1)%Z) by reflexivity.
    rewrite Hc1. unfold QUICKTUNE_TONE_TOTAL_SAMPLES. rewrite Nat2Z.inj_succ.
    destruct (Z.leb_spec 14400 (s_sample_counter q + 1)) as [Hdone|Hmore].
    + (* the tone ends with this sample *)
      exists t1, g1. cbn [fst snd].
      replace (s_sample_counter q + Z.succ (Z.of_nat left) <? 14400)%Z with false
        by (symmetry; apply Z.ltb_ge; lia).
      assert (Hlast : (s_sample_counter q + 1 = 14400)%Z) by lia.
      subst q1. rewrite Hlast.
      replace (Z.to_nat (14400 - s_sample_counter q)) with 1%nat by lia.
      cbn [skipn]. rewrite Nat.sub_succ, Nat.sub_0_r.
      split; reflexivity.
    + (* more samples of the tone to come *)
      pose proof (IH (S i) micInput q1) as IH1. cbv zeta in IH1.
      destruct IH1 as (t & g & Hres); [rewrite Hc1; lia|].
      exists t, g.
      destruct (measure_loop left (S i) micInput q1) as [q' out].
      cbn [fst snd] in *. rewrite Hc1 in Hres.
      replace (s_sample_counter q + Z.succ (Z.of_nat left))%Z
        with (s_sample_counter q + 1 + Z.of_nat left)%Z by lia.
      destruct (s_sample_counter q + 1 + Z.of_nat left <? 14400)%Z.
      * rewrite Hres. subst q1. apply dsp_dsp.
      * destruct Hres as [Hq' Hz]. split; [rewrite Hq'; subst q1; rewrite dsp_dsp; reflexivity|].
        replace (Z.to_nat (14400 - s_sample_counter q))
          with (S (Z.to_nat (14400 - (s_sample_counter q + 1)))) by lia.
        cbn [skipn]. rewrite Nat.sub_succ. exact Hz.
Qed.

(** X3.  A measuring block of any size: while the tone does not end inside
    the block the counter advances by the block size and nothing else of the
    control state moves; when it does, the band index advances, the next band
    starts at counter 0 (or, after band 9, the state becomes [COMPUTING]),
    the samples of the block after the end of the tone are zeros (they are
    not carried into the next tone), and only the finished band's measured
    level is written. *)
Theorem measuring_block_any_size (micInput : list R) (numSamples : Z) (q : QuickTune) :
  s_state q = QUICKTUNE_STATE_MEASURING ->
  (0 <= s_sample_counter q < QUICKTUNE_TONE_TOTAL_SAMPLES)%Z ->
  (0 <= numSamples)%Z ->
  let c := s_sample_counter q in
  let r := QuickTune_ProcessBlock micInput numSamples q in
  if (c + numSamples <? QUICKTUNE_TONE_TOTAL_SAMPLES)%Z
  then s_state (fst r) = QUICKTUNE_STATE_MEASURING /\
       s_current_band (fst r) = s_current_band q /\
       s_sample_counter (fst r) = (c + numSamples)%Z /\
       s_measured_levels (fst r) = s_measured_levels q
  else s_current_band (fst r) = (s_current_band q + 1)%Z /\
       (if (QUICKTUNE_NUM_BANDS <=? s_current_band q + 1)%Z
        then s_state (fst r) = QUICKTUNE_STATE_COMPUTING
        else s_state (fst r) = QUICKTUNE_STATE_MEASURING /\
             s_sample_counter (fst r) = 0%Z) /\
       skipn (Z.to_nat (QUICKTUNE_TONE_TOTAL_SAMPLES - c)) (snd r)
       = zeros (Z.to_nat (c + numSamples - QUICKTUNE_TONE_TOTAL_SAMPLES)) /\
       (forall j, j <> Z.to_nat (s_current_band q) ->
          load j (s_measured_levels (fst r)) = load j (s_measured_levels q)).
Proof.
  intros Hst Hc Hn. cbv zeta. unfold QuickTune_ProcessBlock. rewrite Hst.
  pose proof (measure_loop_any (Z.to_nat numSamples) 0 micInput q Hc) as H.
  cbv zeta in H. destruct H as (t & g & Hres).
  rewrite Z2Nat.id in Hres by exact Hn.
  destruct (s_sample_counter q + numSamples <? QUICKTUNE_TONE_TOTAL_SAMPLES)%Z eqn:Hlt.
  - rewrite Hres. conjs; try reflexivity. exact Hst.
  - destruct Hres as [Hq Hz]. rewrite Hq, Hz, finish_tone_result.
    apply Z.ltb_ge in Hlt. unfold QUICKTUNE_TONE_TOTAL_SAMPLES in *.
    destruct (QUICKTUNE_NUM_BANDS <=? s_current_band q + 1)%Z.
    + conjs; try reflexivity; [f_equal; lia|].
      intros j Hj. cbn [with_state dsp with_sample_counter with_goertzel with_tone
                        with_current_band with_measured_levels s_measured_levels].
      apply load_store_other. congruence.
    + conjs; try reflexivity; [exact Hst|f_equal; lia|].
      intros j Hj. cbn [dsp with_sample_counter with_goertzel with_tone
                        with_current_band with_measured_levels s_measured_levels].
      apply load_store_other. congruence.
Qed.

Lemma measuring_block_any_size_witness :
  let q := snd (QuickTune_Start (QuickTune_Init QuickTune_boot)) in
  let micInput := zeros 1000 in
  let c := s_sample_counter q in
  let r := QuickTune_ProcessBlock micInput 1000 q in
  if (c + 1000 <? QUICKTUNE_TONE_TOTAL_SAMPLES)%Z
  then s_state (fst r) = QUICKTUNE_STATE_MEASURING /\
       s_current_band (fst r) = s_current_band q /\
       s_sample_counter (fst r) = (c + 1000)%Z /\
       s_measured_levels (fst r) = s_measured_levels q
  else s_current_band (fst r) = (s_current_band q + 1)%Z /\
       (if (QUICKTUNE_NUM_BANDS <=? s_current_band q + 1)%Z
        then s_state (fst r) = QUICKTUNE_STATE_COMPUTING
        else s_state (fst r) = QUICKTUNE_STATE_MEASURING /\
             s_sample_counter (fst r) = 0%Z) /\
       skipn (Z.to_nat (QUICKTUNE_TONE_TOTAL_SAMPLES - c)) (snd r)
       = zeros (Z.to_nat (c + 1000 - QUICKTUNE_TONE_TOTAL_SAMPLES)) /\
       (forall j, j <> Z.to_nat (s_current_band q) ->
          load j (s_measured_levels (fst r)) = load j (s_measured_levels q)).
Proof.
  apply (measuring_block_any_size (zeros 1000) 1000
           (snd (QuickTune_Start (QuickTune_Init QuickTune_boot)))).
  - reflexivity.
  - split; [apply Z.leb_le | apply Z.ltb_lt]; reflexivity.
  - lia.
Defined.

Lemma measure_loop_settling (left : nat) :
  forall (i : nat) (mic mic' : list R) (q : QuickTune),
  (0 <= s_sample_counter q)%Z ->
  (s_sample_counter q + Z.of_nat left <= QUICKTUNE_TONE_SETTLING_SAMPLES)%Z ->
  measure_loop left i mic q = measure_loop left i mic' q /\
  goertzel (fst (measure_loop left i mic q)) = goertzel q.
Proof.
  unfold QUICKTUNE_TONE_SETTLING_SAMPLES.
  induction left as [|left IH]; intros i mic mic' q H0 Hle.
  - split; reflexivity.
  - cbn [measure_loop]. rewrite Nat2Z.inj_succ in Hle.
    destruct (measure_sample_tone (load i mic) q) as (g & -> & Hg).
    destruct (measure_sample_tone (load i mic') q) as (g' & -> & Hg').
    unfold QUICKTUNE_TONE_SETTLING_SAMPLES in Hg, Hg'.
    rewrite Hg, Hg' by lia. rewrite u32_small by lia.
    set (y := fst (ToneGenerator_GetSample (s_sample_counter q) (tone q))).
    set (q1 := dsp q (s_sample_counter q + 1)
                   (snd (ToneGenerator_GetSample (s_sample_counter q) (tone q)))
                   (goertzel q)).
    assert (Hc1 : s_sample_counter q1 = (s_sample_counter q + 1)%Z) by reflexivity.
    assert (Hg1 : goertzel q1 = goertzel q) by reflexivity.
    clearbody y q1.
    rewrite Hc1. unfold QUICKTUNE_TONE_TOTAL_SAMPLES.
    replace (14400 <=? s_sample_counter q + 1)%Z with false
      by (symmetry; apply Z.leb_gt; lia).
    destruct (IH (S i) mic mic' q1) as [Heq Hgz]; [lia|lia|].
    rewrite <- Heq. destruct (measure_loop left (S i) mic q1) as [q' out].
    cbn [fst] in *. split; [reflexivity|]. congruence.
Qed.

(** X4.  During the settling period the microphone is ignored: a measuring
    block that ends within the first 9600 samples of the tone leaves the same
    controller and the same speaker block whatever the microphone buffer
    holds, and the detector is not touched. *)
Theorem settling_ignores_microphone
    (mic mic' : list R) (numSamples : Z) (q : QuickTune) :
  s_state q = QUICKTUNE_STATE_MEASURING ->
  (0 <= s_sample_counter q)%Z ->
  (0 <= numSamples)%Z ->
  (s_sample_counter q + numSamples <= QUICKTUNE_TONE_SETTLING_SAMPLES)%Z ->
  QuickTune_ProcessBlock mic numSamples q = QuickTune_ProcessBlock mic' numSamples q /\
  goertzel (fst (QuickTune_ProcessBlock mic numSamples q)) = goertzel q.
Proof.
  intros Hst H0 Hn Hle. unfold QuickTune_ProcessBlock. rewrite Hst.
  apply measure_loop_settling; [exact H0|].
  unfold QUICKTUNE_TONE_SETTLING_SAMPLES in *. lia.
Qed.

Lemma settling_ignores_microphone_witness :
  let q := snd (QuickTune_Start (QuickTune_Init QuickTune_boot)) in
  QuickTune_ProcessBlock (zeros 32) 32 q = QuickTune_ProcessBlock (repeat 1 32) 32 q /\
  goertzel (fst (QuickTune_ProcessBlock (zeros 32) 32 q)) = goertzel q.
Proof.
  apply (settling_ignores_microphone (zeros 32) (repeat 1 32) 32
           (snd (QuickTune_Start (QuickTune_Init QuickTune_boot)))).
  - reflexivity.
  - apply Z.leb_le. reflexivity.
  - lia.
  - apply Z.leb_le. reflexivity.
Defined.

(* ========================================================================== *)
(** * Further properties: the detector *)
(* ========================================================================== *)

Lemma Goertzel_run_coeff (samples : list R) :
  forall g, s_goertzel_coeff (Goertzel_run samples g) = s_goertzel_coeff g.
Proof.
  unfold Goertzel_run.
  induction samples as [|x samples IH]; intros g; cbn [fold_left]; [reflexivity|].
  rewrite IH. reflexivity.
Qed.

(** X6.  The detector never takes the square root of a negative number:
    after [Goertzel_Init] and any run of samples the coefficient is still
    [2 cos w], of magnitude at most 2, and the power
    [s1^2 + s2^2 - coeff s1 s2] is not negative; [Goertzel_GetPower] is the
    level of the magnitude [sqrt(2 power) / N] when that exceeds 1e-9 and
    -120 otherwise. *)
Theorem Goertzel_power_nonneg (f : R) (N N' : Z) (samples : list R) :
  let g := Goertzel_run samples (Goertzel_Init f N) in
  s_goertzel_coeff g = s_goertzel_coeff (Goertzel_Init f N) /\
  -2 <= s_goertzel_coeff g <= 2 /\
  0 <= goertzel_power g /\
  Goertzel_GetPower N' g
  = (if Rgt_dec (goertzel_magnitude N' g) 1e-9
     then 20 * log10 (goertzel_magnitude N' g) else -120).
Proof.
  intros g.
  assert (Hc : s_goertzel_coeff g = s_goertzel_coeff (Goertzel_Init f N))
    by apply Goertzel_run_coeff.
  assert (Hb : -2 <= s_goertzel_coeff g <= 2).
  { rewrite Hc. unfold Goertzel_Init. cbn [s_goertzel_coeff].
    match goal with |- _ <= 2 * cos ?w <= _ => pose proof (COS_bound w) end. lra. }
  clearbody g. conjs; try assumption; try (apply Hb); [|reflexivity].
  unfold goertzel_power.
  set (s1 := s_goertzel_s1 g). set (s2 := s_goertzel_s2 g).
  set (c := s_goertzel_coeff g) in *.
  pose proof (Rle_0_sqr (s1 - s2)) as H1. pose proof (Rle_0_sqr (s1 + s2)) as H2.
  unfold Rsqr in H1, H2.
  destruct (Rle_dec 0 (s1 * s2)); nra.
Qed.

Lemma ln_10_pos : 0 < ln 10.
Proof. rewrite <- ln_1. apply ln_increasing; lra. Qed.

Lemma ln_inv_pow10 (n : nat) : ln (/ 10 ^ n) = - INR n * ln 10.
Proof.
  rewrite ln_Rinv by (apply pow_lt; lra). rewrite ln_pow by lra. ring.
Qed.

Lemma log10_above (m : R) (n : nat) :
  / 10 ^ n < m -> - INR n < log10 m.
Proof.
  intros H. pose proof ln_10_pos as HL.
  assert (Hpos : 0 < / 10 ^ n) by (apply Rinv_0_lt_compat, pow_lt; lra).
  pose proof (ln_increasing _ _ Hpos H) as Hln. rewrite ln_inv_pow10 in Hln.
  unfold log10. apply (Rmult_lt_reg_r (ln 10)); [exact HL|].
  unfold Rdiv. rewrite Rmult_assoc, Rinv_l by lra. lra.
Qed.

Lemma log10_below (m : R) (n : nat) :
  0 < m -> m < / 10 ^ n -> log10 m < - INR n.
Proof.
  intros Hpos H. pose proof ln_10_pos as HL.
  pose proof (ln_increasing _ _ Hpos H) as Hln. rewrite ln_inv_pow10 in Hln.
  unfold log10. apply (Rmult_lt_reg_r (ln 10)); [exact HL|].
  unfold Rdiv. rewrite Rmult_assoc, Rinv_l by lra. lra.
Qed.

(** X7.  The floor of -120 dB is not a lower bound of the reported level:
    it replaces the level only for magnitudes up to 1e-9, so a magnitude
    between 1e-9 and 1e-6 is reported as a level between -180 dB and
    -120 dB. *)
Theorem Goertzel_level_below_floor (N : Z) (g : Goertzel) :
  1e-9 < goertzel_magnitude N g < 1e-6 ->
  -180 < Goertzel_GetPower N g < -120.
Proof.
  intros [Hlo Hhi].
  change (Goertzel_GetPower N g)
    with (if Rgt_dec (goertzel_magnitude N g) 1e-9
          then 20 * log10 (goertzel_magnitude N g) else -120).
  set (m := goertzel_magnitude N g) in *. clearbody m.
  destruct (Rgt_dec m 1e-9) as [_|Hn]; [|unfold Rgt in Hn; lra].
  assert (H9 : / 10 ^ 9 < m) by (replace (/ 10 ^ 9) with 1e-9 by lra; exact Hlo).
  assert (H6 : m < / 10 ^ 6) by (replace (/ 10 ^ 6) with 1e-6 by lra; exact Hhi).
  pose proof (log10_above m 9 H9) as Ha.
  pose proof (log10_below m 6 ltac:(lra) H6) as Hb.
  replace (INR 9) with 9 in Ha by (simpl; lra).
  replace (INR 6) with 6 in Hb by (simpl; lra).
  lra.
Qed.

Lemma Goertzel_level_below_floor_witness :
  let g := Goertzel_ProcessSample 3e-5 (Goertzel_Init 1000 4800) in
  -180 < Goertzel_GetPower 4800 g < -120.
Proof.
  apply (Goertzel_level_below_floor 4800
           (Goertzel_ProcessSample 3e-5 (Goertzel_Init 1000 4800))).
  unfold goertzel_magnitude, goertzel_power, Goertzel_ProcessSample, Goertzel_Init.
  cbn [s_goertzel_s1 s_goertzel_s2 s_goertzel_coeff].
  match goal with
  | |- _ < sqrt ?p / _ < _ =>
      assert (Hp : p = 2 * (3e-5 * 3e-5)) by ring; rewrite Hp
  end.
  assert (H1 : 3e-5 <= sqrt (2 * (3e-5 * 3e-5))).
  { rewrite <- (sqrt_square 3e-5) at 1 by lra. apply sqrt_le_1_alt. lra. }
  assert (H2 : sqrt (2 * (3e-5 * 3e-5)) <= 6e-5).
  { rewrite <- (sqrt_square 6e-5) by lra. apply sqrt_le_1_alt. lra. }
  lra.
Defined.

(* ========================================================================== *)
(** * Further properties: gains and equalizer through a calibration *)
(* ========================================================================== *)

Lemma cumulative_of_range (q : QuickTune) (band : nat) :
  -12 <= correction_of q band <= 12 /\ -12 <= cumulative_of q band <= 12.
Proof.
  unfold cumulative_of, correction_of. split; [apply clip_gain_range|].
  destruct (s_iteration q =? 0)%Z; apply clip_gain_range.
Qed.

(** X8.  Whatever levels were measured and whatever the cumulative gains
    were before, on any iteration, the computing step leaves every band's
    correction and every band's cumulative gain within -12 dB and +12 dB. *)
Theorem computing_step_range
    (q : QuickTune) (micInput : list R) (numSamples : Z) (band : nat) :
  s_state q = QUICKTUNE_STATE_COMPUTING ->
  length (s_correction_gains q) = 10%nat ->
  length (s_cumulative_gains q) = 10%nat ->
  (band < 10)%nat ->
  let q' := fst (QuickTune_ProcessBlock micInput numSamples q) in
  -12 <= load band (s_correction_gains q') <= 12 /\
  -12 <= load band (s_cumulative_gains q') <= 12.
Proof.
  intros Hst Hc Hu Hb q'.
  destruct (computing_step q micInput numSamples Hst Hc Hu) as (_ & _ & _ & Hload).
  destruct (Hload band Hb) as [H1 H2]. subst q'. rewrite H1, H2.
  apply cumulative_of_range.
Qed.

Lemma computing_step_range_witness :
  let q := computing_state 1 (repeat (-200) 10) (repeat 50 10) in
  let q' := fst (QuickTune_ProcessBlock (zeros 32) 32 q) in
  -12 <= load 3 (s_correction_gains q') <= 12 /\
  -12 <= load 3 (s_cumulative_gains q') <= 12.
Proof.
  apply (computing_step_range (computing_state 1 (repeat (-200) 10) (repeat 50 10))
           (zeros 32) 32 3).
  - reflexivity.
  - reflexivity.
  - reflexivity.
  - lia.
Defined.

Lemma load_memcpy (i n : nat) (a : list R) :
  (i < n)%nat -> load i (memcpy n a) = load i a.
Proof.
  intros H. unfold memcpy. unfold load at 1.
  rewrite (nth_indep _ 0 ((fun j => load j a) 0%nat))
    by (rewrite length_map, length_seq; exact H).
  rewrite (map_nth (fun j => load j a)). rewrite seq_nth by exact H. reflexivity.
Qed.

Lemma load_map_clip (i : nat) (l : list R) :
  load i (map clip_gain l) = clip_gain (load i l).
Proof.
  unfold load. rewrite <- (map_nth clip_gain). f_equal.
  rewrite clip_gain_inside; lra.
Qed.

Lemma memcpy_length (n : nat) (a : list R) : length (memcpy n a) = n.
Proof. unfold memcpy. rewrite length_map, length_seq. reflexivity. Qed.

(** [EQ10_SetAllGains] at the calibration Q on an initialised engine: the
    design for the clipped gains. *)
Lemma EQ10_SetAllGains_designed (gains : list R) (e : EQ10) :
  s_eq10_initialized e = true ->
  length (s_eq10_coeffs e) = 50%nat ->
  let e' := snd (EQ10_SetAllGains (Some gains) QUICKTUNE_EQ_Q e) in
  s_eq10_coeffs e' = designed (map clip_gain (memcpy 10 gains)) /\
  s_eq10_state e' = s_eq10_state e /\
  s_eq10_initialized e' = true /\
  length (s_eq10_coeffs e') = 50%nat.
Proof.
  intros Hinit Hlen. unfold EQ10_SetAllGains. rewrite Hinit. cbn [negb snd].
  assert (Hd : fold_left
                 (fun cs band =>
                    design_band (clip_gain (load band gains)) (clip_Q QUICKTUNE_EQ_Q) band cs)
                 bands (s_eq10_coeffs e)
               = designed (map clip_gain (memcpy 10 gains))).
  { rewrite design_all by exact Hlen.
    rewrite clip_Q_inside by (unfold QUICKTUNE_EQ_Q; lra).
    unfold designed. apply flat_map_ext_in. intros band Hb. apply in_bands in Hb.
    f_equal. rewrite load_map_clip, load_memcpy by exact Hb. reflexivity. }
  cbv zeta. cbn [s_eq10_coeffs s_eq10_state s_eq10_initialized].
  rewrite Hd. conjs; try reflexivity; exact Hinit.
Qed.

Lemma ApplyCorrectionGains_eq10 (q : QuickTune) :
  eq10 (ApplyCorrectionGains q)
  = snd (EQ10_SetAllGains (Some (s_cumulative_gains q)) QUICKTUNE_EQ_Q (eq10 q)).
Proof.
  unfold ApplyCorrectionGains.
  generalize (snd (EQ10_SetAllGains (Some (s_cumulative_gains q)) QUICKTUNE_EQ_Q (eq10 q))).
  intros e. cbn [with_eq10 s_iteration].
  destruct (QUICKTUNE_ENABLE_ITERATION && (s_iteration q <? QUICKTUNE_MAX_ITERATIONS - 1)%Z);
    reflexivity.
Qed.

Lemma array_in_range_clip (a : list R) :
  length a = 10%nat ->
  (forall band, (band < 10)%nat -> -12 <= load band a <= 12) ->
  map clip_gain (memcpy 10 a) = a.
Proof.
  intros Hlen Hr. apply array10_ext.
  - rewrite length_map. apply memcpy_length.
  - exact Hlen.
  - intros i Hi. rewrite load_map_clip, load_memcpy by exact Hi.
    apply clip_gain_inside. apply Hr. exact Hi.
Qed.

(** The applying step on gains in range programs exactly those gains. *)
Lemma applying_commits (q : QuickTune) :
  ready q ->
  (forall band, (band < 10)%nat -> -12 <= load band (s_cumulative_gains q) <= 12) ->
  ready (ApplyCorrectionGains q) /\ committed (ApplyCorrectionGains q) /\
  s_cumulative_gains (ApplyCorrectionGains q) = s_cumulative_gains q.
Proof.
  intros (Hlc & Hlu & Hle & Hinit) Hr.
  destruct (ApplyCorrectionGains_result q) as (_ & Hc & Hu & _).
  pose proof (ApplyCorrectionGains_eq10 q) as He.
  destruct (EQ10_SetAllGains_designed (s_cumulative_gains q) (eq10 q) Hinit Hle)
    as (Hd & _ & Hi' & Hl').
  cbv zeta in Hd, Hi', Hl'. rewrite <- He in Hd, Hi', Hl'.
  rewrite array_in_range_clip in Hd by assumption.
  unfold ready, committed. rewrite Hc, Hu. conjs; try assumption; reflexivity.
Qed.

(** The computing and the applying block on a ready controller: the
    equalizer is committed to the new cumulative gains. *)
Lemma computing_then_applying (m1 m2 : list R) (q : QuickTune) :
  s_state q = QUICKTUNE_STATE_COMPUTING ->
  ready q ->
  let qa := fst (QuickTune_ProcessBlock m1 QUICKTUNE_BLOCK_SIZE q) in
  let qb := fst (QuickTune_ProcessBlock m2 QUICKTUNE_BLOCK_SIZE qa) in
  ready qb /\ committed qb.
Proof.
  intros Hst (Hlc & Hlu & Hle & Hinit). cbv zeta.
  destruct (computing_step q m1 QUICKTUNE_BLOCK_SIZE Hst Hlc Hlu)
    as (Hsa & Hlc' & Hlu' & Hload).
  assert (Hea : eq10 (fst (QuickTune_ProcessBlock m1 QUICKTUNE_BLOCK_SIZE q)) = eq10 q).
  { rewrite (computing_block m1 _ q Hst). apply ComputeCorrectionGains_frame. }
  set (qa := fst (QuickTune_ProcessBlock m1 QUICKTUNE_BLOCK_SIZE q)) in *. clearbody qa.
  rewrite (applying_block m2 _ qa Hsa).
  destruct (applying_commits qa) as (Hr & Hc & _).
  - unfold ready. rewrite Hea. auto.
  - intros band Hb. destruct (Hload band Hb) as [_ ->]. apply cumulative_of_range.
  - auto.
Qed.

(** One pass from the start of a sweep: where it ends, and that it keeps the
    controller ready and commits the equalizer. *)
Lemma pass_from (mic : nat -> list R) (q0 : QuickTune) (it : Z) (m0 : nat) :
  sweep_start it q0 ->
  Z.of_nat m0 = 4500%Z ->
  let q2 := feed mic (S (S m0)) q0 in
  (forall n, (n <= S m0)%nat -> active (feed mic n q0) /\
                                s_iteration (feed mic n q0) = it) /\
  (if (it <? 2)%Z then sweep_start (it + 1) q2
   else s_state q2 = QUICKTUNE_STATE_DONE) /\
  (ready q0 -> ready q2 /\ committed q2).
Proof.
  intros (Hst & Hb & Hc & Hit & Hq) Hm0 q2.
  destruct (pass mic q0 Hst Hb Hc Hq) as [Hmeas Hend].
  destruct (Hend m0 Hm0) as (Hcomp & Happ & Hnext). cbv zeta in Hnext.
  rewrite Hit in Hnext. fold q2 in Hnext.
  pose proof (sweep mic q0 Hst Hb Hc (fun _ => Hq)) as Hsweep.
  conjs.
  - intros n Hn.
    destruct (Nat.eq_dec n (S m0)) as [->|Hne].
    + split; [right; right; exact Happ|].
      rewrite feed_S, (computing_block _ _ _ Hcomp).
      destruct (ComputeCorrectionGains_frame (feed mic m0 q0)) as (_ & -> & _).
      destruct (Hsweep m0 ltac:(lia)) as (b & j & _ & _ & _ & _ & Hi & _). congruence.
    + destruct (Hsweep n ltac:(lia)) as (b & j & _ & _ & _ & _ & Hi & _).
      split; [|congruence].
      destruct (Nat.eq_dec n m0) as [->|Hne'].
      * right; left; exact Hcomp.
      * left. apply Hmeas. lia.
  - destruct (it <? 2)%Z; [|exact Hnext].
    unfold sweep_start. exact Hnext.
  - intros (Hlc & Hlu & Hle & Hinit).
    destruct (Hsweep m0 ltac:(lia))
      as (b & j & _ & _ & _ & _ & _ & _ & Hco & Hcu & Heq & _).
    subst q2. rewrite !feed_S. apply computing_then_applying; [exact Hcomp|].
    unfold ready. rewrite Hco, Hcu, Heq. auto.
Qed.

Lemma feed_absorbing (mic : nat -> list R) (q : QuickTune) (n : nat) :
  s_state q = QUICKTUNE_STATE_IDLE \/ s_state q = QUICKTUNE_STATE_DONE \/
  s_state q = QUICKTUNE_STATE_ERROR ->
  feed mic n q = q.
Proof.
  intros H. induction n as [|n IH]; [reflexivity|].
  rewrite feed_S, IH. unfold QuickTune_ProcessBlock.
  destruct H as [-> | [-> | ->]]; reflexivity.
Qed.

(** The whole run: three passes of 4502 blocks, active throughout, [DONE]
    from then on, the equalizer committed to the final gains. *)
Lemma run_structure (mic : nat -> list R) (q1 : QuickTune) (m0 : nat) :
  sweep_start 0 q1 ->
  Z.of_nat m0 = 4500%Z ->
  let m := S (S m0) in
  let qd := feed mic (m + (m + m)) q1 in
  (forall n, (n < m + (m + m))%nat -> active (feed mic n q1)) /\
  s_state qd = QUICKTUNE_STATE_DONE /\
  (forall n, (m + (m + m) <= n)%nat -> feed mic n q1 = qd) /\
  (ready q1 -> ready qd /\ committed qd).
Proof.
  intros H1 Hm0 m qd.
  destruct (pass_from mic q1 0 m0 H1 Hm0) as (Hact1 & Hnext1 & Hready1).
  cbn [Z.ltb Z.compare Z.add] in Hnext1. fold m in Hnext1, Hready1.
  set (mic2 := fun k => mic (m + k)%nat).
  set (q2 := feed mic m q1) in *.
  destruct (pass_from mic2 q2 1 m0 Hnext1 Hm0) as (Hact2 & Hnext2 & Hready2).
  cbn [Z.ltb Z.compare Pos.compare Pos.compare_cont Z.add Pos.add] in Hnext2.
  fold m in Hnext2, Hready2.
  set (mic3 := fun k => mic2 (m + k)%nat).
  set (q3 := feed mic2 m q2) in *.
  destruct (pass_from mic3 q3 2 m0 Hnext2 Hm0) as (Hact3 & Hnext3 & Hready3).
  cbn [Z.ltb Z.compare Pos.compare Pos.compare_cont] in Hnext3.
  fold m in Hnext3, Hready3.
  assert (Hqd : qd = feed mic3 m q3).
  { subst qd. rewrite feed_add. fold mic2 q2. rewrite feed_add. reflexivity. }
  conjs.
  - intros n Hn.
    destruct (Nat.lt_ge_cases n m) as [Hlt|Hge]; [apply Hact1; lia|].
    replace n with (m + (n - m))%nat by lia. rewrite feed_add. fold mic2 q2.
    destruct (Nat.lt_ge_cases (n - m) m) as [Hlt2|Hge2]; [apply Hact2; lia|].
    replace (n - m)%nat with (m + (n - m - m))%nat by lia. rewrite feed_add.
    fold mic3 q3. apply Hact3. lia.
  - rewrite Hqd. exact Hnext3.
  - intros n Hn.
    replace n with (m + (m + m) + (n - (m + (m + m))))%nat by lia.
    rewrite feed_add. fold qd. apply feed_absorbing. right; left.
    rewrite Hqd. exact Hnext3.
  - intros Hr. rewrite Hqd. apply Hready3, Hready2, Hready1, Hr.
Qed.

Lemma QuickTune_Start_sweep_start (q : QuickTune) :
  s_state q = QUICKTUNE_STATE_IDLE ->
  sweep_start 0 (snd (QuickTune_Start q)) /\
  (ready q -> ready (snd (QuickTune_Start q))).
Proof.
  intros Hidle.
  destruct (QuickTune_Start_idle q Hidle)
    as (_ & Hst & Hb & Hc & Hit & Hq & _ & Hco & Hcu & He).
  split; [unfold sweep_start; auto|].
  unfold ready. rewrite Hco, Hcu, He. auto.
Qed.

Lemma active_states (q : QuickTune) :
  active q ->
  s_state q <> QUICKTUNE_STATE_IDLE /\ s_state q <> QUICKTUNE_STATE_DONE /\
  s_state q <> QUICKTUNE_STATE_ERROR.
Proof. intros [H | [H | H]]; rewrite H; conjs; discriminate. Qed.

(** X9.  A completed calibration reports what it programmed: 3 x 4502
    blocks after a start from [IDLE] on an initialised system the state is
    [DONE], [QuickTune_GetCorrectionGains] returns ten gains, all within
    -12 dB and +12 dB, and the equalizer's 50 coefficients are the designer's
    output for exactly these gains at Q = 2 and 48 kHz, whatever the
    microphone delivered. *)
Theorem calibration_result
    (q : QuickTune) (mic : nat -> list R) (n : nat) (buffer : list R) :
  s_state q = QUICKTUNE_STATE_IDLE ->
  ready q ->
  Z.of_nat n = (3 * 4502)%Z ->
  let qd := feed mic n (snd (QuickTune_Start q)) in
  s_state qd = QUICKTUNE_STATE_DONE /\
  exists gains,
    QuickTune_GetCorrectionGains qd = Some gains /\
    length gains = 10%nat /\
    (forall band, (band < 10)%nat -> -12 <= load band gains <= 12) /\
    EQ10_GetCoefficients (Some buffer) (eq10 qd)
    = Some (flat_map (fun '(fc, gain_dB) => EQ10_DesignBiquad fc gain_dB 2 48000)
                     (combine QUICKTUNE_BAND_FREQUENCIES gains)).
Proof.
  intros Hidle Hready Hn. cbv zeta.
  destruct (QuickTune_Start_sweep_start q Hidle) as [Hs Hr]. specialize (Hr Hready).
  set (m0 := Z.to_nat 4500). assert (Hm0 : Z.of_nat m0 = 4500%Z) by lia. clearbody m0.
  destruct (run_structure mic _ m0 Hs Hm0) as (_ & Hdone & _ & Hcommit).
  destruct (Hcommit Hr) as [(Hlc & Hlu & Hle & Hinit) [Hrange Hcoef]].
  replace n with (S (S m0) + (S (S m0) + S (S m0)))%nat by lia.
  set (qd := feed mic (S (S m0) + (S (S m0) + S (S m0))) (snd (QuickTune_Start q))) in *.
  clearbody qd.
  split; [exact Hdone|]. exists (s_cumulative_gains qd).
  unfold QuickTune_GetCorrectionGains, EQ10_GetCoefficients. rewrite Hdone.
  cbn [QuickTuneState_eqb]. conjs; try assumption; try reflexivity.
  change (Z.to_nat EQ10_TOTAL_COEFFS) with 50%nat. rewrite <- Hle, memcpy_all, Hcoef.
  f_equal. unfold designed, bands. change (Z.to_nat EQ10_NUM_BANDS) with 10%nat.
  generalize (s_cumulative_gains qd) Hlu. clear. intros g Hg.
  do 10 (destruct g as [|? g]; [discriminate Hg|]).
  destruct g; [|discriminate Hg]. reflexivity.
Qed.

Lemma QuickTune_Init_ready (q : QuickTune) :
  length (s_eq10_coeffs (eq10 q)) = 50%nat -> ready (QuickTune_Init q).
Proof.
  intros H. destruct (QuickTune_Init_sized q H) as [(_ & Hc & Hu & He) Hi].
  unfold ready. auto.
Qed.

Lemma calibration_result_witness :
  let q := QuickTune_Init QuickTune_boot in
  let mic := fun _ : nat => repeat 0.25 32 in
  let qd := feed mic (Z.to_nat 13506) (snd (QuickTune_Start q)) in
  s_state qd = QUICKTUNE_STATE_DONE /\
  exists gains,
    QuickTune_GetCorrectionGains qd = Some gains /\
    length gains = 10%nat /\
    (forall band, (band < 10)%nat -> -12 <= load band gains <= 12) /\
    EQ10_GetCoefficients (Some (zeros 50)) (eq10 qd)
    = Some (flat_map (fun '(fc, gain_dB) => EQ10_DesignBiquad fc gain_dB 2 48000)
                     (combine QUICKTUNE_BAND_FREQUENCIES gains)).
Proof.
  apply (calibration_result (QuickTune_Init QuickTune_boot)
           (fun _ : nat => repeat 0.25 32) (Z.to_nat 13506) (zeros 50)).
  - reflexivity.
  - apply QuickTune_Init_ready. reflexivity.
  - lia.
Defined.

(* ========================================================================== *)
(** * Further properties: the life cycle of a run *)
(* ========================================================================== *)

(** X10.  Once started, a calibration cannot be started again before
    [QuickTune_Stop]: after any number of blocks the state is neither [IDLE]
    nor [ERROR], so [QuickTune_Start] returns [false] with error code 1.
    Before block 3 x 4502 the run is measuring, computing or applying and
    both getters return [NULL]; from that block on the state is [DONE] and
    no further block changes anything. *)
Theorem run_life_cycle (q : QuickTune) (mic : nat -> list R) (n : nat) :
  s_state q = QUICKTUNE_STATE_IDLE ->
  let q_n := feed mic n (snd (QuickTune_Start q)) in
  s_state q_n <> QUICKTUNE_STATE_IDLE /\
  s_state q_n <> QUICKTUNE_STATE_ERROR /\
  fst (QuickTune_Start q_n) = false /\
  QuickTune_GetLastError (snd (QuickTune_Start q_n)) = 1%Z /\
  if (Z.of_nat n <? 3 * 4502)%Z
  then active q_n /\
       QuickTune_GetCorrectionGains q_n = None /\
       QuickTune_GetMeasuredLevels q_n = None
  else s_state q_n = QUICKTUNE_STATE_DONE /\
       feed mic (S n) (snd (QuickTune_Start q)) = q_n.
Proof.
  intros Hidle. cbv zeta.
  destruct (QuickTune_Start_sweep_start q Hidle) as [Hs _].
  set (q1 := snd (QuickTune_Start q)) in *. clearbody q1.
  set (m0 := Z.to_nat 4500). assert (Hm0 : Z.of_nat m0 = 4500%Z) by lia. clearbody m0.
  destruct (run_structure mic q1 m0 Hs Hm0) as (Hact & Hdone & Hstay & _).
  assert (Hcases : (active (feed mic n q1) /\ (Z.of_nat n < 3 * 4502)%Z) \/
                   (s_state (feed mic n q1) = QUICKTUNE_STATE_DONE /\
                    feed mic (S n) q1 = feed mic n q1 /\ (3 * 4502 <= Z.of_nat n)%Z)).
  { destruct (Nat.lt_ge_cases n (S (S m0) + (S (S m0) + S (S m0)))) as [Hlt|Hge].
    - left. split; [apply Hact; exact Hlt|lia].
    - right. rewrite (Hstay n Hge), (Hstay (S n)) by lia. conjs; [exact Hdone|reflexivity|lia]. }
  set (q_n := feed mic n q1) in *. clearbody q_n.
  assert (Hnot : s_state q_n <> QUICKTUNE_STATE_IDLE /\ s_state q_n <> QUICKTUNE_STATE_ERROR).
  { destruct Hcases as [[Ha _] | [Hd _]].
    - destruct (active_states q_n Ha) as (H1 & _ & H3). auto.
    - rewrite Hd. split; discriminate. }
  destruct Hnot as [Hni Hne].
  assert (Hstart : fst (QuickTune_Start q_n) = false /\
                   QuickTune_GetLastError (snd (QuickTune_Start q_n)) = 1%Z).
  { unfold QuickTune_Start. destruct (s_state q_n); try contradiction; split; reflexivity. }
  destruct Hstart as [Hf He]. conjs; try assumption.
  destruct Hcases as [[Ha Hlt] | (Hd & Hs' & Hge)].
  - replace (Z.of_nat n <? 3 * 4502)%Z with true by (symmetry; apply Z.ltb_lt; exact Hlt).
    destruct (active_states q_n Ha) as (_ & H2 & _).
    unfold QuickTune_GetCorrectionGains, QuickTune_GetMeasuredLevels.
    destruct (s_state q_n); try contradiction; conjs; first [exact Ha | reflexivity].
  - replace (Z.of_nat n <? 3 * 4502)%Z with false by (symmetry; apply Z.ltb_ge; exact Hge).
    split; assumption.
Qed.

Lemma run_life_cycle_witness :
  let q := QuickTune_Init QuickTune_boot in
  let mic := fun _ : nat => repeat 0.25 32 in
  let q_n := feed mic 5 (snd (QuickTune_Start q)) in
  s_state q_n <> QUICKTUNE_STATE_IDLE /\
  s_state q_n <> QUICKTUNE_STATE_ERROR /\
  fst (QuickTune_Start q_n) = false /\
  QuickTune_GetLastError (snd (QuickTune_Start q_n)) = 1%Z /\
  if (Z.of_nat 5 <? 3 * 4502)%Z
  then active q_n /\
       QuickTune_GetCorrectionGains q_n = None /\
       QuickTune_GetMeasuredLevels q_n = None
  else s_state q_n = QUICKTUNE_STATE_DONE /\
       feed mic (S 5) (snd (QuickTune_Start q)) = q_n.
Proof.
  apply (run_life_cycle (QuickTune_Init QuickTune_boot) (fun _ : nat => repeat 0.25 32) 5).
  reflexivity.
Defined.

Lemma feed1_active (mic : nat -> list R) (q1 : QuickTune) (n : nat) :
  (forall k, (k <= n)%nat -> s_state (feed mic k q1) <> QUICKTUNE_STATE_DONE) ->
  feed1 mic n q1 = feed mic n q1.
Proof.
  induction n as [|n IH]; intros H; [reflexivity|].
  cbn [feed1]. rewrite IH by (intros k Hk; apply H; lia).
  unfold Example1_AudioCallback. rewrite feed_S.
  specialize (H (S n) (Nat.le_refl _)). rewrite feed_S in H.
  destruct (QuickTune_ProcessBlock (mic n) QUICKTUNE_BLOCK_SIZE (feed mic n q1))
    as [q' out] eqn:Hpb.
  change 32%Z with QUICKTUNE_BLOCK_SIZE. rewrite Hpb. cbn [fst] in *.
  unfold QuickTune_GetState. destruct (s_state q'); try reflexivity. contradiction.
Qed.

(** X11.  Driven by the audio callback of Example 1, a calibration started
    from [IDLE] behaves as under bare [QuickTune_ProcessBlock] for the first
    3 x 4502 - 1 blocks; the callback that completes it stops the controller
    at once, so that afterwards the state is [IDLE], the getters return
    [NULL] although the equalizer holds the result, and [QuickTune_Start]
    succeeds again. *)
Theorem Example1_run (q : QuickTune) (mic : nat -> list R) (n : nat) :
  s_state q = QUICKTUNE_STATE_IDLE ->
  Z.of_nat n = (3 * 4502)%Z ->
  let q1 := snd (QuickTune_Start q) in
  (forall k, (k < n)%nat -> feed1 mic k q1 = feed mic k q1) /\
  feed1 mic n q1 = QuickTune_Stop (feed mic n q1) /\
  s_state (feed1 mic n q1) = QUICKTUNE_STATE_IDLE /\
  eq10 (feed1 mic n q1) = eq10 (feed mic n q1) /\
  QuickTune_GetCorrectionGains (feed1 mic n q1) = None /\
  fst (QuickTune_Start (feed1 mic n q1)) = true.
Proof.
  intros Hidle Hn. cbv zeta.
  destruct (QuickTune_Start_sweep_start q Hidle) as [Hs _].
  set (q1 := snd (QuickTune_Start q)) in *. clearbody q1.
  set (m0 := Z.to_nat 4500). assert (Hm0 : Z.of_nat m0 = 4500%Z) by lia. clearbody m0.
  destruct (run_structure mic q1 m0 Hs Hm0) as (Hact & Hdone & _ & _).
  assert (Hn' : n = (S (S m0) + (S (S m0) + S (S m0)))%nat) by lia.
  rewrite <- Hn' in Hact, Hdone.
  assert (Hbefore : forall k, (k < n)%nat -> feed1 mic k q1 = feed mic k q1).
  { intros k Hk. apply feed1_active. intros j Hj.
    apply (active_states _ (Hact j ltac:(lia))). }
  assert (Hlast : feed1 mic n q1 = QuickTune_Stop (feed mic n q1)).
  { destruct n as [|n]; [lia|]. cbn [feed1]. rewrite Hbefore by lia.
    rewrite feed_S in *. unfold Example1_AudioCallback.
    change 32%Z with QUICKTUNE_BLOCK_SIZE.
    destruct (QuickTune_ProcessBlock (mic n) QUICKTUNE_BLOCK_SIZE (feed mic n q1))
      as [q' out]. cbn [fst] in *. unfold QuickTune_GetState. rewrite Hdone. reflexivity. }
  rewrite Hlast. generalize (feed mic n q1) as qd. intros qd.
  conjs; try assumption; destruct qd; reflexivity.
Qed.

Lemma Example1_run_witness :
  let q := QuickTune_Init QuickTune_boot in
  let mic := fun _ : nat => repeat 0.25 32 in
  let n := Z.to_nat 13506 in
  let q1 := snd (QuickTune_Start q) in
  (forall k, (k < n)%nat -> feed1 mic k q1 = feed mic k q1) /\
  feed1 mic n q1 = QuickTune_Stop (feed mic n q1) /\
  s_state (feed1 mic n q1) = QUICKTUNE_STATE_IDLE /\
  eq10 (feed1 mic n q1) = eq10 (feed mic n q1) /\
  QuickTune_GetCorrectionGains (feed1 mic n q1) = None /\
  fst (QuickTune_Start (feed1 mic n q1)) = true.
Proof.
  apply (Example1_run (QuickTune_Init QuickTune_boot) (fun _ : nat => repeat 0.25 32)
           (Z.to_nat 13506)).
  - reflexivity.
  - lia.
Defined.

(** X12.  Progress and band index during the first sweep: [n] blocks after
    a start from [IDLE], [n < 4500], [QuickTune_GetProgress] is [n / 4500]
    and [QuickTune_GetCurrentBand] is the quotient of [n] by 450.  On the
    block that completes the sweep the progress drops from [4499 / 4500] to
    0.95 and the band index becomes -1, and two blocks later, when the next
    iteration starts, both are 0 again: the progress is not monotonic. *)
Theorem progress_during_sweep (q : QuickTune) (mic : nat -> list R) (n : nat) :
  s_state q = QUICKTUNE_STATE_IDLE ->
  let q_n := feed mic n (snd (QuickTune_Start q)) in
  let q_next := feed mic (S n) (snd (QuickTune_Start q)) in
  ((Z.of_nat n < 4500)%Z ->
     QuickTune_GetProgress q_n = IZR (Z.of_nat n) / 4500 /\
     QuickTune_GetCurrentBand q_n = (Z.of_nat n / 450)%Z) /\
  (Z.of_nat n = 4499%Z ->
     QuickTune_GetProgress q_next = 0.95 /\
     QuickTune_GetProgress q_next < QuickTune_GetProgress q_n /\
     QuickTune_GetCurrentBand q_next = (-1)%Z) /\
  (Z.of_nat n = 4502%Z ->
     QuickTune_GetProgress q_n = 0 /\ QuickTune_GetCurrentBand q_n = 0%Z).
Proof.
  intros Hidle. cbv zeta.
  destruct (QuickTune_Start_sweep_start q Hidle) as [Hs _].
  set (q1 := snd (QuickTune_Start q)) in *. clearbody q1.
  pose proof Hs as (Hst & Hb & Hc & Hit & Hq).
  pose proof (sweep mic q1 Hst Hb Hc (fun _ => Hq)) as Hsweep.
  assert (Hin : forall k, (Z.of_nat k < 4500)%Z ->
            QuickTune_GetProgress (feed mic k q1) = IZR (Z.of_nat k) / 4500 /\
            QuickTune_GetCurrentBand (feed mic k q1) = (Z.of_nat k / 450)%Z).
  { intros k Hk.
    destruct (Hsweep k ltac:(lia))
      as (b & j & Hkb & Hj & Hb10 & Hband & _ & _ & _ & _ & _ & _ & Hmeas & _).
    destruct (Hmeas ltac:(lia)) as [Hsk Hck].
    unfold QuickTune_GetProgress, QuickTune_GetCurrentBand. rewrite Hsk, Hck, Hband.
    cbn [QuickTuneState_eqb]. split.
    - rewrite Hkb, plus_IZR, !mult_IZR.
      unfold QUICKTUNE_NUM_BANDS, QUICKTUNE_TONE_TOTAL_SAMPLES. lra.
    - apply (Z.div_unique (Z.of_nat k) 450 b j); lia. }
  assert (Hat : forall k, Z.of_nat k = 4500%Z ->
            QuickTune_GetProgress (feed mic k q1) = 0.95 /\
            QuickTune_GetCurrentBand (feed mic k q1) = (-1)%Z).
  { intros k Hk.
    destruct (Hsweep k ltac:(lia))
      as (b & j & Hkb & Hj & Hb10 & _ & _ & _ & _ & _ & _ & _ & _ & Hcomp & _).
    destruct (Hcomp ltac:(lia)) as [_ Hsk].
    unfold QuickTune_GetProgress, QuickTune_GetCurrentBand. rewrite Hsk.
    split; reflexivity. }
  conjs.
  - apply Hin.
  - intros Hn. destruct (Hat (S n) ltac:(lia)) as [Hp Hbnd].
    destruct (Hin n ltac:(lia)) as [Hpn _].
    conjs; [exact Hp | | exact Hbnd].
    rewrite Hp, Hpn, Hn. lra.
  - intros Hn.
    destruct n as [|[|m0]]; try lia.
    destruct (pass_from mic q1 0 m0 Hs ltac:(lia)) as (_ & Hnext & _).
    cbn [Z.ltb Z.compare Z.add] in Hnext.
    destruct Hnext as (Hs2 & Hb2 & Hc2 & _).
    unfold QuickTune_GetProgress, QuickTune_GetCurrentBand. rewrite Hs2, Hb2, Hc2.
    cbn [QuickTuneState_eqb]. unfold QUICKTUNE_NUM_BANDS, QUICKTUNE_TONE_TOTAL_SAMPLES.
    split; [lra|reflexivity].
Qed.

Lemma progress_during_sweep_witness :
  let q := QuickTune_Init QuickTune_boot in
  let mic := fun _ : nat => repeat 0.25 32 in
  let n := 7%nat in
  let q_n := feed mic n (snd (QuickTune_Start q)) in
  let q_next := feed mic (S n) (snd (QuickTune_Start q)) in
  ((Z.of_nat n < 4500)%Z ->
     QuickTune_GetProgress q_n = IZR (Z.of_nat n) / 4500 /\
     QuickTune_GetCurrentBand q_n = (Z.of_nat n / 450)%Z) /\
  (Z.of_nat n = 4499%Z ->
     QuickTune_GetProgress q_next = 0.95 /\
     QuickTune_GetProgress q_next < QuickTune_GetProgress q_n /\
     QuickTune_GetCurrentBand q_next = (-1)%Z) /\
  (Z.of_nat n = 4502%Z ->
     QuickTune_GetProgress q_n = 0 /\ QuickTune_GetCurrentBand q_n = 0%Z).
Proof.
  apply (progress_during_sweep (QuickTune_Init QuickTune_boot)
           (fun _ : nat => repeat 0.25 32) 7).
  reflexivity.
Defined.

(* ========================================================================== *)
(** * Further properties: the audio loop of Example 8 *)
(* ========================================================================== *)

Lemma Example8_measuring
    (df1 : list R -> list R -> list R -> Z -> list R * list R)
    (input : list R) (numSamples : Z) (q : QuickTune) :
  s_state q = QUICKTUNE_STATE_MEASURING ->
  fst (Example8_RealTimeProcessing df1 input numSamples q)
  = fst (QuickTune_ProcessBlock (memcpy (Z.to_nat numSamples) input) numSamples q).
Proof.
  intros H. unfold Example8_RealTimeProcessing, QuickTune_GetState. rewrite H.
  cbn [QuickTuneState_eqb].
  destruct (QuickTune_ProcessBlock (memcpy (Z.to_nat numSamples) input) numSamples q).
  reflexivity.
Qed.

Lemma Example8_otherwise
    (df1 : list R -> list R -> list R -> Z -> list R * list R)
    (input : list R) (numSamples : Z) (q : QuickTune) :
  s_state q <> QUICKTUNE_STATE_MEASURING ->
  exists e, fst (Example8_RealTimeProcessing df1 input numSamples q) = with_eq10 e q.
Proof.
  intros H. unfold Example8_RealTimeProcessing, QuickTune_GetState.
  destruct (QuickTuneState_eqb (s_state q) QUICKTUNE_STATE_MEASURING) eqn:Heq.
  - destruct (s_state q); try discriminate Heq. contradiction.
  - destruct (EQ10_ProcessBlock df1 _ numSamples (eq10 q)) as [e' out].
    exists e'. reflexivity.
Qed.

(** X13.  Driven by the audio loop of Example 8, a calibration never
    completes.  The loop calls [QuickTune_ProcessBlock] only in the state
    [MEASURING]: the first sweep runs as usual, and from block 4500 on the
    state is [COMPUTING] for ever, the gains are never computed and
    [QuickTune_GetCorrectionGains] returns [NULL], whatever the filter
    routine does. *)
Theorem Example8_stalls
    (df1 : list R -> list R -> list R -> Z -> list R * list R)
    (q : QuickTune) (input : nat -> list R) (n : nat) :
  s_state q = QUICKTUNE_STATE_IDLE ->
  let q1 := snd (QuickTune_Start q) in
  let q_n := feed8 df1 input n q1 in
  s_state q_n <> QUICKTUNE_STATE_DONE /\
  QuickTune_GetCorrectionGains q_n = None /\
  s_cumulative_gains q_n = s_cumulative_gains q /\
  if (Z.of_nat n <? 4500)%Z
  then q_n = feed (fun k => memcpy 32 (input k)) n q1 /\
       s_state q_n = QUICKTUNE_STATE_MEASURING
  else s_state q_n = QUICKTUNE_STATE_COMPUTING.
Proof.
  intros Hidle. cbv zeta.
  destruct (QuickTune_Start_idle q Hidle)
    as (_ & Hst & Hb & Hc & Hit & Hq & _ & _ & Hcu & _).
  set (q1 := snd (QuickTune_Start q)) in *. clearbody q1. rewrite <- Hcu. clear Hcu.
  set (mic := fun k => memcpy 32 (input k)).
  pose proof (sweep mic q1 Hst Hb Hc (fun _ => Hq)) as Hsweep.
  assert (Hrun : forall k, (Z.of_nat k <= 4500)%Z -> feed8 df1 input k q1 = feed mic k q1).
  { induction k as [|k IH]; intros Hk; [reflexivity|].
    cbn [feed8]. rewrite IH by lia. rewrite feed_S.
    destruct (Hsweep k ltac:(lia))
      as (b & j & Hkb & Hj & Hb10 & _ & _ & _ & _ & _ & _ & _ & Hmeas & _).
    destruct (Hmeas ltac:(lia)) as [Hsk _].
    rewrite (Example8_measuring df1 _ _ _ Hsk). reflexivity. }
  assert (Hstall : forall k, (4500 <= Z.of_nat k)%Z ->
            s_state (feed8 df1 input k q1) = QUICKTUNE_STATE_COMPUTING /\
            s_cumulative_gains (feed8 df1 input k q1) = s_cumulative_gains q1).
  { induction k as [|k IH]; intros Hk; [lia|].
    destruct (Z.eq_dec (Z.of_nat (S k)) 4500) as [Heq|Hne].
    - rewrite Hrun by lia.
      destruct (Hsweep (S k) ltac:(lia))
        as (b & j & Hkb & Hj & Hb10 & _ & _ & _ & _ & Hcum & _ & _ & _ & Hcomp & _).
      split; [apply Hcomp; lia|exact Hcum].
    - destruct (IH ltac:(lia)) as [Hs Hcum]. cbn [feed8].
      destruct (Example8_otherwise df1 (input k) QUICKTUNE_BLOCK_SIZE
                  (feed8 df1 input k q1)) as [e ->]; [rewrite Hs; discriminate|].
      cbn [with_eq10 s_state s_cumulative_gains]. auto. }
  destruct (Z.ltb_spec (Z.of_nat n) 4500) as [Hlt|Hge].
  - rewrite Hrun by lia.
    destruct (Hsweep n ltac:(lia))
      as (b & j & Hkb & Hj & Hb10 & _ & _ & _ & _ & Hcum & _ & _ & Hmeas & _).
    destruct (Hmeas ltac:(lia)) as [Hsn _].
    unfold QuickTune_GetCorrectionGains. rewrite Hsn. cbn [QuickTuneState_eqb].
    conjs; try reflexivity; try assumption. discriminate.
  - destruct (Hstall n Hge) as [Hsn Hcum].
    unfold QuickTune_GetCorrectionGains. rewrite Hsn. cbn [QuickTuneState_eqb].
    conjs; try reflexivity; try assumption. discriminate.
Qed.

Lemma Example8_stalls_witness :
  let df1 := fun (coeffs state input : list R) (n : Z) => (state, input) in
  let q := QuickTune_Init QuickTune_boot in
  let input := fun _ : nat => repeat 0.25 32 in
  let n := Z.to_nat 20000 in
  let q1 := snd (QuickTune_Start q) in
  let q_n := feed8 df1 input n q1 in
  s_state q_n <> QUICKTUNE_STATE_DONE /\
  QuickTune_GetCorrectionGains q_n = None /\
  s_cumulative_gains q_n = s_cumulative_gains q /\
  if (Z.of_nat n <? 4500)%Z
  then q_n = feed (fun k => memcpy 32 (input k)) n q1 /\
       s_state q_n = QUICKTUNE_STATE_MEASURING
  else s_state q_n = QUICKTUNE_STATE_COMPUTING.
Proof.
  apply (Example8_stalls (fun (coeffs state input : list R) (n : Z) => (state, input))
           (QuickTune_Init QuickTune_boot) (fun _ : nat => repeat 0.25 32)
           (Z.to_nat 20000)).
  reflexivity.
Defined.

(* ========================================================================== *)
(** * Further properties: presets *)
(* ========================================================================== *)

(** X14.  [QuickTune_ApplyGains] stores the gains as given and programs
    them clipped: applied in the state [DONE], a preset is handed back
    unchanged by [QuickTune_GetCorrectionGains], while the equalizer holds
    the design for the gains clipped to the range of 12 dB either way; the
    two differ as soon as one gain is out of range. *)
Theorem QuickTune_ApplyGains_reported_and_programmed (q : QuickTune) (gains : list R) :
  s_state q = QUICKTUNE_STATE_DONE ->
  ready q ->
  length gains = 10%nat ->
  let q' := QuickTune_ApplyGains (Some gains) q in
  QuickTune_GetCorrectionGains q' = Some gains /\
  s_eq10_coeffs (eq10 q') = designed (map clip_gain gains) /\
  forall band, (band < 10)%nat ->
    load band (map clip_gain gains) = clip_gain (load band gains) /\
    -12 <= load band (map clip_gain gains) <= 12.
Proof.
  intros Hst (_ & _ & Hle & Hinit) Hlen q'. subst q'.
  assert (Hcopy : memcpy 10 gains = gains) by (rewrite <- Hlen; apply memcpy_all).
  destruct (EQ10_SetAllGains_designed gains (eq10 q) Hinit Hle) as (Hd & _).
  cbv zeta in Hd. rewrite Hcopy in Hd.
  unfold QuickTune_ApplyGains, QuickTune_GetCorrectionGains.
  cbn [with_last_error with_eq10 with_cumulative_gains s_state s_cumulative_gains eq10].
  change (Z.to_nat QUICKTUNE_NUM_BANDS) with 10%nat.
  rewrite Hst, Hcopy, Hd. cbn [QuickTuneState_eqb]. conjs; try reflexivity.
  intros band Hb. rewrite load_map_clip. split; [reflexivity|apply clip_gain_range].
Qed.

Lemma QuickTune_ApplyGains_reported_and_programmed_witness :
  let q := with_state QUICKTUNE_STATE_DONE (QuickTune_Init QuickTune_boot) in
  let gains := repeat 50 10 in
  let q' := QuickTune_ApplyGains (Some gains) q in
  QuickTune_GetCorrectionGains q' = Some gains /\
  s_eq10_coeffs (eq10 q') = designed (map clip_gain gains) /\
  forall band, (band < 10)%nat ->
    load band (map clip_gain gains) = clip_gain (load band gains) /\
    -12 <= load band (map clip_gain gains) <= 12.
Proof.
  apply (QuickTune_ApplyGains_reported_and_programmed
           (with_state QUICKTUNE_STATE_DONE (QuickTune_Init QuickTune_boot))
           (repeat 50 10)).
  - reflexivity.
  - apply (QuickTune_Init_ready QuickTune_boot). reflexivity.
  - reflexivity.
Defined.

(** X15.  Before the equalizer is initialised [QuickTune_ApplyGains] fails
    silently: [EQ10_SetAllGains] rejects the request and the equalizer is
    left as it was, but the gains are stored and the error code is cleared
    to 0. *)
Theorem QuickTune_ApplyGains_uninitialised (q : QuickTune) (gains : list R) :
  s_eq10_initialized (eq10 q) = false ->
  length gains = 10%nat ->
  let q' := QuickTune_ApplyGains (Some gains) q in
  fst (EQ10_SetAllGains (Some gains) QUICKTUNE_EQ_Q (eq10 q)) = false /\
  eq10 q' = eq10 q /\
  s_cumulative_gains q' = gains /\
  QuickTune_GetLastError q' = 0%Z.
Proof.
  intros Hinit Hlen q'. subst q'.
  assert (Hcopy : memcpy 10 gains = gains) by (rewrite <- Hlen; apply memcpy_all).
  unfold QuickTune_ApplyGains, QuickTune_GetLastError, EQ10_SetAllGains.
  cbn [with_last_error with_eq10 with_cumulative_gains s_cumulative_gains eq10
       s_last_error].
  change (Z.to_nat QUICKTUNE_NUM_BANDS) with 10%nat.
  rewrite Hinit, Hcopy. cbn [negb fst snd]. conjs; reflexivity.
Qed.

Lemma QuickTune_ApplyGains_uninitialised_witness :
  let q' := QuickTune_ApplyGains (Some preset) QuickTune_boot in
  fst (EQ10_SetAllGains (Some preset) QUICKTUNE_EQ_Q (eq10 QuickTune_boot)) = false /\
  eq10 q' = eq10 QuickTune_boot /\
  s_cumulative_gains q' = preset /\
  QuickTune_GetLastError q' = 0%Z.
Proof.
  apply (QuickTune_ApplyGains_uninitialised QuickTune_boot preset); reflexivity.
Defined.

(* ========================================================================== *)
(** * Further properties: the equalizer's coefficient array *)
(* ========================================================================== *)

(** X16.  [EQ10_SetBandGain] accepts exactly the initialised engine with a
    band index from 0 to 9, and rejects without touching anything.  When it
    accepts, the five coefficients of the band are the designer's output for
    the band frequency and the clipped gain and Q; every other coefficient,
    the delay-line state and the size of the array are as before. *)
Theorem EQ10_SetBandGain_frame (e : EQ10) (band : Z) (g Q : R) :
  length (s_eq10_coeffs e) = 50%nat ->
  let r := EQ10_SetBandGain band g Q e in
  let b := Z.to_nat band in
  (fst r = true <-> s_eq10_initialized e = true /\ (0 <= band < 10)%Z) /\
  (fst r = false -> snd r = e) /\
  (fst r = true ->
     s_eq10_state (snd r) = s_eq10_state e /\
     s_eq10_initialized (snd r) = true /\
     length (s_eq10_coeffs (snd r)) = 50%nat /\
     (forall k, (k < 5)%nat ->
        load (b * 5 + k) (s_eq10_coeffs (snd r))
        = load k (EQ10_DesignBiquad (load b QUICKTUNE_BAND_FREQUENCIES)
                    (clip_gain g) (clip_Q Q) (IZR QUICKTUNE_SAMPLE_RATE))) /\
     (forall j, (j < b * 5 \/ b * 5 + 5 <= j)%nat ->
        load j (s_eq10_coeffs (snd r)) = load j (s_eq10_coeffs e))).
Proof.
  intros Hlen. cbv zeta. unfold EQ10_SetBandGain.
  assert (Hv : EQ10_IsValidBand band = true <-> (0 <= band < 10)%Z).
  { unfold EQ10_IsValidBand, EQ10_NUM_BANDS.
    rewrite andb_true_iff, Z.leb_le, Z.ltb_lt. tauto. }
  destruct (s_eq10_initialized e) eqn:Hinit, (EQ10_IsValidBand band) eqn:Hvalid;
    cbn [negb orb fst snd].
  - split; [|split].
    + split; [intros _; split; [reflexivity|apply Hv; reflexivity]|reflexivity].
    + intros H; discriminate H.
    + intros _. cbn [s_eq10_state s_eq10_initialized s_eq10_coeffs].
      conjs; try reflexivity.
      * rewrite design_band_length. exact Hlen.
      * intros k Hk. unfold design_band.
        change (Z.to_nat EQ10_COEFFS_PER_BAND) with 5%nat.
        apply load_store_at_in; [|exact Hk].
        change (length (EQ10_DesignBiquad (load (Z.to_nat band) QUICKTUNE_BAND_FREQUENCIES)
                          (clip_gain g) (clip_Q Q) (IZR QUICKTUNE_SAMPLE_RATE)))
          with 5%nat.
        pose proof (proj1 Hv eq_refl) as Hr. lia.
      * intros j Hj. unfold design_band.
        change (Z.to_nat EQ10_COEFFS_PER_BAND) with 5%nat.
        apply load_store_at_other.
        change (length (EQ10_DesignBiquad (load (Z.to_nat band) QUICKTUNE_BAND_FREQUENCIES)
                          (clip_gain g) (clip_Q Q) (IZR QUICKTUNE_SAMPLE_RATE)))
          with 5%nat.
        exact Hj.
  - split; [|split].
    + split; [intros H; discriminate H|].
      intros [_ Hr]. apply Hv in Hr. discriminate Hr.
    + reflexivity.
    + intros H; discriminate H.
  - split; [|split].
    + split; [intros H; discriminate H|]. intros [Hi _]. discriminate Hi.
    + reflexivity.
    + intros H; discriminate H.
  - split; [|split].
    + split; [intros H; discriminate H|]. intros [Hi _]. discriminate Hi.
    + reflexivity.
    + intros H; discriminate H.
Qed.

Lemma EQ10_SetBandGain_frame_witness :
  let e := EQ10_Init EQ10_boot in
  let r := EQ10_SetBandGain 3 6 50 e in
  let b := Z.to_nat 3 in
  (fst r = true <-> s_eq10_initialized e = true /\ (0 <= 3 < 10)%Z) /\
  (fst r = false -> snd r = e) /\
  (fst r = true ->
     s_eq10_state (snd r) = s_eq10_state e /\
     s_eq10_initialized (snd r) = true /\
     length (s_eq10_coeffs (snd r)) = 50%nat /\
     (forall k, (k < 5)%nat ->
        load (b * 5 + k) (s_eq10_coeffs (snd r))
        = load k (EQ10_DesignBiquad (load b QUICKTUNE_BAND_FREQUENCIES)
                    (clip_gain 6) (clip_Q 50) (IZR QUICKTUNE_SAMPLE_RATE))) /\
     (forall j, (j < b * 5 \/ b * 5 + 5 <= j)%nat ->
        load j (s_eq10_coeffs (snd r)) = load j (s_eq10_coeffs e))).
Proof.
  apply (EQ10_SetBandGain_frame (EQ10_Init EQ10_boot) 3 6 50).
  apply (EQ10_Init_state EQ10_boot).
Defined.

Lemma SetBandGain_sequence (gains : list R) (Q : R) (st : list R) (l : list nat) :
  forall cs,
  (forall band, In band l -> (band < 10)%nat) ->
  fold_left (fun e band => snd (EQ10_SetBandGain (Z.of_nat band) (load band gains) Q e))
            l (mkEQ10 cs st true)
  = mkEQ10 (fold_left (fun cs band =>
                         design_band (clip_gain (load band gains)) (clip_Q Q) band cs)
                      l cs)
           st true.
Proof.
  induction l as [|b l IH]; intros cs Hl; cbn [fold_left]; [reflexivity|].
  assert (Hb : (b < 10)%nat) by (apply Hl; left; reflexivity).
  assert (Hvalid : EQ10_IsValidBand (Z.of_nat b) = true).
  { unfold EQ10_IsValidBand, EQ10_NUM_BANDS. rewrite andb_true_iff, Z.leb_le, Z.ltb_lt. lia. }
  unfold EQ10_SetBandGain at 2. cbn [s_eq10_initialized s_eq10_coeffs s_eq10_state].
  rewrite Hvalid. cbn [negb orb snd]. rewrite Nat2Z.id.
  apply IH. intros band Hband. apply Hl. right. exact Hband.
Qed.

(** X17.  On an initialised engine [EQ10_SetAllGains] does what ten calls
    of [EQ10_SetBandGain] do, band 0 to band 9 with the same Q: the same
    coefficients, state and flag.  With the array at its size of 50 the
    coefficients depend on the request alone, not on what the array held. *)
Theorem EQ10_SetAllGains_by_bands (e e' : EQ10) (gains : list R) (Q : R) :
  s_eq10_initialized e = true ->
  snd (EQ10_SetAllGains (Some gains) Q e)
  = fold_left (fun e band => snd (EQ10_SetBandGain (Z.of_nat band) (load band gains) Q e))
              bands e /\
  (s_eq10_initialized e' = true ->
   length (s_eq10_coeffs e) = 50%nat -> length (s_eq10_coeffs e') = 50%nat ->
   s_eq10_coeffs (snd (EQ10_SetAllGains (Some gains) Q e))
   = s_eq10_coeffs (snd (EQ10_SetAllGains (Some gains) Q e'))).
Proof.
  intros Hinit. split.
  - destruct e as [cs st ini]. cbn [s_eq10_initialized] in Hinit. subst ini.
    rewrite SetBandGain_sequence by (intros band Hb; apply in_bands; exact Hb).
    reflexivity.
  - intros Hinit' Hl Hl'. unfold EQ10_SetAllGains. rewrite Hinit, Hinit'.
    cbn [negb snd s_eq10_coeffs].
    rewrite (design_all (fun band => clip_gain (load band gains))) by exact Hl.
    rewrite (design_all (fun band => clip_gain (load band gains))) by exact Hl'.
    reflexivity.
Qed.

Lemma EQ10_SetAllGains_by_bands_witness :
  let e := EQ10_Init EQ10_boot in
  let e' := snd (EQ10_SetBandGain 2 9 5 e) in
  snd (EQ10_SetAllGains (Some preset) 3 e)
  = fold_left (fun e band => snd (EQ10_SetBandGain (Z.of_nat band) (load band preset) 3 e))
              bands e /\
  (s_eq10_initialized e' = true ->
   length (s_eq10_coeffs e) = 50%nat -> length (s_eq10_coeffs e') = 50%nat ->
   s_eq10_coeffs (snd (EQ10_SetAllGains (Some preset) 3 e))
   = s_eq10_coeffs (snd (EQ10_SetAllGains (Some preset) 3 e'))).
Proof.
  apply (EQ10_SetAllGains_by_bands (EQ10_Init EQ10_boot)
           (snd (EQ10_SetBandGain 2 9 5 (EQ10_Init EQ10_boot))) preset 3).
  reflexivity.
Defined.

(** The 0 dB design at a band frequency and the calibration Q. *)
Lemma design_flat_band (band : nat) :
  (band < 10)%nat ->
  let w0 := 2 * PI * load band QUICKTUNE_BAND_FREQUENCIES / IZR QUICKTUNE_SAMPLE_RATE in
  let alpha := sin w0 / (2 * QUICKTUNE_EQ_Q) in
  EQ10_DesignBiquad (load band QUICKTUNE_BAND_FREQUENCIES) 0 QUICKTUNE_EQ_Q
                    (IZR QUICKTUNE_SAMPLE_RATE)
  = [1; -2 * cos w0 / (1 + alpha); (1 - alpha) / (1 + alpha);
        -2 * cos w0 / (1 + alpha); (1 - alpha) / (1 + alpha)].
Proof.
  intros Hb w0 alpha.
  pose proof (band_alpha_pos band QUICKTUNE_EQ_Q Hb ltac:(unfold QUICKTUNE_EQ_Q; lra)) as Ha.
  fold w0 in Ha. fold alpha in Ha.
  unfold EQ10_DesignBiquad. fold w0. fold alpha.
  replace (0 / 40) with 0 by lra. rewrite Rpower_O by lra.
  replace (alpha * 1) with alpha by lra.
  replace (alpha / 1) with alpha by lra.
  f_equal. field. lra.
Qed.

Lemma load_flat_map_block (F : nat -> list R) (m n b k : nat) :
  (forall i, length (F i) = m) -> (b < n)%nat -> (k < m)%nat ->
  load (b * m + k) (flat_map F (seq 0 n)) = load k (F b).
Proof.
  intros HF. induction n as [|n IH]; intros Hb Hk; [lia|].
  rewrite seq_S, flat_map_app. cbn [flat_map Nat.add]. rewrite app_nil_r.
  assert (Hpre : length (flat_map F (seq 0 n)) = (n * m)%nat).
  { rewrite (flat_map_length_const F m) by exact HF. rewrite length_seq. lia. }
  unfold load in *. destruct (Nat.eq_dec b n) as [->|Hne].
  - rewrite app_nth2 by (rewrite Hpre; lia). rewrite Hpre. f_equal. lia.
  - rewrite app_nth1 by (rewrite Hpre; nia). apply IH; lia.
Qed.

(** X18.  [QuickTune_Init] resets the controller, whatever ran before: the
    state is [IDLE], the error code 0, the three result arrays are zero, and
    the equalizer is initialised and flat: in every band the leading
    coefficient is 1 and the numerator equals the denominator.  A start
    succeeds afterwards. *)
Theorem QuickTune_Init_resets (q : QuickTune) (band : nat) :
  length (s_eq10_coeffs (eq10 q)) = 50%nat ->
  (band < 10)%nat ->
  let q' := QuickTune_Init q in
  let cs := s_eq10_coeffs (eq10 q') in
  s_state q' = QUICKTUNE_STATE_IDLE /\
  s_last_error q' = 0%Z /\
  s_measured_levels q' = zeros 10 /\
  s_correction_gains q' = zeros 10 /\
  s_cumulative_gains q' = zeros 10 /\
  s_eq10_initialized (eq10 q') = true /\
  length cs = 50%nat /\
  load (band * 5) cs = 1 /\
  load (band * 5 + 1) cs = load (band * 5 + 3) cs /\
  load (band * 5 + 2) cs = load (band * 5 + 4) cs /\
  fst (QuickTune_Start q') = true.
Proof.
  intros Hlen Hb. cbv zeta.
  assert (Hcs : s_eq10_coeffs (eq10 (QuickTune_Init q))
                = flat_map (fun band =>
                              EQ10_DesignBiquad (load band QUICKTUNE_BAND_FREQUENCIES) 0
                                QUICKTUNE_EQ_Q (IZR QUICKTUNE_SAMPLE_RATE)) (seq 0 10)).
  { unfold QuickTune_Init, EQ10_Init. cbn [eq10 s_eq10_coeffs].
    apply (design_all (fun _ => 0) QUICKTUNE_EQ_Q). exact Hlen. }
  assert (Hblock : forall k, (k < 5)%nat ->
            load (band * 5 + k) (s_eq10_coeffs (eq10 (QuickTune_Init q)))
            = load k (EQ10_DesignBiquad (load band QUICKTUNE_BAND_FREQUENCIES) 0
                        QUICKTUNE_EQ_Q (IZR QUICKTUNE_SAMPLE_RATE))).
  { intros k Hk. rewrite Hcs. apply load_flat_map_block; [reflexivity|exact Hb|exact Hk]. }
  pose proof (Hblock 0%nat ltac:(lia)) as H0. rewrite Nat.add_0_r in H0.
  rewrite H0, !Hblock by lia. rewrite (design_flat_band band Hb).
  destruct (EQ10_Init_state (eq10 q)) as [Hi Hl].
  conjs; try reflexivity.
  rewrite <- Hlen. exact Hl.
Qed.

Lemma QuickTune_Init_resets_witness :
  let q' := QuickTune_Init QuickTune_boot in
  let cs := s_eq10_coeffs (eq10 q') in
  s_state q' = QUICKTUNE_STATE_IDLE /\
  s_last_error q' = 0%Z /\
  s_measured_levels q' = zeros 10 /\
  s_correction_gains q' = zeros 10 /\
  s_cumulative_gains q' = zeros 10 /\
  s_eq10_initialized (eq10 q') = true /\
  length cs = 50%nat /\
  load (4 * 5) cs = 1 /\
  load (4 * 5 + 1) cs = load (4 * 5 + 3) cs /\
  load (4 * 5 + 2) cs = load (4 * 5 + 4) cs /\
  fst (QuickTune_Start q') = true.
Proof.
  apply (QuickTune_Init_resets QuickTune_boot 4); [reflexivity|lia].
Defined.

(** X19.  Coefficient presets round-trip: what [EQ10_GetCoefficients]
    copies out of an engine, [EQ10_SetCoefficients] accepts on any
    initialised engine and installs unchanged, so that reading the
    coefficients back gives the same 50 values, whatever the cascade
    initialisation does to the delay lines.  A [NULL] array or an
    uninitialised engine is rejected and nothing is written. *)
Theorem coefficients_round_trip
    (cascade_init : Z -> list R -> list R -> list R)
    (e e' : EQ10) (buffer : list R) :
  length (s_eq10_coeffs e) = 50%nat ->
  let saved := EQ10_GetCoefficients (Some buffer) e in
  let r := EQ10_SetCoefficients cascade_init saved e' in
  saved = Some (s_eq10_coeffs e) /\
  fst r = s_eq10_initialized e' /\
  (fst r = true ->
     s_eq10_coeffs (snd r) = s_eq10_coeffs e /\
     EQ10_GetCoefficients (Some buffer) (snd r) = saved) /\
  (fst r = false -> snd r = e') /\
  EQ10_SetCoefficients cascade_init None e' = (false, e') /\
  EQ10_GetCoefficients None e = None.
Proof.
  intros Hlen. cbv zeta.
  assert (Hget : EQ10_GetCoefficients (Some buffer) e = Some (s_eq10_coeffs e)).
  { unfold EQ10_GetCoefficients. change (Z.to_nat EQ10_TOTAL_COEFFS) with 50%nat.
    rewrite <- Hlen, memcpy_all. reflexivity. }
  rewrite Hget. unfold EQ10_SetCoefficients.
  change (Z.to_nat EQ10_TOTAL_COEFFS) with 50%nat.
  assert (Hcopy : memcpy 50 (s_eq10_coeffs e) = s_eq10_coeffs e)
    by (rewrite <- Hlen at 1; apply memcpy_all).
  rewrite Hcopy.
  destruct (s_eq10_initialized e'); cbn [negb fst snd]; conjs; try reflexivity;
    try (intros H; discriminate H).
  intros _. cbn [s_eq10_coeffs]. split; [reflexivity|].
  unfold EQ10_GetCoefficients. cbn [s_eq10_coeffs].
  change (Z.to_nat EQ10_TOTAL_COEFFS) with 50%nat. rewrite Hcopy. reflexivity.
Qed.

Lemma coefficients_round_trip_witness :
  let cascade_init := fun (n : Z) (coeffs state : list R) => zeros 20 in
  let e := snd (EQ10_SetAllGains (Some preset) 2 (EQ10_Init EQ10_boot)) in
  let e' := EQ10_Init EQ10_boot in
  let saved := EQ10_GetCoefficients (Some (zeros 50)) e in
  let r := EQ10_SetCoefficients cascade_init saved e' in
  saved = Some (s_eq10_coeffs e) /\
  fst r = s_eq10_initialized e' /\
  (fst r = true ->
     s_eq10_coeffs (snd r) = s_eq10_coeffs e /\
     EQ10_GetCoefficients (Some (zeros 50)) (snd r) = saved) /\
  (fst r = false -> snd r = e') /\
  EQ10_SetCoefficients cascade_init None e' = (false, e') /\
  EQ10_GetCoefficients None e = None.
Proof.
  apply (coefficients_round_trip (fun (n : Z) (coeffs state : list R) => zeros 20)
           (snd (EQ10_SetAllGains (Some preset) 2 (EQ10_Init EQ10_boot)))
           (EQ10_Init EQ10_boot) (zeros 50)).
  apply (EQ10_SetAllGains_designed preset (EQ10_Init EQ10_boot)).
  - reflexivity.
  - apply (EQ10_Init_state EQ10_boot).
Defined.

(* ========================================================================== *)
(** * Further properties: a whole calibration on a silent microphone *)
(* ========================================================================== *)

(** The controller at the start of a sweep on a silent microphone: arrays at
    their sizes and, after the first iteration, every cumulative gain at the
    maximum. *)
Lemma silent_sweep (mic : nat -> list R) (q0 : QuickTune) (it : Z) (m0 : nat) :
  sweep_start it q0 ->
  length (s_measured_levels q0) = 10%nat ->
  length (s_correction_gains q0) = 10%nat ->
  length (s_cumulative_gains q0) = 10%nat ->
  (it <> 0%Z -> forall band, (band < 10)%nat -> load band (s_cumulative_gains q0) = 12) ->
  silent mic ->
  Z.of_nat m0 = 4500%Z ->
  let q2 := feed mic (S (S m0)) q0 in
  length (s_measured_levels q2) = 10%nat /\
  length (s_correction_gains q2) = 10%nat /\
  length (s_cumulative_gains q2) = 10%nat /\
  forall band, (band < 10)%nat ->
    load band (s_measured_levels q2) = -120 + load band QUICKTUNE_MEMS_CALIBRATION /\
    load band (s_cumulative_gains q2) = 12.
Proof.
  intros (Hst & Hb & Hc & Hit & Hq) Hlm Hlc Hlu Hmax Hsilent Hm0. cbv zeta.
  destruct (sweep mic q0 Hst Hb Hc (fun _ => Hq) m0 ltac:(lia))
    as (b & j & Hnb & Hj & Hb10 & _ & Hitn & _ & Hco & Hcu & _ & Hlen & _ & Hcomp & Hsil).
  assert (b = 10%Z) by lia. subst b.
  destruct (Hcomp eq_refl) as [_ Hstate].
  destruct (Hsil Hsilent) as [_ Hlevels].
  rewrite (feed_S mic (S m0)), (feed_S mic m0).
  set (qn := feed mic m0 q0) in *. clearbody qn.
  assert (Hlcn : length (s_correction_gains qn) = 10%nat) by (rewrite Hco; exact Hlc).
  assert (Hlun : length (s_cumulative_gains qn) = 10%nat) by (rewrite Hcu; exact Hlu).
  destruct (computing_step qn (mic m0) QUICKTUNE_BLOCK_SIZE Hstate Hlcn Hlun)
    as (Hsa & Hl1 & Hl2 & Hgains).
  assert (Hma : s_measured_levels
                  (fst (QuickTune_ProcessBlock (mic m0) QUICKTUNE_BLOCK_SIZE qn))
                = s_measured_levels qn).
  { rewrite (computing_block (mic m0) _ qn Hstate). apply ComputeCorrectionGains_frame. }
  set (qa := fst (QuickTune_ProcessBlock (mic m0) QUICKTUNE_BLOCK_SIZE qn)) in *.
  clearbody qa.
  rewrite (applying_block (mic (S m0)) _ qa Hsa).
  destruct (ApplyCorrectionGains_result qa) as (-> & -> & -> & _).
  rewrite Hma. conjs; try congruence.
  intros band Hband.
  assert (Hlevel : load band (s_measured_levels qn)
                   = -120 + load band QUICKTUNE_MEMS_CALIBRATION)
    by (apply Hlevels; lia).
  split; [exact Hlevel|].
  destruct (Hgains band Hband) as [_ ->]. unfold cumulative_of, correction_of.
  rewrite Hlevel, floor_correction, Hitn, Hit.
  destruct (Z.eqb_spec it 0) as [_|Hne]; [reflexivity|].
  rewrite Hcu, (Hmax Hne band Hband). unfold QUICKTUNE_DAMPING_FACTOR.
  apply clip_gain_above. lra.
Qed.

Lemma silent_shift (mic : nat -> list R) (m : nat) :
  silent mic -> silent (fun k => mic (m + k)%nat).
Proof. intros H k. apply H. Qed.

(** X20.  A calibration on a dead microphone completes like any other and
    programs the largest boost: 3 x 4502 blocks after a start from [IDLE],
    with every microphone block silent, the state is [DONE],
    [QuickTune_GetMeasuredLevels] returns the floor plus the calibration
    offsets and [QuickTune_GetCorrectionGains] returns +12 dB for all ten
    bands. *)
Theorem silent_calibration_result (q : QuickTune) (mic : nat -> list R) (n : nat) :
  s_state q = QUICKTUNE_STATE_IDLE ->
  sized q ->
  silent mic ->
  Z.of_nat n = (3 * 4502)%Z ->
  let qd := feed mic n (snd (QuickTune_Start q)) in
  s_state qd = QUICKTUNE_STATE_DONE /\
  QuickTune_GetMeasuredLevels qd
  = Some [-117; -118.5; -120; -120; -120; -120; -120; -120; -120; -120] /\
  QuickTune_GetCorrectionGains qd = Some [12; 12; 12; 12; 12; 12; 12; 12; 12; 12].
Proof.
  intros Hidle (Hlm & Hlc & Hlu & _) Hsilent Hn. cbv zeta.
  change (Z.to_nat QUICKTUNE_NUM_BANDS) with 10%nat in *.
  destruct (QuickTune_Start_idle q Hidle)
    as (_ & Hst & Hb & Hc & Hit & Hq & Hm1 & Hc1 & Hu1 & _).
  rewrite <- Hm1 in Hlm. rewrite <- Hc1 in Hlc. rewrite <- Hu1 in Hlu.
  assert (Hs1 : sweep_start 0 (snd (QuickTune_Start q))) by (unfold sweep_start; auto).
  set (q1 := snd (QuickTune_Start q)) in *. clearbody q1.
  set (m0 := Z.to_nat 4500). assert (Hm0 : Z.of_nat m0 = 4500%Z) by lia. clearbody m0.
  set (m := S (S m0)).
  replace n with (m + (m + m))%nat by lia.
  (* first pass *)
  destruct (pass_from mic q1 0 m0 Hs1 Hm0) as (_ & Hs2 & _).
  cbn [Z.ltb Z.compare Z.add] in Hs2.
  destruct (silent_sweep mic q1 0 m0 Hs1 Hlm Hlc Hlu ltac:(congruence) Hsilent Hm0)
    as (Hlm2 & Hlc2 & Hlu2 & H2).
  fold m in Hs2, Hlm2, Hlc2, Hlu2, H2.
  rewrite feed_add. set (mic2 := fun k => mic (m + k)%nat).
  assert (Hsil2 : silent mic2) by (apply silent_shift; exact Hsilent).
  set (q2 := feed mic m q1) in *. clearbody q2.
  (* second pass *)
  destruct (pass_from mic2 q2 1 m0 Hs2 Hm0) as (_ & Hs3 & _).
  cbn [Z.ltb Z.compare Pos.compare Pos.compare_cont Z.add Pos.add] in Hs3.
  destruct (silent_sweep mic2 q2 1 m0 Hs2 Hlm2 Hlc2 Hlu2
              ltac:(intros _ band Hband; apply H2; exact Hband) Hsil2 Hm0)
    as (Hlm3 & Hlc3 & Hlu3 & H3).
  fold m in Hs3, Hlm3, Hlc3, Hlu3, H3.
  rewrite feed_add. set (mic3 := fun k => mic2 (m + k)%nat).
  assert (Hsil3 : silent mic3) by (apply silent_shift; exact Hsil2).
  set (q3 := feed mic2 m q2) in *. clearbody q3.
  (* third pass *)
  destruct (pass_from mic3 q3 2 m0 Hs3 Hm0) as (_ & Hdone & _).
  cbn [Z.ltb Z.compare Pos.compare Pos.compare_cont] in Hdone.
  destruct (silent_sweep mic3 q3 2 m0 Hs3 Hlm3 Hlc3 Hlu3
              ltac:(intros _ band Hband; apply H3; exact Hband) Hsil3 Hm0)
    as (Hlmd & _ & Hlud & Hd).
  fold m in Hdone, Hlmd, Hlud, Hd.
  set (qd := feed mic3 m q3) in *. clearbody qd.
  unfold QuickTune_GetMeasuredLevels, QuickTune_GetCorrectionGains.
  rewrite Hdone. cbn [QuickTuneState_eqb]. conjs; [reflexivity| |]; f_equal.
  - apply array10_ext; [exact Hlmd|reflexivity|].
    intros i Hi. destruct (Hd i Hi) as (-> & _).
    unfold QUICKTUNE_MEMS_CALIBRATION.
    do 10 (destruct i as [|i]; [unfold load; cbn [nth]; lra|]). lia.
  - apply array10_ext; [exact Hlud|reflexivity|].
    intros i Hi. destruct (Hd i Hi) as (_ & ->).
    do 10 (destruct i as [|i]; [reflexivity|]). lia.
Qed.

Lemma silent_calibration_result_witness :
  let q := QuickTune_Init QuickTune_boot in
  let mic := fun _ : nat => zeros 32 in
  let qd := feed mic (Z.to_nat 13506) (snd (QuickTune_Start q)) in
  s_state qd = QUICKTUNE_STATE_DONE /\
  QuickTune_GetMeasuredLevels qd
  = Some [-117; -118.5; -120; -120; -120; -120; -120; -120; -120; -120] /\
  QuickTune_GetCorrectionGains qd = Some [12; 12; 12; 12; 12; 12; 12; 12; 12; 12].
Proof.
  apply (silent_calibration_result (QuickTune_Init QuickTune_boot)
           (fun _ : nat => zeros 32) (Z.to_nat 13506)).
  - reflexivity.
  - apply (QuickTune_Init_sized QuickTune_boot). reflexivity.
  - exact silent_mic.
  - lia.
Defined.
